(** * Model-selection search and weight export: a shallow embedding

    The development follows three scripts of the repository:

    - [ModelTraining/compareModels.py]: the search over model family,
      feature transform, feature ranking and number of removed features,
      with its running best score and its report file;
    - [ModelTraining/train_academic_model_new.py]: the export of the
      intercept-folded weight row;
    - [ModelTraining/train_healthcare_model_new.py]: the same export, followed
      by the rescaling against the financial reference weights.

    Numbers are IEEE 754 binary64 values, as Python's [float] and numpy's
    [float64] are: Rocq's primitive floats, whose operations round exactly as
    the hardware does. *)

From Stdlib Require Import String Ascii DecimalString.
From Stdlib Require Import ZArith Uint63 Floats Lia Bool Arith List.
From Stdlib Require Import Permutation Sorted QArith Qabs Qminmax.
Import ListNotations.
Close Scope Q_scope.

Set Implicit Arguments.
Set Warnings "-inexact-float".

(* ================================================================== *)
(** * Part I: definitions *)
(* ================================================================== *)

(** ** The order of binary64 values, through keys *)

Module FloatOrder.

(** The comparison of two values that are not NaN is the lexicographic
    comparison of a key: the class of the value (negative infinity, negative,
    zero, positive, positive infinity), then its exponent and mantissa, both
    negated for a negative value. *)
Definition sf_key (f : spec_float) : Z * Z * Z :=
  match f with
  | S754_zero _ => (0, 0, 0)%Z
  | S754_infinity s => ((if s then -2 else 2), 0, 0)%Z
  | S754_nan => (0, 0, 0)%Z
  | S754_finite s m e =>
      if s then (-1, - e, Z.neg m)%Z else (1, e, Z.pos m)%Z
  end.

Definition lex3 (a b : Z * Z * Z) : comparison :=
  match (fst (fst a) ?= fst (fst b))%Z with
  | Eq => match (snd (fst a) ?= snd (fst b))%Z with
          | Eq => (snd a ?= snd b)%Z
          | c => c
          end
  | c => c
  end.

Definition sf_is_nan (f : spec_float) : bool :=
  match f with S754_nan => true | _ => false end.

(** The order on keys, as arithmetic. *)
Definition key_le (a b : Z * Z * Z) : Prop :=
  (fst (fst a) < fst (fst b) \/
   (fst (fst a) = fst (fst b) /\
    (snd (fst a) < snd (fst b) \/
     (snd (fst a) = snd (fst b) /\ snd a <= snd b))))%Z.

Definition key_lt (a b : Z * Z * Z) : Prop :=
  (fst (fst a) < fst (fst b) \/
   (fst (fst a) = fst (fst b) /\
    (snd (fst a) < snd (fst b) \/
     (snd (fst a) = snd (fst b) /\ snd a < snd b))))%Z.

End FloatOrder.

(** ** The numpy operations the scripts use *)

Module Numpy.

Import FloatOrder.
Open Scope float_scope.

(** A two-dimensional array: the list of its rows. *)
Definition matrix := list (list float).

Definition nrows (X : matrix) : nat := length X.

(** [X.shape[1]], read off the first row. *)
Definition ncols (X : matrix) : nat :=
  match X with
  | [] => 0
  | row :: _ => length row
  end.

(** [np.finfo(float).eps], the gap between 1.0 and the next value: 2^-52. *)
Definition eps : float := 0x1p-52.

(** numpy's order on floating-point values when it sorts: ascending, every
    NaN after every other value ([a < b || (b != b && a == a)]). *)
Definition np_lt (a b : float) : bool :=
  (a <? b) || (is_nan b && negb (is_nan a)).

Definition np_le (a b : float) : bool := negb (np_lt b a).

Section Sort.

Variable A : Type.
Variable lt : A -> A -> bool.

(** Insertion from the left: [x] goes before the first element that is not
    below it, so equal keys keep their order. *)
Fixpoint insert_sorted (x : A) (l : list A) : list A :=
  match l with
  | [] => [x]
  | y :: l' => if lt y x then y :: insert_sorted x l' else x :: y :: l'
  end.

Fixpoint sort_by (l : list A) : list A :=
  match l with
  | [] => []
  | x :: l' => insert_sorted x (sort_by l')
  end.

End Sort.

(** [np.argsort(scores)]: the indices of [scores], ordered by the value they
    point at. numpy leaves the order among equal values open (its default
    sort is not stable); this model keeps them in index order, and
    [is_argsort] below says what holds of every such order. *)
Definition argsort (scores : list float) : list nat :=
  sort_by (fun i j => np_lt (nth i scores nan) (nth j scores nan))
          (seq 0 (length scores)).

(** [X[:, inds]]: the columns of [X] named by [inds], in that order. *)
Definition take_columns (X : matrix) (inds : list nat) : matrix :=
  map (fun row => map (fun j => nth j row nan) inds) X.

(** [X[:, j]]. *)
Definition column (X : matrix) (j : nat) : list float :=
  map (fun row => nth j row nan) X.

(** [np.maximum], which hands a NaN on. *)
Definition np_maximum (a b : float) : float :=
  if is_nan a then a else if is_nan b then b else if a <? b then b else a.

(** Python's conversion of an [int] to a [float]. *)
Definition float_of_nat (n : nat) : float :=
  of_uint63 (Uint63.of_Z (Z.of_nat n)).

(** The order of two columns by their scores. *)
Definition score_le (scores : list float) (i j : nat) : Prop :=
  np_le (nth i scores nan) (nth j scores nan) = true.


End Numpy.

(** ** ModelTraining/compareModels.py *)

Module CompareModels.

Import FloatOrder Numpy.
Open Scope string_scope.
Open Scope float_scope.

(** *** Data *)

(** [Y]: the class labels, binary in this repository. *)
Definition labels := list bool.

(** A hyperparameter value, with what Python's [str] and [repr] print for it. *)
Inductive pyval :=
| PStr (s : string)
| PNum (literal : string)
| PBool (b : bool).

Definition str (v : pyval) : string :=
  match v with
  | PStr s => s
  | PNum l => l
  | PBool b => if b then "True" else "False"
  end.

Definition repr (v : pyval) : string :=
  match v with
  | PStr s => "'" ++ s ++ "'"
  | _ => str v
  end.

(** A hyperparameter assignment ([GS.best_params_]): a dict, in key order. *)
Definition params := list (string * pyval).

(** A search space: each hyperparameter name with its candidate values. *)
Definition param_grid := list (string * list pyval).

(** [str(GS.best_params_)]. *)
Definition str_dict (p : params) : string :=
  "{" ++ String.concat ", " (map (fun kv => "'" ++ fst kv ++ "': " ++ repr (snd kv)) p) ++ "}".

Definition str_nat (n : nat) : string :=
  DecimalString.NilEmpty.string_of_uint (Nat.to_uint n).

Definition tab : string := String (ascii_of_nat 9) "".
Definition nl : string := String (ascii_of_nat 10) "".

(** The model families, [classifiers] with their names [strClf]. *)
Inductive estimator :=
| LogisticRegression
| RandomForestClassifier
| LinearSVC
| SVC.

Definition classifiers : list estimator :=
  [LogisticRegression; RandomForestClassifier; LinearSVC; SVC].

Definition strClf : list string :=
  ["Logistic Regression"; "Random Forest"; "Linear SVM"; "Non-Linear SVM"].

Definition strTrans : list string :=
  ["None"; "MinMax"; "Standardize"; "log()"; "log(x+1)"].

Definition parameterSets : list param_grid :=
  [ [("penalty", [PStr "l1"; PStr "l2"]);
     ("C", [PNum "0.1"; PNum "1"; PNum "10"]);
     ("solver", [PStr "liblinear"; PStr "lbfgs"])];
    [("criterion", [PStr "gini"; PStr "entropy"]);
     ("n_estimators", [PNum "100"; PNum "200"; PNum "300"]);
     ("bootstrap", [PBool false; PBool true])];
    [("penalty", [PStr "l1"; PStr "l2"]);
     ("C", [PNum "0.1"; PNum "1"; PNum "10"]);
     ("max_iter", [PNum "10000"]);
     ("loss", [PStr "hinge"; PStr "squared_hinge"])];
    [("kernel", [PStr "poly"; PStr "rbf"]);
     ("C", [PNum "0.1"; PNum "1"; PNum "10"])] ].

(** What a fitted [GridSearchCV] exposes to the script. *)
Record GSResult := {
  best_score_ : float;
  best_params_ : params
}.

(** How a configuration picks its columns. *)
Inductive selection :=
| Chi_feat (n_feat : nat)
| MI_feat (n_feat : nat)
| All_features.

(** One evaluated configuration: the loop variables at a [GS.fit] call. *)
Record config := {
  n_clf : nat;
  n_trans : nat;
  sel : selection
}.

(** The script's variables that change during the search. [fp] is the
    sequence of strings handed to [fp.write]; [log] is not a variable of the
    script: it records, for each "Acc:" entry written, the configuration and
    the grid-search result the entry reports. *)
Record state := {
  fp : list string;
  max_score : float;
  winnerString : string;
  log : list (config * GSResult)
}.

(** *** Statements: state passing, with Python's exceptions *)

Inductive result (A : Type) :=
| Ok (a : A) (st : state)
| Raised (st : state).

Arguments Raised {A} st.

Definition M (A : Type) := state -> result A.

Definition ret {A} (a : A) : M A := fun st => Ok a st.

Definition bind {A B} (m : M A) (f : A -> M B) : M B :=
  fun st => match m st with
            | Ok a st' => f a st'
            | Raised st' => Raised st'
            end.

Notation "x <- m ;; k" := (bind m (fun x => k))
  (at level 61, m at next level, right associativity).
Notation "m ;; k" := (bind m (fun _ => k))
  (at level 61, right associativity).

(** A library call that may raise. *)
Definition call {A} (o : option A) : M A :=
  fun st => match o with
            | Some a => Ok a st
            | None => Raised st
            end.

Fixpoint for_each {A} (l : list A) (body : A -> M unit) : M unit :=
  match l with
  | [] => ret tt
  | x :: l' => body x ;; for_each l' body
  end.

Definition fp_write (s : string) : M unit :=
  fun st => Ok tt {| fp := (fp st ++ [s])%list; max_score := max_score st;
                     winnerString := winnerString st; log := log st |}.

Definition record_entry (c : config) (GS : GSResult) : M unit :=
  fun st => Ok tt {| fp := fp st; max_score := max_score st;
                     winnerString := winnerString st; log := (log st ++ [(c, GS)])%list |}.

(** [enumerate(l)]. *)
Definition enumerate {A} (l : list A) : list (nat * A) :=
  combine (seq 0 (length l)) l.

Definition final_state {A} (r : result A) : state :=
  match r with
  | Ok _ st => st
  | Raised st => st
  end.

Definition finished {A} (r : result A) : bool :=
  match r with
  | Ok _ _ => true
  | Raised _ => false
  end.

(** *** The script *)

(** [notrans]. *)
Definition notrans (X : matrix) : matrix := X.

(** [disMask]: the first two features continuous, the rest discrete. *)
Definition disMask (X_all : matrix) : list bool :=
  ([false; false] ++ repeat true (ncols X_all - 2))%list.

(** [X = deepcopy(X_all); X[1:3] = t(X[1:3] + eps)]: on a two-dimensional
    array the slice [1:3] takes rows 1 and 2. The transform returns a block
    of the shape it was given, which the assignment requires. The table is
    one of floats, as [pd.read_csv] gives for a file with a cell that is not
    an integer; into a table of integers alone numpy would cast the assigned
    block back to integers. *)
Definition transformed (t : matrix -> matrix) (X_all : matrix) : matrix :=
  (firstn 1 X_all
     ++ t (map (map (fun x => x + eps)) (firstn 2 (skipn 1 X_all)))
     ++ skipn 3 X_all)%list.

(** The text of [winnerString] for a configuration, before the parameters. *)
Definition descriptor (c : config) : string :=
  match sel c with
  | Chi_feat n_feat =>
      nth (n_clf c) strClf "" ++ " is the winner with " ++ str_nat n_feat
        ++ " features removed using Chi_squared, " ++ nth (n_trans c) strTrans ""
        ++ " feature transformation, and the following params:"
  | MI_feat n_feat =>
      nth (n_clf c) strClf "" ++ " is the winner with " ++ str_nat n_feat
        ++ " features removed using Mutual Importance, " ++ nth (n_trans c) strTrans ""
        ++ " feature transformation, and the following params:"
  | All_features =>
      nth (n_clf c) strClf "" ++ " is the winner using all features, "
        ++ nth (n_trans c) strTrans ""
        ++ " feature transformation, and the following params:"
  end.

(** [if GS.best_score_ > max_score: winnerString = ...; max_score = ...]. *)
Definition update_best (c : config) (GS : GSResult) : M unit :=
  fun st =>
    if max_score st <? best_score_ GS
    then Ok tt {| fp := fp st;
                  max_score := best_score_ GS;
                  winnerString := descriptor c ++ str_dict (best_params_ GS);
                  log := log st |}
    else Ok tt st.

Section Script.

(** Library functions: the scikit-learn estimators and rankers, numpy's
    logarithms and Python's printing of a float. [None] is a raised
    exception. *)
Variable mutual_info_classif : matrix -> labels -> list bool -> option (list float).
Variable chi2 : matrix -> labels -> option (list float).
Variable MinMaxScaler_fit_transform : matrix -> matrix.
Variable StandardScaler_fit_transform : matrix -> matrix.
Variable np_log : matrix -> matrix.
Variable np_log1p : matrix -> matrix.
Variable GridSearchCV_fit : estimator -> param_grid -> matrix -> labels -> option GSResult.
Variable format_16f : float -> string.
Variable str_float : float -> string.

(** The inputs: [feature_table.csv] and [Y.csv]. *)
Variable X_all : matrix.
Variable Y : labels.

Definition trans : list (matrix -> matrix) :=
  [notrans; MinMaxScaler_fit_transform; StandardScaler_fit_transform; np_log; np_log1p].

(** The block the script repeats after each [GS.fit]: write the entry, then
    update the best result. *)
Definition report_and_update (c : config) (clf : estimator) (X_selected : matrix) : M unit :=
  let parameters := nth (n_clf c) parameterSets [] in
  GS <- call (GridSearchCV_fit clf parameters X_selected Y) ;;
  fp_write (tab ++ tab ++ tab ++ "Acc:" ++ format_16f (best_score_ GS) ++ tab) ;;
  for_each (best_params_ GS) (fun xy => fp_write (fst xy ++ ":" ++ str (snd xy) ++ " ")) ;;
  fp_write nl ;;
  record_entry c GS ;;
  update_best c GS.

(** Lines 122-194: the configurations that remove features. *)
Definition reduced_pass (chi_inds mi_inds : list nat) : M unit :=
  for_each (enumerate classifiers) (fun nc =>
    let n_clf := fst nc in
    let clf := snd nc in
    fp_write (nth n_clf strClf "" ++ ":" ++ nl) ;;
    for_each (seq 0 5) (fun n_trans =>
      fp_write (tab ++ nth n_trans strTrans "" ++ ":" ++ nl) ;;
      let X := transformed (nth n_trans trans notrans) X_all in
      for_each [2500; 3500; 4500]%nat (fun n_feat =>
        fp_write (tab ++ tab ++ "Chi_feat: " ++ str_nat n_feat ++ nl) ;;
        report_and_update {| n_clf := n_clf; n_trans := n_trans; sel := Chi_feat n_feat |}
          clf (take_columns X (skipn n_feat chi_inds)) ;;
        fp_write (tab ++ tab ++ "MI_feat: " ++ str_nat n_feat ++ nl) ;;
        report_and_update {| n_clf := n_clf; n_trans := n_trans; sel := MI_feat n_feat |}
          clf (take_columns X (skipn n_feat mi_inds)))) ;;
    fp_write (nl ++ nl)).

(** Lines 199-231: every model family and transform again, on all features. *)
Definition all_features_pass : M unit :=
  fp_write ("All features" ++ nl) ;;
  for_each (enumerate classifiers) (fun nc =>
    let n_clf := fst nc in
    let clf := snd nc in
    fp_write (tab ++ nth n_clf strClf "" ++ ":" ++ nl) ;;
    for_each (seq 0 5) (fun n_trans =>
      fp_write (tab ++ tab ++ nth n_trans strTrans "" ++ ":" ++ nl) ;;
      let X := transformed (nth n_trans trans notrans) X_all in
      report_and_update {| n_clf := n_clf; n_trans := n_trans; sel := All_features |}
        clf X)).

(** Lines 234-236. *)
Definition write_summary : M unit :=
  fun st =>
    (fp_write (nl ++ nl ++ "Best Preforming Model:" ++ nl) ;;
     fp_write ("Accuracy: " ++ str_float (max_score st) ++ nl) ;;
     fp_write (winnerString st ++ nl)) st.

(** The state after [fp = open(..., "w")], [max_score = 0.0] and
    [winnerString = ""]. *)
Definition initial_state : state :=
  {| fp := []; max_score := 0; winnerString := ""; log := [] |}.

(** The whole script. The rankings are computed before the report file is
    opened: when one of them raises, nothing is written. *)
Definition main : result unit :=
  match mutual_info_classif X_all Y (disMask X_all), chi2 X_all Y with
  | Some mi_scores, Some chi_scores =>
      let mi_inds := argsort mi_scores in
      let chi_inds := argsort chi_scores in
      (reduced_pass chi_inds mi_inds ;;
       all_features_pass ;;
       write_summary) initial_state
  | _, _ => Raised initial_state
  end.

End Script.

(** *** The scikit-learn functions behind the rankings and the search

    The script calls these as library functions; the definitions below
    follow the library's algorithms (scikit-learn 1.x), so that the script can
    be run on them. *)

Module Sklearn.

(** [sklearn.feature_selection.chi2]

    [chi2(X, y)[0]]: the labels are binarized, one indicator column per
    class; [observed = Y.T @ X]; [feature_count = X.sum(axis=0)];
    [class_prob = Y.mean(axis=0)]; [expected = class_prob.T @ feature_count];
    the statistic of a column is the sum over the classes of
    [(observed - expected)**2 / expected], computed with invalid operations
    ignored. An input that fails the checks raises [ValueError]. Sums run
    from left to right here. *)

Definition fsum (l : list float) : float := fold_left add l 0.

Definition indicator (b : bool) : float := if b then 1 else 0.

Definition dot (u v : list float) : float :=
  fsum (map (fun uv => fst uv * snd uv) (combine u v)).

Definition chisquare_term (o e : float) : float := (o - e) * (o - e) / e.

(** The terms of one class, a column each: [Yk] is the class's indicator
    column. *)
Definition class_terms (X : matrix) (y : labels) (Yk : list float) : list float :=
  let features := seq 0 (ncols X) in
  let observed := map (fun j => dot Yk (column X j)) features in
  let feature_count := map (fun j => fsum (column X j)) features in
  let class_prob := fsum Yk / float_of_nat (length y) in
  let expected := map (fun c => class_prob * c) feature_count in
  map (fun oe => chisquare_term (fst oe) (snd oe)) (combine observed expected).

(** The input checks: at least one sample and one feature, every entry
    finite and none negative, one label per sample. *)
Definition chi2_accepts (X : matrix) (y : labels) : bool :=
  negb (nrows X =? 0)%nat && negb (ncols X =? 0)%nat
  && forallb (forallb is_finite) X
  && negb (existsb (existsb (fun x => x <? 0)) X)
  && (length y =? nrows X)%nat.

Definition chi2 (X : matrix) (y : labels) : option (list float) :=
  if chi2_accepts X y then
    let Ybin := [map (fun b => indicator (negb b)) y; map indicator y] in
    let chisq := map (class_terms X y) Ybin in
    Some (map (fun j => fsum (column chisq j)) (seq 0 (ncols X)))
  else None.

(** [sklearn.model_selection.GridSearchCV]

    [ParameterGrid]: the names in sorted order, the candidate values in the
    order given, the last name varying fastest. *)

Fixpoint product (items : param_grid) : list params :=
  match items with
  | [] => [[]]
  | (k, vs) :: rest => flat_map (fun v => map (cons (k, v)) (product rest)) vs
  end.

Definition ParameterGrid (grid : param_grid) : list params :=
  product (sort_by (fun a b => String.ltb (fst a) (fst b)) grid).

(** The candidate with the highest mean test score, the first of them on a
    tie. A candidate whose fit raised has the score [error_score = nan]
    ([None] here) and ranks below every candidate that was scored. *)
Fixpoint best_candidate (cells : list (params * option float)) : option (params * float) :=
  match cells with
  | [] => None
  | (p, None) :: rest => best_candidate rest
  | (p, Some s) :: rest =>
      match best_candidate rest with
      | Some (p', s') => if s <? s' then Some (p', s') else Some (p, s)
      | None => Some (p, s)
      end
  end.

(** [cv_results_]: every candidate of the grid with its mean test score. *)
Definition cv_results_ (cv : params -> option float) (grid : param_grid)
  : list (params * option float) :=
  map (fun p => (p, cv p)) (ParameterGrid grid).

(** [GridSearchCV(clf, grid).fit(X, Y)], given the mean cross-validated
    score [cv p] of each candidate ([None] when its fit raises). When every
    candidate fails, [fit] raises. *)
Definition GridSearchCV_fit (cv : params -> option float) (grid : param_grid)
  : option GSResult :=
  match best_candidate (cv_results_ cv grid) with
  | Some (p, s) => Some {| best_score_ := s; best_params_ := p |}
  | None => None
  end.

(** The candidates the search skipped. *)
Definition skipped (cv : params -> option float) (grid : param_grid) : list params :=
  filter (fun p => match cv p with None => true | Some _ => false end)
         (ParameterGrid grid).

End Sklearn.

(** *** The best result as a fold, and the order of the search *)

(** One entry of the result log. *)
Definition entry := (config * GSResult)%type.

Definition score (e : entry) : float := best_score_ (snd e).

(** The pair ([max_score], [winnerString]) after one more entry. *)
Definition fold_in (b : float * string) (e : entry) : float * string :=
  if fst b <? score e
  then (score e, descriptor (fst e) ++ str_dict (best_params_ (snd e)))
  else b.

(** The pair after a whole log, from the initial [0.0] and [""]. *)
Definition best_after (l : list entry) : float * string :=
  fold_left fold_in l (0, "").

(** The configurations of lines 122-194, in the order of the loops. *)
Definition reduced_configs : list config :=
  flat_map (fun i =>
    flat_map (fun j =>
      flat_map (fun n_feat =>
        [ {| n_clf := i; n_trans := j; sel := Chi_feat n_feat |};
          {| n_clf := i; n_trans := j; sel := MI_feat n_feat |} ])
        [2500; 3500; 4500]%nat)
      (seq 0 5))
    (seq 0 (length classifiers)).

(** The configurations of lines 199-231. *)
Definition all_features_configs : list config :=
  flat_map (fun i =>
    map (fun j => {| n_clf := i; n_trans := j; sel := All_features |}) (seq 0 5))
    (seq 0 (length classifiers)).

(** The order the specification describes: the all-features configuration
    of a (model family, transform) pair right after the pair's
    reduced-feature configurations. *)
Definition spec_enumeration : list config :=
  flat_map (fun i =>
    flat_map (fun j =>
      (flat_map (fun n_feat =>
        [ {| n_clf := i; n_trans := j; sel := Chi_feat n_feat |};
          {| n_clf := i; n_trans := j; sel := MI_feat n_feat |} ])
        [2500; 3500; 4500]%nat
       ++ [ {| n_clf := i; n_trans := j; sel := All_features |} ])%list)
      (seq 0 5))
    (seq 0 (length classifiers)).

(** The text of [winnerString] when an entry wins. *)
Definition winner_text (e : entry) : string :=
  descriptor (fst e) ++ str_dict (best_params_ (snd e)).

(** The reduced-feature configurations of one model family and transform. *)
Definition pair_configs (i j : nat) : list config :=
  flat_map (fun n_feat =>
    [ {| n_clf := i; n_trans := j; sel := Chi_feat n_feat |};
      {| n_clf := i; n_trans := j; sel := MI_feat n_feat |} ])
    [2500; 3500; 4500]%nat.

(** *** Properties of statements *)

(** [m] keeps the invariant [I], also when it raises. *)
Definition keeps {A} (I : state -> Prop) (m : M A) : Prop :=
  forall st, I st -> I (final_state (m st)).

(** When [m] returns, it has appended the configurations [cs] to the log. *)
Definition logs {A} (cs : list config) (m : M A) : Prop :=
  forall st,
    match m st with
    | Ok _ st' => map fst (log st') = (map fst (log st) ++ cs)%list
    | Raised _ => True
    end.

(** The best result is the fold of the log. *)
Definition best_is_fold (st : state) : Prop :=
  (max_score st, winnerString st) = best_after (log st).

(** *** A small run *)

Module Sample.

Definition X : matrix :=
  [ [5.5; 2.5; 1; 0]; [0.5; 1.5; 1; 1]; [2; 3; 0; 1]; [7; 8; 1; 0] ].

Definition Y : labels := [true; false; true; false].

Definition mi (_ : matrix) (_ : labels) (_ : list bool) : option (list float) :=
  Some [0.5; 0.25; 0.125; 0].

Definition chi (_ : matrix) (_ : labels) : option (list float) :=
  Some [3; 1; 0.5; 2].

(** An evaluator that scores by model family alone: 0.75 for the first two
    families, 0.5 for the others. *)
Definition fit (clf : estimator) (grid : param_grid) (_ : matrix) (_ : labels)
  : option GSResult :=
  Some {| best_score_ := match clf with
                         | LogisticRegression | RandomForestClassifier => 0.75
                         | _ => 0.5
                         end;
          best_params_ := map (fun kv => (fst kv, hd (PStr "") (snd kv))) grid |}.

Definition show (x : float) : string :=
  if x =? 0.75 then "0.75" else if x =? 0.5 then "0.5" else "?".

End Sample.

(** The script on the sample, with identity stand-ins for the transforms. *)
Abbreviation sample_run :=
  (main Sample.mi Sample.chi notrans notrans notrans notrans
        Sample.fit Sample.show Sample.show Sample.X Sample.Y).

(** A feature matrix whose first column is all zeros. *)
Definition zero_column_X : matrix :=
  [ [0; 1; 3]; [0; 2; 1]; [0; 4; 1]; [0; 1; 2] ].

(** Hyperparameter lookups, for the sample grids. *)
Definition has (k v : string) (p : params) : bool :=
  existsb (fun kv => String.eqb (fst kv) k && String.eqb (str (snd kv)) v) p.

(** A learner that refuses the l1 penalty with the lbfgs solver and scores
    0.75 otherwise. *)
Definition cv_refusing (p : params) : option float :=
  if has "penalty" "l1" p && has "solver" "lbfgs" p then None else Some 0.75.

(** A learner that fits every combination, and scores 0.5 on those the
    other one refuses. *)
Definition cv_accepting (p : params) : option float :=
  if has "penalty" "l1" p && has "solver" "lbfgs" p then Some 0.5 else Some 0.75.

(** *** Results in another order, and runs that stop early *)

(** The updates of lines 164-167, 189-192 and 228-231 alone, for a sequence
    of results. *)
Definition replay (l : list entry) : M unit :=
  for_each l (fun e => update_best (fst e) (snd e)).

(** The first string of the summary (line 234). *)
Definition summary_header : string := nl ++ nl ++ "Best Preforming Model:" ++ nl.

Definition no_summary (st : state) : Prop := ~ In summary_header (fp st).

(** The last character of a string, [d] for the empty string. *)
Fixpoint last_ascii (s : string) (d : ascii) : ascii :=
  match s with
  | EmptyString => d
  | String c s' => last_ascii s' c
  end.

(** When [m] returns it has appended the configurations [cs] to the log;
    when it raises it has appended the ones before some configuration of
    [cs], which it did not log. *)
Definition stops_within {A} (cs : list config) (m : M A) : Prop :=
  forall st,
    match m st with
    | Ok _ st' => map fst (log st') = (map fst (log st) ++ cs)%list
    | Raised st' =>
        exists p c q, cs = (p ++ c :: q)%list /\
                      map fst (log st') = (map fst (log st) ++ p)%list
    end.

(** Two results, to replay in either order. *)
Definition two_results_a : entry :=
  ({| n_clf := 0; n_trans := 0; sel := All_features |},
   {| best_score_ := 0.5; best_params_ := [] |}).

Definition two_results_b : entry :=
  ({| n_clf := 1; n_trans := 2; sel := Chi_feat 2500 |},
   {| best_score_ := 0.75; best_params_ := [] |}).

(** A grid search none of whose candidates has a score: scikit-learn gives
    the failed fits of a candidate the score NaN ([error_score=np.nan]), and
    [best_score_] is NaN when every candidate has one. *)
Definition fit_all_nan (clf : estimator) (grid : param_grid) (X : matrix) (y : labels)
  : option GSResult :=
  Some {| best_score_ := nan; best_params_ := [] |}.

(** The script on the sample with that grid search. *)
Abbreviation nan_run :=
  (main Sample.mi Sample.chi notrans notrans notrans notrans
        fit_all_nan Sample.show Sample.show Sample.X Sample.Y).

(** A grid search that raises on the support-vector machines and behaves
    as [Sample.fit] on the other model families. *)
Definition fit_without_svm (clf : estimator) (grid : param_grid) (X : matrix) (y : labels)
  : option GSResult :=
  match clf with
  | LinearSVC | SVC => None
  | _ => Sample.fit clf grid X y
  end.

End CompareModels.

(** ** ModelTraining/train_academic_model_new.py and
       ModelTraining/train_healthcare_model_new.py: the export *)

Module Trainers.

Import Numpy.

(** The arithmetic the export uses. The scripts run on binary64 values;
    the same definitions are also read over the rationals, to say what the
    rescaling achieves when no operation rounds. *)
Class Arith (num : Type) := {
  num_add : num -> num -> num;
  num_mul : num -> num -> num;
  num_div : num -> num -> num;
  num_abs : num -> num;
  num_max : num -> num -> num;
  num_of_nat : nat -> num;
  num_1_8 : num
}.

#[export] Instance binary64 : Arith float := {|
  num_add := PrimFloat.add;
  num_mul := PrimFloat.mul;
  num_div := PrimFloat.div;
  num_abs := PrimFloat.abs;
  num_max := np_maximum;
  num_of_nat := float_of_nat;
  num_1_8 := 1.8%float
|}.

#[export] Instance exact : Arith Q := {|
  num_add := Qplus;
  num_mul := Qmult;
  num_div := Qdiv;
  num_abs := Qabs;
  num_max := Qmax;
  num_of_nat := fun n => inject_Z (Z.of_nat n);
  num_1_8 := (18 # 10)%Q
|}.

Section WeightExport.

Context {num : Type} {A : Arith num}.

(** [np.abs(v).max()]; numpy raises [ValueError] on an empty array. *)
Definition abs_max (v : list num) : option num :=
  match v with
  | [] => None
  | x :: v' => Some (fold_left (fun m y => num_max m (num_abs y)) v' (num_abs x))
  end.

(** [(intercept[0] * 1.8) / len(feature_columns)]. *)
Definition intercept_per_feature (intercept0 : num) (feature_columns : list string) : num :=
  num_div (num_mul intercept0 num_1_8) (num_of_nat (length feature_columns)).

(** [coefs_with_intercept = coefs.copy();
     coefs_with_intercept[0] = coefs[0] + intercept_per_feature]:
    [coefs] is [model.coef_], a row per class, and [intercept] is
    [model.intercept_]. Indexing an empty array raises [IndexError]. *)
Definition coefs_with_intercept
    (coefs : list (list num)) (intercept : list num) (feature_columns : list string)
  : option (list (list num)) :=
  match intercept, coefs with
  | b :: _, row :: rest =>
      Some (map (fun w => num_add w (intercept_per_feature b feature_columns)) row :: rest)
  | _, _ => None
  end.

(** The academic trainer writes [coefs_with_intercept] to [coefs.csv]. *)
Definition academic_coefs_csv
    (coefs : list (list num)) (intercept : list num) (feature_columns : list string)
  : option (list (list num)) :=
  coefs_with_intercept coefs intercept feature_columns.

(** [np.abs(financial_coefs).max() / np.abs(coefs_with_intercept[0]).max()]. *)
Definition scale_factor (financial_coefs row0 : list num) : option num :=
  match abs_max financial_coefs, abs_max row0 with
  | Some a, Some b => Some (num_div a b)
  | _, _ => None
  end.

(** The healthcare trainer's [coefs_final], which it writes to [coefs.csv]:
    the value alone; the print between the folding and the file test, which
    raises for a model without features, is in [ExportReport].
    [financial_file] is [None] when the financial [coefs.csv] does not exist,
    and holds the rows read from it otherwise; [.values[0]] of a file without
    rows raises. *)
Definition coefs_final
    (coefs : list (list num)) (intercept : list num) (feature_columns : list string)
    (financial_file : option (list (list num)))
  : option (list (list num)) :=
  match coefs_with_intercept coefs intercept feature_columns with
  | None => None
  | Some folded =>
      match financial_file with
      | Some rows =>
          match rows with
          | financial_coefs :: _ =>
              match scale_factor financial_coefs (hd [] folded) with
              | Some sf => Some (map (map (fun w => num_mul w sf)) folded)
              | None => None
              end
          | [] => None
          end
      | None => Some folded
      end
  end.

End WeightExport.

(** *** Fitted models to run the export on *)

Open Scope float_scope.

(** The ten feature columns of [Healthcare_Data.csv]. *)
Definition healthcare_columns : list string :=
  ["cna_mean"; "cna_max"; "cna_min"; "mut_sig_1"; "mut_sig_2"; "mut_sig_3";
   "mutation_burden"; "fusion_present"; "struct_var_count"; "panel_410"]%string.

(** A fitted model whose folded class-0 row is
    [49; -7; 0.5; 3; -0.75; 1.25; 2; -1; 0.25; 4], and a financial weight row
    whose largest absolute weight is 1. *)
Definition coefs_49 : list (list float) :=
  [ [40; -16; -8.5; -6; -9.75; -7.75; -7; -10; -8.75; -5] ].

Definition intercept_49 : list float := [50].

Definition financial_1 : list (list float) :=
  [ [0.5; -1; 0.25; 0.5; 0.75; -0.125; 0.5; 0.25; -0.5; 0.25] ].

End Trainers.

(** ** The export with its progress report *)

Module ExportReport.

Import Trainers.

Section Report.

Context {num : Type} {A : Arith num}.

(** Between the folding and the export both trainers print
    [coefs[0][0]] and [coefs_with_intercept[0][0]] (line 188 of the academic
    trainer, line 194 of the healthcare trainer): for a model without
    features this raises [IndexError]. *)
Definition print_adjusted_first_coefficient (coefs folded : list (list num))
  : option unit :=
  match hd [] coefs, hd [] folded with
  | _ :: _, _ :: _ => Some tt
  | _, _ => None
  end.

(** Lines 182-191 of the academic trainer: what it writes to [coefs.csv]. *)
Definition academic_export
    (coefs : list (list num)) (intercept : list num) (feature_columns : list string)
  : option (list (list num)) :=
  match coefs_with_intercept coefs intercept feature_columns with
  | None => None
  | Some folded =>
      match print_adjusted_first_coefficient coefs folded with
      | None => None
      | Some _ => academic_coefs_csv coefs intercept feature_columns
      end
  end.

(** Lines 188-210 of the healthcare trainer: the print comes before the
    reference file is looked for. *)
Definition healthcare_export
    (coefs : list (list num)) (intercept : list num) (feature_columns : list string)
    (financial_file : option (list (list num)))
  : option (list (list num)) :=
  match coefs_with_intercept coefs intercept feature_columns with
  | None => None
  | Some folded =>
      match print_adjusted_first_coefficient coefs folded with
      | None => None
      | Some _ => coefs_final coefs intercept feature_columns financial_file
      end
  end.

End Report.

End ExportReport.

(** ** The sign of binary64 values *)

Module FloatSign.

(** The sign bit of a value, [None] for NaN. *)
Definition sf_sign (f : spec_float) : option bool :=
  match f with
  | S754_zero s | S754_infinity s | S754_finite s _ _ => Some s
  | S754_nan => None
  end.

(** Not a NaN and not below zero, negative zero apart: the sign bit is not
    set. *)
Definition sf_nonneg_or_nan (f : spec_float) : Prop := sf_sign f <> Some true.

Definition sf_is_zero (f : spec_float) : bool :=
  match f with S754_zero _ => true | _ => false end.

End FloatSign.

(** ** ModelTraining/train_*_model_new.py: reading the table *)

Module DataPreparation.

Import Numpy.

(** *** Features and label *)

Section Frame.

(** A cell of the table, and the value pandas gives a missing cell. *)
Variable value : Type.
Variable na : value.

(** [df] after [pd.read_csv(data_path, header=0)]: the column names and the
    rows. pandas makes the names of a file's columns distinct, and every row
    has one cell per column. *)
Record DataFrame := {
  columns : list string;
  data : list (list value)
}.

Definition well_formed (df : DataFrame) : Prop :=
  NoDup (columns df) /\
  Forall (fun row => length row = length (columns df)) (data df).

(** The position of a column name. *)
Fixpoint index_of (col : string) (cols : list string) : option nat :=
  match cols with
  | [] => None
  | c :: cols' =>
      if String.eqb c col then Some 0%nat else option_map S (index_of col cols')
  end.

(** [df[col].values]; a name that is not a column raises [KeyError]. *)
Definition get_column (df : DataFrame) (col : string) : option (list value) :=
  match index_of col (columns df) with
  | Some i => Some (map (fun row => nth i row na) (data df))
  | None => None
  end.

(** [df[cols].values]. *)
Definition get_columns (df : DataFrame) (cols : list string) : option (list (list value)) :=
  if forallb (fun col => existsb (String.eqb col) (columns df)) cols
  then Some (map (fun row =>
                    map (fun col => match index_of col (columns df) with
                                    | Some i => nth i row na
                                    | None => na
                                    end) cols)
                 (data df))
  else None.

(** [.astype(int)] on a column, [None] when it raises; and the name of the
    label column: ['has_cancer'], ['is_fraud'] or ['at_risk']. *)
Variable astype_int : list value -> option (list Z).
Variable label : string.

(** The trainers' split of the table into [feature_columns], [X] and [y].
    Without a column of the label's name the last column is the label;
    [df.iloc[:, -1]] raises [IndexError] on a table without columns. *)
Definition split_features_label (df : DataFrame)
  : option (list string * list (list value) * list Z) :=
  if existsb (String.eqb label) (columns df)
  then
    let feature_columns :=
      filter (fun col => negb (String.eqb col label)) (columns df) in
    match get_columns df feature_columns, get_column df label with
    | Some X, Some y_column =>
        match astype_int y_column with
        | Some y => Some (feature_columns, X, y)
        | None => None
        end
    | _, _ => None
    end
  else
    match columns df with
    | [] => None
    | _ :: _ =>
        match astype_int (map (fun row => last row na) (data df)) with
        | Some y =>
            Some (removelast (columns df),
                  map (fun row => removelast row) (data df),
                  y)
        | None => None
        end
    end.

(** [original_no_header = df.iloc[:, :-1]], which the financial trainer
    writes to [Financial_Data_NoHeader.csv] as the features without the
    label. *)
Definition original_no_header (df : DataFrame) : list (list value) :=
  map (fun row => removelast row) (data df).

End Frame.

(** *** The range check of the normalized columns *)

Open Scope float_scope.

(** [np.minimum], which hands a NaN on. *)
Definition np_minimum (a b : float) : float :=
  if is_nan a then a else if is_nan b then b else if b <? a then b else a.

(** [column.min()] and [column.max()]; numpy raises [ValueError] on an empty
    column. *)
Definition np_min (col : list float) : option float :=
  match col with
  | [] => None
  | x :: col' => Some (fold_left np_minimum col' x)
  end.

Definition np_max (col : list float) : option float :=
  match col with
  | [] => None
  | x :: col' => Some (fold_left np_maximum col' x)
  end.

(** [status = "OK" if 0 <= min_val and max_val <= 1 else "ERROR"]. *)
Definition status (col : list float) : option string :=
  match np_min col, np_max col with
  | Some min_val, Some max_val =>
      Some (if (0 <=? min_val) && (max_val <=? 1) then "OK"%string else "ERROR"%string)
  | _, _ => None
  end.

(** A table to run the split on: the label in the middle column. *)
Definition label_in_the_middle : DataFrame Z :=
  {| columns := ["amount"; "is_fraud"; "hour"]%string;
     data := [ [10; 0; 23]; [2500; 1; 3] ]%Z |}.

End DataPreparation.

(** ** DataGenerators/generate_academic_data.py and
       DataGenerators/generate_financial_data.py *)

Module Generators.

Import Numpy.
Open Scope float_scope.

(** Python's [min(a, b)] and [max(a, b)]: the first argument, unless the
    second is strictly below, respectively above, it. *)
Definition py_min (a b : float) : float := if b <? a then b else a.
Definition py_max (a b : float) : float := if a <? b then b else a.

(** The conversion of an integer to a float: the nearest binary64 value,
    ties to even; an infinity for an integer beyond the range, where Python
    raises [OverflowError]. *)
Definition float_of_Z (z : Z) : float :=
  SF2Prim (binary_normalize prec emax z 0 false).

(** [int(x)]: truncation toward zero; NaN and the infinities raise. *)
Definition py_int (x : float) : option Z :=
  match Prim2SF x with
  | S754_zero _ => Some 0%Z
  | S754_finite s m e =>
      Some (cond_Zopp s (if (0 <=? e)%Z then Zpos m * 2 ^ e
                         else Zpos m / 2 ^ (- e)))%Z
  | _ => None
  end.

(** *** The two classes, and the shuffle *)

Section Generate.

(** The random draws of one row, and the rows of the two classes as
    functions of their draws. *)
Variable draws : Type.
Variable first_row second_row : draws -> list float.

(** The body both generators share. [first_draws i] and [second_draws i]
    are the draws of iteration [i] of the first and of the second loop,
    [permutation n] is [np.random.permutation(n)]. [n_samples * ratio]
    raises [OverflowError] for an [n_samples] beyond the range of a float, and
    [int] raises on NaN and on an infinity. *)
Definition generate (n_samples : Z) (ratio : float)
    (first_draws second_draws : nat -> draws) (permutation : nat -> list nat)
  : option (matrix * list Z) :=
  if is_infinity (float_of_Z n_samples) then None else
  match py_int (float_of_Z n_samples * ratio) with
  | None => None
  | Some n_second =>
      let n_first := (n_samples - n_second)%Z in
      let features :=
        (map (fun i => first_row (first_draws i)) (seq 0 (Z.to_nat n_first))
         ++ map (fun i => second_row (second_draws i)) (seq 0 (Z.to_nat n_second)))%list in
      let labels :=
        (repeat 0%Z (Z.to_nat n_first) ++ repeat 1%Z (Z.to_nat n_second))%list in
      let indices := permutation (length features) in
      Some (map (fun i => nth i features []) indices,
            map (fun i => nth i labels 0%Z) indices)
  end.

(** The rows of the two loops with their labels, before the shuffle. *)
Definition labelled_rows (n_first n_second : Z) (first_draws second_draws : nat -> draws)
  : list (list float * Z) :=
  (map (fun i => (first_row (first_draws i), 0%Z)) (seq 0 (Z.to_nat n_first))
   ++ map (fun i => (second_row (second_draws i), 1%Z)) (seq 0 (Z.to_nat n_second)))%list.

End Generate.

(** *** generate_academic_data *)

Record student := {
  study_hours : float;
  attendance : float;
  assignment_avg : float;
  midterm : float;
  participation : float;
  prev_gpa : float;
  num_courses : Z;
  homework_hours : float;
  library_visits : Z;
  online_hours : float
}.

(** Lines 58-104: a passing student. *)
Definition passing_row (d : student) : list float :=
  [ py_max 5 (py_min (study_hours d) 50) / 50;
    py_max 0.5 (py_min (attendance d) 1);
    py_max 0.6 (py_min (assignment_avg d) 1);
    py_max 0.6 (py_min (midterm d) 1);
    py_max 0.5 (py_min (participation d) 1);
    (py_max 2 (py_min (prev_gpa d) 4) - 2) / 2;
    float_of_Z (num_courses d - 3) / 3;
    py_max 5 (py_min (homework_hours d) 30) / 30;
    py_min (float_of_Z (library_visits d) / 10) 1;
    py_max 0 (py_min (online_hours d) 15) / 15 ].

(** Lines 111-160: an at-risk student. *)
Definition at_risk_row (d : student) : list float :=
  [ py_max 0 (py_min (study_hours d) 20) / 50;
    py_max 0 (py_min (attendance d) 0.7);
    py_max 0 (py_min (assignment_avg d) 0.7);
    py_max 0 (py_min (midterm d) 0.6);
    py_max 0 (py_min (participation d) 0.6);
    (py_max 2 (py_min (prev_gpa d) 3.5) - 2) / 2;
    float_of_Z (num_courses d - 3) / 3;
    py_max 0 (py_min (homework_hours d) 20) / 30;
    py_min (float_of_Z (library_visits d) / 10) 1;
    py_max 0 (py_min (online_hours d) 15) / 15 ].

Definition generate_academic_data (n_samples : Z) (at_risk_ratio : float) :=
  generate passing_row at_risk_row n_samples at_risk_ratio.

(** *** generate_financial_data *)

Record transaction := {
  amount : float;
  hour : Z;
  day : Z;
  merchant_cat : float;
  freq : Z;
  avg_amount : float;
  distance : float;
  device : float;
  time_since_last : float;
  account_age : float
}.

(** Lines 58-106 and 114-155: the two loops compute a row from their draws
    in the same way. *)
Definition transaction_row (d : transaction) : list float :=
  let amount := py_min (amount d) 10000 in
  [ amount / 10000;
    float_of_Z (hour d) / 23;
    float_of_Z (day d) / 6;
    merchant_cat d;
    py_min (float_of_Z (freq d) / 10) 1;
    py_min (avg_amount d / 10000) 1;
    py_min (distance d / 100) 1;
    device d;
    py_min (amount / py_max (time_since_last d) 0.1 / 1000) 1;
    account_age d / 3650 ].

Definition generate_financial_data (n_samples : Z) (fraud_ratio : float) :=
  generate transaction_row transaction_row n_samples fraud_ratio.

(** Draws to run the generators on. *)
Definition a_student (x : float) : student :=
  {| study_hours := x; attendance := x; assignment_avg := x; midterm := x;
     participation := x; prev_gpa := x; num_courses := 4; homework_hours := x;
     library_visits := 2; online_hours := x |}.

End Generators.

(** ** ModelTraining/train_academic_model.py: the training data *)

Module AcademicTrainer.

Import Numpy Generators.
Open Scope float_scope.

(** [academic_features.csv] and [academic_labels.csv]: [None] for a file
    that does not exist, else the array read from it. *)
Record files := {
  academic_features : option matrix;
  academic_labels : option (list Z)
}.

(** Lines 49-57: [X], [y] and the two files afterwards. [pd.read_csv]
    raises on a file without rows. *)
Definition load_or_generate (fs : files) (first_draws second_draws : nat -> student)
    (permutation : nat -> list nat) : option (matrix * list Z * files) :=
  match academic_features fs, academic_labels fs with
  | Some X, Some y =>
      match X, y with
      | _ :: _, _ :: _ => Some (X, y, fs)
      | _, _ => None
      end
  | _, _ =>
      match generate_academic_data 3000 0.2 first_draws second_draws permutation with
      | Some (X, y) =>
          Some (X, y, {| academic_features := Some X; academic_labels := Some y |})
      | None => None
      end
  end.

End AcademicTrainer.

(** ** The score of the exported weights *)

Module Scoring.

(** [sum(features * weights)], the score the trainers' comment on the
    folding refers to (lines 181-187 of the healthcare trainer), over the
    rationals. *)
Definition weighted_sum (weights features : list Q) : Q :=
  fold_right Qplus 0%Q (map (fun p => (fst p * snd p)%Q) (combine features weights)).

(** [sum(features)]. *)
Definition total (features : list Q) : Q := fold_right Qplus 0%Q features.

End Scoring.

(* ================================================================== *)
(** * Part II: lemmas and theorems *)
(* ================================================================== *)

(** ** Order facts on binary64 values *)

Module FloatOrderFacts.

Import FloatOrder.

Lemma SFcompare_nan_l f : sf_is_nan f = true -> forall g, SFcompare f g = None.
Proof. destruct f; simpl; try discriminate; intros _ g; reflexivity. Qed.

Lemma SFcompare_nan_r g : sf_is_nan g = true -> forall f, SFcompare f g = None.
Proof. destruct g; simpl; try discriminate; intros _ f; destruct f; reflexivity. Qed.

Lemma SFcompare_key f g :
  sf_is_nan f = false -> sf_is_nan g = false ->
  SFcompare f g = Some (lex3 (sf_key f) (sf_key g)).
Proof.
  destruct f as [s1|s1| |s1 m1 e1], g as [s2|s2| |s2 m2 e2];
    simpl; try discriminate; intros _ _;
    try (destruct s1; reflexivity); try (destruct s2; reflexivity);
    try (destruct s1, s2; reflexivity).
  destruct s1, s2; unfold lex3; simpl; try reflexivity.
  all: try (rewrite Z.compare_opp;
            change (PosDef.Pos.compare_cont Eq m1 m2) with (Pos.compare m1 m2);
            destruct (Z.compare_spec e1 e2) as [E|E|E];
            [ subst; rewrite Z.compare_refl, <- Pos.compare_antisym; reflexivity
            | apply Z.compare_gt_iff in E; rewrite E; reflexivity
            | apply Z.compare_lt_iff in E; rewrite E; reflexivity ]).
  all: try (destruct (e1 ?= e2)%Z; reflexivity).
Qed.

Lemma lex3_le a b : lex3 a b <> Gt <-> key_le a b.
Proof.
  unfold lex3, key_le.
  destruct (Z.compare_spec (fst (fst a)) (fst (fst b)));
    destruct (Z.compare_spec (snd (fst a)) (snd (fst b)));
    destruct (Z.compare_spec (snd a) (snd b));
    split; intros; try congruence; try lia.
Qed.

Lemma lex3_lt a b : lex3 a b = Lt <-> key_lt a b.
Proof.
  unfold lex3, key_lt.
  destruct (Z.compare_spec (fst (fst a)) (fst (fst b)));
    destruct (Z.compare_spec (snd (fst a)) (snd (fst b)));
    destruct (Z.compare_spec (snd a) (snd b));
    split; intros; try congruence; try lia.
Qed.

Lemma lex3_eq a b : lex3 a b = Eq <-> (key_le a b /\ key_le b a).
Proof.
  unfold lex3, key_le.
  destruct (Z.compare_spec (fst (fst a)) (fst (fst b)));
    destruct (Z.compare_spec (snd (fst a)) (snd (fst b)));
    destruct (Z.compare_spec (snd a) (snd b));
    split; intros; try congruence; try lia.
Qed.

Open Scope float_scope.

Lemma is_nan_spec x : is_nan x = sf_is_nan (Prim2SF x).
Proof.
  unfold is_nan. rewrite FloatAxioms.eqb_spec. unfold SFeqb.
  destruct (sf_is_nan (Prim2SF x)) eqn:E.
  - rewrite (SFcompare_nan_l _ E). reflexivity.
  - rewrite (SFcompare_key _ _ E E).
    assert (H : lex3 (sf_key (Prim2SF x)) (sf_key (Prim2SF x)) = Eq).
    { apply lex3_eq. unfold key_le. lia. }
    rewrite H. reflexivity.
Qed.

(** [x <=? y] and [x <? y] on values, through their keys. *)
Lemma leb_key x y :
  (x <=? y) = true <->
  is_nan x = false /\ is_nan y = false /\
  key_le (sf_key (Prim2SF x)) (sf_key (Prim2SF y)).
Proof.
  rewrite FloatAxioms.leb_spec, !is_nan_spec. unfold SFleb.
  destruct (sf_is_nan (Prim2SF x)) eqn:Ex.
  { rewrite (SFcompare_nan_l _ Ex). split; [discriminate | intros [? _]; discriminate]. }
  destruct (sf_is_nan (Prim2SF y)) eqn:Ey.
  { rewrite (SFcompare_nan_r _ Ey). split; [discriminate | intros [_ [? _]]; discriminate]. }
  rewrite (SFcompare_key _ _ Ex Ey). rewrite <- lex3_le.
  destruct (lex3 _ _); split; intros; try discriminate; try congruence; auto;
    try (repeat split; auto; discriminate).
  destruct H as [_ [_ H]]. congruence.
Qed.

Lemma ltb_key x y :
  (x <? y) = true <->
  is_nan x = false /\ is_nan y = false /\
  key_lt (sf_key (Prim2SF x)) (sf_key (Prim2SF y)).
Proof.
  rewrite FloatAxioms.ltb_spec, !is_nan_spec. unfold SFltb.
  destruct (sf_is_nan (Prim2SF x)) eqn:Ex.
  { rewrite (SFcompare_nan_l _ Ex). split; [discriminate | intros [? _]; discriminate]. }
  destruct (sf_is_nan (Prim2SF y)) eqn:Ey.
  { rewrite (SFcompare_nan_r _ Ey). split; [discriminate | intros [_ [? _]]; discriminate]. }
  rewrite (SFcompare_key _ _ Ex Ey). rewrite <- lex3_lt.
  destruct (lex3 _ _); split; intros; try discriminate; auto;
    try (destruct H as [_ [_ H]]; discriminate).
Qed.

Lemma leb_refl x : is_nan x = false -> (x <=? x) = true.
Proof. intros H. apply leb_key. repeat split; auto. unfold key_le. lia. Qed.

Lemma leb_trans x y z : (x <=? y) = true -> (y <=? z) = true -> (x <=? z) = true.
Proof.
  rewrite !leb_key. unfold key_le. intros (Hx & Hy & H1) (_ & Hz & H2).
  repeat split; auto. lia.
Qed.

Lemma ltb_leb x y : (x <? y) = true -> (x <=? y) = true.
Proof.
  rewrite ltb_key, leb_key. unfold key_lt, key_le. intros (Hx & Hy & H).
  repeat split; auto. lia.
Qed.

Lemma ltb_false_leb x y :
  is_nan x = false -> is_nan y = false -> (x <? y) = false -> (y <=? x) = true.
Proof.
  intros Hx Hy H. apply leb_key. repeat split; auto.
  destruct (lex3 (sf_key (Prim2SF y)) (sf_key (Prim2SF x))) eqn:E.
  - apply lex3_le. congruence.
  - apply lex3_le. congruence.
  - exfalso. assert (K : (x <? y) = true); [|congruence].
    apply ltb_key. repeat split; auto.
    revert E. unfold lex3, key_lt.
    destruct (Z.compare_spec (fst (fst (sf_key (Prim2SF y)))) (fst (fst (sf_key (Prim2SF x)))));
      destruct (Z.compare_spec (snd (fst (sf_key (Prim2SF y)))) (snd (fst (sf_key (Prim2SF x)))));
      destruct (Z.compare_spec (snd (sf_key (Prim2SF y))) (snd (sf_key (Prim2SF x))));
      intros; try discriminate; lia.
Qed.

Lemma leb_ltb_false x y : (x <=? y) = true -> (y <? x) = false.
Proof.
  intros H. destruct (y <? x) eqn:E; auto.
  apply leb_key in H. apply ltb_key in E.
  unfold key_le, key_lt in *. destruct H as (_ & _ & H), E as (_ & _ & E). lia.
Qed.

Lemma ltb_not_nan x y : (x <? y) = true -> is_nan x = false /\ is_nan y = false.
Proof. rewrite ltb_key. tauto. Qed.

Lemma leb_not_nan x y : (x <=? y) = true -> is_nan x = false /\ is_nan y = false.
Proof. rewrite leb_key. tauto. Qed.

Lemma eqb_leb x y : (x =? y) = true <-> (x <=? y) = true /\ (y <=? x) = true.
Proof.
  rewrite !leb_key, FloatAxioms.eqb_spec. unfold SFeqb.
  destruct (sf_is_nan (Prim2SF x)) eqn:Ex.
  { rewrite (SFcompare_nan_l _ Ex). rewrite is_nan_spec, Ex.
    split; [discriminate | intros [[? _] _]; discriminate]. }
  destruct (sf_is_nan (Prim2SF y)) eqn:Ey.
  { rewrite (SFcompare_nan_r _ Ey). rewrite (is_nan_spec y), Ey.
    split; [discriminate | intros [[_ [? _]] _]; discriminate]. }
  rewrite (SFcompare_key _ _ Ex Ey), !is_nan_spec, Ex, Ey.
  pose proof (lex3_eq (sf_key (Prim2SF x)) (sf_key (Prim2SF y))) as K.
  destruct (lex3 _ _); split; intros H; try discriminate; auto.
  - destruct K as [K _]. specialize (K eq_refl). tauto.
  - destruct K as [_ K]. assert (Lt = Eq) by (apply K; tauto). discriminate.
  - destruct K as [_ K]. assert (Gt = Eq) by (apply K; tauto). discriminate.
Qed.

End FloatOrderFacts.

(** ** Sorting and [argsort] *)

Module NumpyFacts.

Import FloatOrder FloatOrderFacts Numpy.
Open Scope float_scope.

Section SortFacts.

Variable A : Type.
Variable lt : A -> A -> bool.
Let le (a b : A) : Prop := lt b a = false.

Hypothesis le_trans : forall a b c, le a b -> le b c -> le a c.
Hypothesis lt_le : forall a b, lt a b = true -> le a b.

Lemma insert_sorted_perm x l : Permutation (x :: l) (insert_sorted lt x l).
Proof.
  induction l as [|y l IH]; simpl; auto.
  destruct (lt y x); auto.
  rewrite perm_swap. constructor. exact IH.
Qed.

Lemma sort_by_perm l : Permutation l (sort_by lt l).
Proof.
  induction l as [|x l IH]; simpl; auto.
  rewrite <- insert_sorted_perm. constructor. exact IH.
Qed.

Lemma insert_sorted_sorted x l :
  StronglySorted le l -> StronglySorted le (insert_sorted lt x l).
Proof.
  induction 1 as [|y l Hs IH Hall]; simpl.
  - repeat constructor.
  - destruct (lt y x) eqn:E.
    + constructor; auto.
      rewrite Forall_forall. intros z Hz.
      apply (Permutation_in _ (Permutation_sym (insert_sorted_perm x l))) in Hz.
      destruct Hz as [<- | Hz].
      * apply lt_le. exact E.
      * rewrite Forall_forall in Hall. auto.
    + constructor.
      * constructor; auto.
      * constructor; [exact E|].
        rewrite Forall_forall in *. intros z Hz.
        apply le_trans with y; auto.
Qed.

Lemma sort_by_sorted l : StronglySorted le (sort_by lt l).
Proof.
  induction l; simpl; [constructor | apply insert_sorted_sorted; assumption].
Qed.

End SortFacts.

(** *** numpy's order is a total preorder with NaN on top *)

Lemma np_le_spec a b :
  np_le a b = true <-> is_nan b = true \/ (a <=? b) = true.
Proof.
  unfold np_le, np_lt. destruct (is_nan b) eqn:Eb.
  - assert (H : (b <? a) = false).
    { destruct (b <? a) eqn:E; auto. apply ltb_not_nan in E. destruct E; congruence. }
    rewrite H. simpl. rewrite andb_false_r. simpl. tauto.
  - destruct (is_nan a) eqn:Ea; simpl.
    + rewrite orb_true_r. simpl. split; [discriminate|].
      intros [H|H]; [discriminate|]. apply leb_not_nan in H. destruct H; congruence.
    + rewrite orb_false_r. split.
      * intros H. right. apply ltb_false_leb; auto.
        destruct (b <? a); [discriminate | reflexivity].
      * intros [H|H]; [discriminate|]. apply leb_ltb_false in H. rewrite H. reflexivity.
Qed.

Lemma np_le_trans a b c : np_le a b = true -> np_le b c = true -> np_le a c = true.
Proof.
  rewrite !np_le_spec. intros [Hb|Hab] [Hc|Hbc]; auto.
  - apply leb_not_nan in Hbc. destruct Hbc; congruence.
  - right. apply leb_trans with b; auto.
Qed.

Lemma np_lt_le a b : np_lt a b = true -> np_le a b = true.
Proof.
  intros H. apply np_le_spec. unfold np_lt in H.
  apply orb_true_iff in H. destruct H as [H|H].
  - right. apply ltb_leb. exact H.
  - left. apply andb_true_iff in H. tauto.
Qed.

Lemma np_le_nan_l a b : is_nan a = true -> is_nan b = false -> np_le a b = false.
Proof.
  intros Ha Hb. destruct (np_le a b) eqn:E; auto.
  apply np_le_spec in E. destruct E as [E|E]; [congruence|].
  apply leb_not_nan in E. destruct E; congruence.
Qed.

(** *** What [argsort] returns *)

Lemma sorted_app_inv (A : Type) (R : A -> A -> Prop) (l1 l2 : list A) :
  StronglySorted R (l1 ++ l2) ->
  forall a b, In a l1 -> In b l2 -> R a b.
Proof.
  induction l1 as [|x l1 IH]; simpl; intros Hs a b Ha Hb; [contradiction|].
  apply StronglySorted_inv in Hs. destruct Hs as [Hs Hall].
  destruct Ha as [-> | Ha].
  - rewrite Forall_forall in Hall. apply Hall. apply in_or_app. auto.
  - apply IH; auto.
Qed.

Lemma nth_in_firstn (A : Type) (l : list A) d i k :
  i < k -> i < length l -> In (nth i l d) (firstn k l).
Proof.
  revert i k. induction l as [|x l IH]; simpl; intros i k Hik Hi; [lia|].
  destruct k as [|k]; [lia|]. destruct i as [|i]; simpl; auto.
  right. apply IH; lia.
Qed.

Lemma nth_in_skipn (A : Type) (l : list A) d j k :
  k <= j -> j < length l -> In (nth j l d) (skipn k l).
Proof.
  revert j k. induction l as [|x l IH]; simpl; intros j k Hkj Hj; [lia|].
  destruct k as [|k]; simpl.
  - destruct j as [|j]; auto. right. apply nth_In. lia.
  - destruct j as [|j]; [lia|]. apply IH; lia.
Qed.

Lemma argsort_perm scores :
  Permutation (seq 0 (length scores)) (argsort scores).
Proof. apply sort_by_perm. Qed.

Lemma argsort_length scores : length (argsort scores) = length scores.
Proof.
  rewrite <- (Permutation_length (argsort_perm scores)). apply length_seq.
Qed.

Lemma argsort_sorted scores : StronglySorted (score_le scores) (argsort scores).
Proof.
  unfold argsort, score_le.
  pose proof (@sort_by_sorted nat
                (fun i j => np_lt (nth i scores nan) (nth j scores nan))) as H.
  assert (Hiff : forall a b : float, np_lt b a = false <-> np_le a b = true).
  { intros a b. unfold np_le. destruct (np_lt b a); simpl; split; congruence. }
  eapply StronglySorted_ind with
    (P := fun l => StronglySorted
                     (fun i j => np_le (nth i scores nan) (nth j scores nan) = true) l);
    [constructor | | apply H].
  - intros a l _ IH Hall. constructor; auto.
    rewrite Forall_forall in *. intros x Hx. apply Hiff. apply Hall. exact Hx.
  - intros a b c Hab Hbc. apply Hiff. apply Hiff in Hab. apply Hiff in Hbc.
    apply np_le_trans with (nth b scores nan); auto.
  - intros a b Hab. apply Hiff. apply np_lt_le. exact Hab.
Qed.

(** Everything dropped by [inds[k:]] ranks no higher than anything kept. *)
Lemma argsort_split scores k d r :
  In d (firstn k (argsort scores)) -> In r (skipn k (argsort scores)) ->
  score_le scores d r.
Proof.
  intros Hd Hr.
  apply (@sorted_app_inv _ (score_le scores) (firstn k (argsort scores))
                         (skipn k (argsort scores))); auto.
  rewrite firstn_skipn. apply argsort_sorted.
Qed.

Lemma argsort_ascending scores i j :
  i < j -> j < length scores ->
  score_le scores (nth i (argsort scores) 0%nat) (nth j (argsort scores) 0%nat).
Proof.
  intros Hij Hj. apply argsort_split with (k := S i).
  - apply nth_in_firstn; [lia | rewrite argsort_length; lia].
  - apply nth_in_skipn; [lia | rewrite argsort_length; lia].
Qed.

End NumpyFacts.

(** ** The search of compareModels.py *)

Module CompareModelsFacts.

Import FloatOrder FloatOrderFacts Numpy NumpyFacts CompareModels.
Open Scope string_scope.
Open Scope float_scope.

(** *** Reasoning about statements *)

Lemma keeps_bind {A B} I (m : M A) (f : A -> M B) :
  keeps I m -> (forall a, keeps I (f a)) -> keeps I (bind m f).
Proof.
  intros Hm Hf st HI. unfold bind. specialize (Hm st HI).
  destruct (m st) as [a st'|st']; simpl in *; auto.
  apply Hf. exact Hm.
Qed.

Lemma keeps_ret {A} I (a : A) : keeps I (ret a).
Proof. intros st HI. exact HI. Qed.

Lemma keeps_call {A} I (o : option A) : keeps I (call o).
Proof. intros st HI. unfold call. destruct o; exact HI. Qed.

Lemma keeps_for_each {A} I (l : list A) body :
  (forall x, keeps I (body x)) -> keeps I (for_each l body).
Proof.
  intros Hb. induction l as [|x l IH]; simpl.
  - apply keeps_ret.
  - apply keeps_bind; auto.
Qed.

Lemma logs_bind {A B} cs1 cs2 (m : M A) (f : A -> M B) :
  logs cs1 m -> (forall a, logs cs2 (f a)) -> logs (cs1 ++ cs2) (bind m f).
Proof.
  intros Hm Hf st. unfold bind. specialize (Hm st).
  destruct (m st) as [a st'|st']; auto.
  specialize (Hf a st'). destruct (f a st') as [b st''|st'']; auto.
  rewrite Hf, Hm, app_assoc. reflexivity.
Qed.

Lemma logs_ret {A} (a : A) : logs [] (ret a).
Proof. intros st. simpl. rewrite app_nil_r. reflexivity. Qed.

Lemma logs_call {A} (o : option A) : logs [] (call o).
Proof. intros st. unfold call. destruct o; auto. rewrite app_nil_r. reflexivity. Qed.

Lemma logs_fp_write s : logs [] (fp_write s).
Proof. intros st. simpl. rewrite app_nil_r. reflexivity. Qed.

Lemma logs_for_each {A} (g : A -> list config) (l : list A) body :
  (forall x, logs (g x) (body x)) -> logs (flat_map g l) (for_each l body).
Proof.
  intros Hb. induction l as [|x l IH]; simpl.
  - apply logs_ret.
  - apply logs_bind; auto.
Qed.

Lemma logs_for_each_nil {A} (l : list A) body :
  (forall x, logs [] (body x)) -> logs [] (for_each l body).
Proof.
  intros Hb. induction l as [|x l IH]; simpl.
  - apply logs_ret.
  - apply (logs_bind (cs1 := []) (cs2 := [])); auto.
Qed.

Lemma keeps_fp_write s : keeps best_is_fold (fp_write s).
Proof. intros st HI. exact HI. Qed.

Lemma best_after_snoc l e : best_after (l ++ [e]) = fold_in (best_after l) e.
Proof. unfold best_after. rewrite fold_left_app. reflexivity. Qed.

Lemma keeps_record_update c GS :
  keeps best_is_fold (record_entry c GS ;; update_best c GS).
Proof.
  intros st HI. unfold bind, record_entry, update_best, best_is_fold in *. simpl.
  destruct (max_score st <? best_score_ GS) eqn:E; simpl;
    rewrite best_after_snoc, <- HI; unfold fold_in, score; simpl; rewrite E;
    reflexivity.
Qed.

Lemma logs_record_update c GS :
  logs [c] (record_entry c GS ;; update_best c GS).
Proof.
  intros st. unfold bind, record_entry, update_best. simpl.
  destruct (max_score st <? best_score_ GS); simpl; rewrite map_app; reflexivity.
Qed.

(** *** The fold on its own *)

Lemma fold_in_cases b e :
  ((fst b <? score e) = true /\ fold_in b e = (score e, winner_text e)) \/
  ((fst b <? score e) = false /\ fold_in b e = b).
Proof.
  unfold fold_in, winner_text. destruct (fst b <? score e); auto.
Qed.

Lemma fold_in_not_nan b e :
  is_nan (fst b) = false -> is_nan (fst (fold_in b e)) = false.
Proof.
  intros Hb. destruct (fold_in_cases b e) as [[H ->]|[_ ->]]; auto.
  simpl. apply ltb_not_nan in H. tauto.
Qed.

Lemma fold_in_grows b e :
  is_nan (fst b) = false -> (fst b <=? fst (fold_in b e)) = true.
Proof.
  intros Hb. destruct (fold_in_cases b e) as [[H ->]|[_ ->]]; simpl.
  - apply ltb_leb. exact H.
  - apply leb_refl. exact Hb.
Qed.

Lemma fold_left_not_nan l b :
  is_nan (fst b) = false -> is_nan (fst (fold_left fold_in l b)) = false.
Proof.
  revert b. induction l as [|e l IH]; simpl; intros b Hb; auto.
  apply IH. apply fold_in_not_nan. exact Hb.
Qed.

Lemma fold_left_grows l b :
  is_nan (fst b) = false -> (fst b <=? fst (fold_left fold_in l b)) = true.
Proof.
  revert b. induction l as [|e l IH]; simpl; intros b Hb.
  - apply leb_refl. exact Hb.
  - apply leb_trans with (fst (fold_in b e)).
    + apply fold_in_grows. exact Hb.
    + apply IH. apply fold_in_not_nan. exact Hb.
Qed.

Lemma fold_left_bounds l b e :
  is_nan (fst b) = false -> In e l -> is_nan (score e) = false ->
  (score e <=? fst (fold_left fold_in l b)) = true.
Proof.
  revert b. induction l as [|x l IH]; simpl; intros b Hb Hin He; [contradiction|].
  destruct Hin as [-> | Hin].
  - apply leb_trans with (fst (fold_in b e)).
    + destruct (fold_in_cases b e) as [[H ->]|[H ->]]; simpl.
      * apply leb_refl. exact He.
      * apply ltb_false_leb; auto.
    + apply fold_left_grows. apply fold_in_not_nan. exact Hb.
  - apply IH; auto. apply fold_in_not_nan. exact Hb.
Qed.

Lemma fold_left_attained l b :
  fold_left fold_in l b = b \/
  exists e, In e l /\ fold_left fold_in l b = (score e, winner_text e).
Proof.
  revert b. induction l as [|x l IH]; simpl; intros b; auto.
  destruct (IH (fold_in b x)) as [H | [e [Hin H]]].
  - rewrite H. destruct (fold_in_cases b x) as [[_ ->]|[_ ->]]; eauto.
  - right. exists e. auto.
Qed.

(** An entry whose score the best score already reaches changes nothing. *)
Lemma fold_in_no_gain b e :
  (score e <=? fst b) = true -> fold_in b e = b.
Proof.
  intros H. destruct (fold_in_cases b e) as [[K _]|[_ ->]]; auto.
  apply leb_ltb_false in H. congruence.
Qed.

Lemma best_after_not_nan l : is_nan (fst (best_after l)) = false.
Proof. apply fold_left_not_nan. reflexivity. Qed.

Lemma best_after_app l1 l2 :
  best_after (l1 ++ l2) = fold_left fold_in l2 (best_after l1).
Proof. unfold best_after. apply fold_left_app. Qed.


(** A later entry that only equals an earlier one is not folded in. *)
Lemma best_after_tie l1 e1 l2 e2 :
  (score e1 =? score e2) = true ->
  best_after (l1 ++ e1 :: l2 ++ [e2]) = best_after (l1 ++ e1 :: l2).
Proof.
  intros Heq. apply eqb_leb in Heq. destruct Heq as [H12 H21].
  replace (l1 ++ e1 :: l2 ++ [e2])%list with ((l1 ++ e1 :: l2) ++ [e2])%list
    by (rewrite <- app_assoc; reflexivity).
  rewrite best_after_snoc. apply fold_in_no_gain.
  apply leb_trans with (score e1); [exact H21|].
  rewrite best_after_app.
  apply fold_left_bounds.
  - apply best_after_not_nan.
  - left. reflexivity.
  - apply leb_not_nan in H12. tauto.
Qed.

(** The fold ends on its start value, or on the first entry that reaches
    the highest score: no entry before it has a score as high. *)
Lemma best_after_first_max l :
  best_after l = (0, "") \/
  exists l1 e l2,
    l = (l1 ++ e :: l2)%list /\
    best_after l = (score e, winner_text e) /\
    (forall e', In e' l1 -> (score e <=? score e') = false).
Proof.
  induction l as [|x l IH] using rev_ind; [left; reflexivity|].
  rewrite best_after_snoc.
  destruct (fold_in_cases (best_after l) x) as [[H ->]|[H ->]].
  - right. exists l, x, []. repeat split; auto.
    intros e' Hin. destruct (score x <=? score e') eqn:E; auto.
    exfalso.
    assert (K : (score x <=? fst (best_after l)) = true).
    { apply leb_trans with (score e'); auto.
      apply fold_left_bounds; auto. apply leb_not_nan in E. tauto. }
    apply leb_ltb_false in K. congruence.
  - destruct IH as [IH | (l1 & e & l2 & -> & Hb & Hfirst)]; auto.
    right. exists l1, e, (l2 ++ [x])%list. repeat split; auto.
    rewrite <- app_assoc. reflexivity.
Qed.

(** Without a score above 0.0 the fold stays on its start value. *)
Lemma best_after_no_positive l :
  (forall e, In e l -> (0 <? score e) = false) -> best_after l = (0, "").
Proof.
  induction l as [|x l IH] using rev_ind; intros H; [reflexivity|].
  rewrite best_after_snoc, IH.
  - unfold fold_in. simpl. rewrite H; auto. apply in_or_app. right. left. reflexivity.
  - intros e Hin. apply H. apply in_or_app. auto.
Qed.

Section ScriptFacts.

Variable mutual_info_classif : matrix -> labels -> list bool -> option (list float).
Variable chi2 : matrix -> labels -> option (list float).
Variable MinMaxScaler_fit_transform : matrix -> matrix.
Variable StandardScaler_fit_transform : matrix -> matrix.
Variable np_log : matrix -> matrix.
Variable np_log1p : matrix -> matrix.
Variable GridSearchCV_fit : estimator -> param_grid -> matrix -> labels -> option GSResult.
Variable format_16f : float -> string.
Variable str_float : float -> string.
Variable X_all : matrix.
Variable Y : labels.

Let run : result unit :=
  main mutual_info_classif chi2 MinMaxScaler_fit_transform
       StandardScaler_fit_transform np_log np_log1p GridSearchCV_fit
       format_16f str_float X_all Y.

Lemma keeps_report_and_update c clf X_selected :
  keeps best_is_fold (report_and_update GridSearchCV_fit format_16f Y c clf X_selected).
Proof.
  unfold report_and_update.
  apply keeps_bind; [apply keeps_call|]. intros GS.
  apply keeps_bind; [apply keeps_fp_write|]. intros _.
  apply keeps_bind; [apply keeps_for_each; intros; apply keeps_fp_write|]. intros _.
  apply keeps_bind; [apply keeps_fp_write|]. intros _.
  apply keeps_record_update.
Qed.

Lemma logs_report_and_update c clf X_selected :
  logs [c] (report_and_update GridSearchCV_fit format_16f Y c clf X_selected).
Proof.
  unfold report_and_update.
  apply (logs_bind (cs1 := []) (cs2 := [c])); [apply logs_call|]. intros GS.
  apply (logs_bind (cs1 := []) (cs2 := [c])); [apply logs_fp_write|]. intros _.
  apply (logs_bind (cs1 := []) (cs2 := [c]));
    [apply logs_for_each_nil; intros; apply logs_fp_write|]. intros _.
  apply (logs_bind (cs1 := []) (cs2 := [c])); [apply logs_fp_write|]. intros _.
  apply logs_record_update.
Qed.

Lemma logs_eq {A} cs cs' (m : M A) : cs = cs' -> logs cs m -> logs cs' m.
Proof. intros <-. auto. Qed.

Lemma keeps_reduced_pass chi_inds mi_inds :
  keeps best_is_fold
    (reduced_pass MinMaxScaler_fit_transform StandardScaler_fit_transform
       np_log np_log1p GridSearchCV_fit format_16f X_all Y chi_inds mi_inds).
Proof.
  unfold reduced_pass. apply keeps_for_each. intros nc.
  apply keeps_bind; [apply keeps_fp_write|]. intros _.
  apply keeps_bind; [|intros; apply keeps_fp_write].
  apply keeps_for_each. intros j.
  apply keeps_bind; [apply keeps_fp_write|]. intros _.
  apply keeps_for_each. intros n_feat.
  apply keeps_bind; [apply keeps_fp_write|]. intros _.
  apply keeps_bind; [apply keeps_report_and_update|]. intros _.
  apply keeps_bind; [apply keeps_fp_write|]. intros _.
  apply keeps_report_and_update.
Qed.

Lemma keeps_all_features_pass :
  keeps best_is_fold
    (all_features_pass MinMaxScaler_fit_transform StandardScaler_fit_transform
       np_log np_log1p GridSearchCV_fit format_16f X_all Y).
Proof.
  unfold all_features_pass.
  apply keeps_bind; [apply keeps_fp_write|]. intros _.
  apply keeps_for_each. intros nc.
  apply keeps_bind; [apply keeps_fp_write|]. intros _.
  apply keeps_for_each. intros j.
  apply keeps_bind; [apply keeps_fp_write|]. intros _.
  apply keeps_report_and_update.
Qed.

Lemma keeps_write_summary : keeps best_is_fold (write_summary str_float).
Proof. intros st HI. exact HI. Qed.

Lemma logs_reduced_pass chi_inds mi_inds :
  logs reduced_configs
    (reduced_pass MinMaxScaler_fit_transform StandardScaler_fit_transform
       np_log np_log1p GridSearchCV_fit format_16f X_all Y chi_inds mi_inds).
Proof.
  unfold reduced_pass.
  apply logs_eq with
    (flat_map (fun nc : nat * estimator =>
                 ([] ++ flat_map (pair_configs (fst nc)) (seq 0 5) ++ [])%list)
              (enumerate classifiers)); [reflexivity|].
  apply logs_for_each. intros nc.
  apply logs_bind; [apply logs_fp_write|]. intros _.
  apply logs_bind; [|intros; apply logs_fp_write].
  apply logs_eq with (flat_map (fun j => ([] ++ pair_configs (fst nc) j)%list) (seq 0 5));
    [reflexivity|].
  apply logs_for_each. intros j.
  apply logs_bind; [apply logs_fp_write|]. intros _.
  unfold pair_configs. apply logs_for_each. intros n_feat.
  apply (logs_bind (cs1 := []) (cs2 := [_; _])); [apply logs_fp_write|]. intros _.
  apply (logs_bind (cs1 := [_]) (cs2 := [_])); [apply logs_report_and_update|]. intros _.
  apply (logs_bind (cs1 := []) (cs2 := [_])); [apply logs_fp_write|]. intros _.
  apply logs_report_and_update.
Qed.

Lemma logs_all_features_pass :
  logs all_features_configs
    (all_features_pass MinMaxScaler_fit_transform StandardScaler_fit_transform
       np_log np_log1p GridSearchCV_fit format_16f X_all Y).
Proof.
  unfold all_features_pass.
  apply (logs_bind (cs1 := [])); [apply logs_fp_write|]. intros _.
  apply logs_eq with
    (flat_map (fun nc : nat * estimator =>
                 ([] ++ flat_map (fun j => ([] ++ [ {| n_clf := fst nc; n_trans := j;
                                                   sel := All_features |} ])%list)
                                 (seq 0 5))%list)
              (enumerate classifiers)); [reflexivity|].
  apply logs_for_each. intros nc.
  apply logs_bind; [apply logs_fp_write|]. intros _.
  apply logs_for_each. intros j.
  apply logs_bind; [apply logs_fp_write|]. intros _.
  apply logs_report_and_update.
Qed.

Lemma logs_write_summary : logs [] (write_summary str_float).
Proof. intros st. simpl. rewrite app_nil_r. reflexivity. Qed.

(** The best result of any run, complete or cut short by an exception, is
    the fold of the entries it logged. *)
Lemma main_best_is_fold : best_is_fold (final_state run).
Proof.
  unfold run, main.
  destruct (mutual_info_classif X_all Y (disMask X_all)) as [mi_scores|];
    [|reflexivity].
  destruct (chi2 X_all Y) as [chi_scores|]; [|reflexivity].
  assert (K : keeps best_is_fold
                (reduced_pass MinMaxScaler_fit_transform StandardScaler_fit_transform
                   np_log np_log1p GridSearchCV_fit format_16f X_all Y
                   (argsort chi_scores) (argsort mi_scores) ;;
                 all_features_pass MinMaxScaler_fit_transform
                   StandardScaler_fit_transform np_log np_log1p GridSearchCV_fit
                   format_16f X_all Y ;;
                 write_summary str_float)).
  { apply keeps_bind; [apply keeps_reduced_pass|]. intros _.
    apply keeps_bind; [apply keeps_all_features_pass|]. intros _.
    apply keeps_write_summary. }
  apply K. reflexivity.
Qed.

(** A run that reaches its end has evaluated the reduced-feature
    configurations, then the all-features ones. *)
Lemma main_log :
  finished run = true ->
  map fst (log (final_state run)) = (reduced_configs ++ all_features_configs)%list.
Proof.
  unfold run, main.
  destruct (mutual_info_classif X_all Y (disMask X_all)) as [mi_scores|];
    [|discriminate].
  destruct (chi2 X_all Y) as [chi_scores|]; [|discriminate].
  assert (K : logs (reduced_configs ++ all_features_configs ++ [])
                (reduced_pass MinMaxScaler_fit_transform StandardScaler_fit_transform
                   np_log np_log1p GridSearchCV_fit format_16f X_all Y
                   (argsort chi_scores) (argsort mi_scores) ;;
                 all_features_pass MinMaxScaler_fit_transform
                   StandardScaler_fit_transform np_log np_log1p GridSearchCV_fit
                   format_16f X_all Y ;;
                 write_summary str_float)).
  { apply logs_bind; [apply logs_reduced_pass|]. intros _.
    apply logs_bind; [apply logs_all_features_pass|]. intros _.
    apply logs_write_summary. }
  specialize (K initial_state).
  match goal with |- finished ?r = true -> _ => destruct r as [u st|st] end;
    [intros _|discriminate].
  unfold final_state. rewrite K.
  change (map fst (log initial_state)) with (@nil config).
  rewrite app_nil_r. reflexivity.
Qed.

End ScriptFacts.

(** *** The best result and the order of the search *)

Section SearchFacts.

Variable mutual_info_classif : matrix -> labels -> list bool -> option (list float).
Variable chi2 : matrix -> labels -> option (list float).
Variable MinMaxScaler_fit_transform : matrix -> matrix.
Variable StandardScaler_fit_transform : matrix -> matrix.
Variable np_log : matrix -> matrix.
Variable np_log1p : matrix -> matrix.
Variable GridSearchCV_fit : estimator -> param_grid -> matrix -> labels -> option GSResult.
Variable format_16f : float -> string.
Variable str_float : float -> string.
Variable X_all : matrix.
Variable Y : labels.

Let run : result unit :=
  main mutual_info_classif chi2 MinMaxScaler_fit_transform
       StandardScaler_fit_transform np_log np_log1p GridSearchCV_fit
       format_16f str_float X_all Y.

(** C1. In every run, [update_best] replaces the best score and the winner
    text only when the configuration's score is strictly greater than the
    current best score, and leaves them as they are when the score equals it.
    Over the whole run the best result is the fold of the logged entries, a
    later entry with the score of an earlier one replaces nothing, and the
    winner is the first entry that reaches the highest score. *)
Theorem best_replaced_only_by_strictly_greater :
  (forall c GS st,
      final_state (update_best c GS st) <> st ->
      (max_score st <? best_score_ GS) = true) /\
  (forall c GS st,
      (best_score_ GS =? max_score st) = true ->
      update_best c GS st = Ok tt st) /\
  best_is_fold (final_state run) /\
  (forall l1 e1 l2 e2 l3,
      log (final_state run) = (l1 ++ e1 :: l2 ++ e2 :: l3)%list ->
      (score e1 =? score e2) = true ->
      best_after (l1 ++ e1 :: l2 ++ [e2]) = best_after (l1 ++ e1 :: l2)) /\
  ((max_score (final_state run), winnerString (final_state run)) = (0, "") \/
   exists l1 e l2,
     log (final_state run) = (l1 ++ e :: l2)%list /\
     max_score (final_state run) = score e /\
     winnerString (final_state run) = winner_text e /\
     forall e', In e' l1 -> (score e <=? score e') = false).
Proof.
  pose proof (main_best_is_fold mutual_info_classif chi2 MinMaxScaler_fit_transform
                StandardScaler_fit_transform np_log np_log1p GridSearchCV_fit
                format_16f str_float X_all Y) as Hfold.
  fold run in Hfold.
  split; [|split; [|split; [|split]]].
  - intros c GS st H. unfold update_best in H.
    destruct (max_score st <? best_score_ GS); [reflexivity|].
    exfalso. apply H. reflexivity.
  - intros c GS st H. unfold update_best.
    apply eqb_leb in H. destruct H as [H _].
    apply leb_ltb_false in H. rewrite H. reflexivity.
  - exact Hfold.
  - intros l1 e1 l2 e2 l3 _ Heq. apply best_after_tie. exact Heq.
  - unfold best_is_fold in Hfold. rewrite Hfold.
    destruct (best_after_first_max (log (final_state run)))
      as [H | (l1 & e & l2 & Hl & Hb & Hfirst)]; [left; exact H|].
    right. exists l1, e, l2. rewrite Hb in Hfold.
    injection Hfold as Hm Hw. auto.
Qed.


(** C3, as the code has it. A run that reaches its end has evaluated, in this
    order: for each model family, for each transform, for each number of
    removed features in 2500, 3500, 4500, the chi-squared and then the
    mutual-information configuration; and only after all of these, in a
    second pass, for each model family and each transform the all-features
    configuration. *)
Theorem search_order :
  finished run = true ->
  map fst (log (final_state run)) = (reduced_configs ++ all_features_configs)%list /\
  (forall i j f, (i < 4)%nat -> (j < 5)%nat -> (f < 3)%nat ->
      nth_error (map fst (log (final_state run))) (30 * i + 6 * j + 2 * f) =
        Some {| n_clf := i; n_trans := j;
                sel := Chi_feat (nth f [2500; 3500; 4500]%nat 0%nat) |} /\
      nth_error (map fst (log (final_state run))) (30 * i + 6 * j + 2 * f + 1) =
        Some {| n_clf := i; n_trans := j;
                sel := MI_feat (nth f [2500; 3500; 4500]%nat 0%nat) |}) /\
  (forall i j, (i < 4)%nat -> (j < 5)%nat ->
      nth_error (map fst (log (final_state run))) (120 + 5 * i + j) =
        Some {| n_clf := i; n_trans := j; sel := All_features |}) /\
  length (log (final_state run)) = 140%nat.
Proof.
  intros Hfin.
  pose proof (main_log mutual_info_classif chi2 MinMaxScaler_fit_transform
                StandardScaler_fit_transform np_log np_log1p GridSearchCV_fit
                format_16f str_float X_all Y Hfin) as Hlog.
  fold run in Hlog.
  split; [exact Hlog|]. split; [|split].
  - intros i j f Hi Hj Hf. rewrite Hlog.
    destruct i as [|[|[|[|i]]]]; [| | | |lia];
      (destruct j as [|[|[|[|[|j]]]]]; [| | | | |lia]);
      (destruct f as [|[|[|f]]]; [| | |lia]); split; reflexivity.
  - intros i j Hi Hj. rewrite Hlog.
    destruct i as [|[|[|[|i]]]]; [| | | |lia];
      (destruct j as [|[|[|[|[|j]]]]]; [| | | | |lia]); reflexivity.
  - rewrite <- (length_map fst), Hlog. reflexivity.
Qed.

End SearchFacts.

Lemma sample_run_finished : finished sample_run = true.
Proof. vm_compute. reflexivity. Qed.




Lemma search_order_witness :
  length (log (final_state sample_run)) = 140%nat.
Proof.
  exact (proj2 (proj2 (proj2
    (@search_order Sample.mi Sample.chi notrans notrans notrans notrans
       Sample.fit Sample.show Sample.show Sample.X Sample.Y
       sample_run_finished)))).
Defined.

(** C3 as the specification states it fails: the specification's order puts
    the all-features configuration of the first (model family, transform) pair
    seventh; the run evaluates the first reduced-feature configuration of the
    next transform there, and the pair's all-features configuration 121st. *)
Lemma search_order_is_not_interleaved :
  finished sample_run = true /\
  map fst (log (final_state sample_run)) <> spec_enumeration /\
  nth_error spec_enumeration 6 =
    Some {| n_clf := 0; n_trans := 0; sel := All_features |} /\
  nth_error (map fst (log (final_state sample_run))) 6 =
    Some {| n_clf := 0; n_trans := 1; sel := Chi_feat 2500 |} /\
  nth_error (map fst (log (final_state sample_run))) 120 =
    Some {| n_clf := 0; n_trans := 0; sel := All_features |}.
Proof.
  split; [exact sample_run_finished|].
  split; [|split; [reflexivity|split; vm_compute; reflexivity]].
  intros H. apply (f_equal (fun l => nth_error l 6)) in H.
  vm_compute in H. discriminate H.
Qed.

(** *** The rankings *)

Lemma nth_map_seq (A : Type) (F : nat -> A) n j d :
  (j < n)%nat -> nth j (map F (seq 0 n)) d = F j.
Proof.
  intros Hj. rewrite nth_indep with (d' := F 0%nat) by (rewrite length_map, length_seq; lia).
  rewrite map_nth, seq_nth by lia. reflexivity.
Qed.

Lemma mul_zero_r p : p * 0 = 0 \/ p * 0 = -0 \/ p * 0 = nan.
Proof.
  pose proof (mul_spec p 0) as H.
  rewrite <- (SF2Prim_Prim2SF (p * 0)). rewrite H.
  change (Prim2SF 0) with (S754_zero false).
  destruct (Prim2SF p) as [sg|sg| |sg m e]; simpl; try destruct sg; auto.
Qed.

Lemma chisquare_term_zero p : Sklearn.chisquare_term 0 (p * 0) = nan.
Proof. destruct (mul_zero_r p) as [-> | [-> | ->]]; reflexivity. Qed.

Lemma fsum_zeros l : Forall (fun x => x = 0) l -> Sklearn.fsum l = 0.
Proof.
  unfold Sklearn.fsum. induction 1 as [|x l Hx _ IH]; simpl; auto.
  subst x. exact IH.
Qed.

Lemma dot_zeros u v :
  Forall (fun x => x = 0 \/ x = 1) u -> Forall (fun x => x = 0) v ->
  Sklearn.dot u v = 0.
Proof.
  intros Hu Hv. unfold Sklearn.dot. apply fsum_zeros.
  revert v Hv. induction Hu as [|a u Ha _ IH]; intros v Hv; simpl; [constructor|].
  destruct Hv as [|b v Hb Hv]; simpl; constructor; auto.
  subst b. destruct Ha as [-> | ->]; reflexivity.
Qed.

Lemma indicator_values (f : bool -> bool) y :
  Forall (fun x => x = 0 \/ x = 1) (map (fun b => Sklearn.indicator (f b)) y).
Proof.
  apply Forall_forall. intros x Hx. apply in_map_iff in Hx.
  destruct Hx as (b & <- & _). destruct (f b); simpl; auto.
Qed.

Lemma zero_column X j :
  Forall (fun row => nth j row nan = 0) X -> Forall (fun x => x = 0) (column X j).
Proof.
  intros H. unfold column. apply Forall_forall. intros x Hx.
  apply in_map_iff in Hx. destruct Hx as (row & <- & Hrow).
  rewrite Forall_forall in H. auto.
Qed.

Lemma class_terms_zero_column X y Yk j :
  (j < ncols X)%nat ->
  Forall (fun row => nth j row nan = 0) X ->
  Forall (fun x => x = 0 \/ x = 1) Yk ->
  nth j (Sklearn.class_terms X y Yk) nan = nan.
Proof.
  intros Hj Hcol HY. unfold Sklearn.class_terms.
  set (obs := map (fun j => Sklearn.dot Yk (column X j)) (seq 0 (ncols X))).
  set (p := Sklearn.fsum Yk / float_of_nat (length y)).
  set (expd := map (fun c => p * c)
                   (map (fun j => Sklearn.fsum (column X j)) (seq 0 (ncols X)))).
  assert (Lo : length obs = ncols X) by (unfold obs; rewrite length_map, length_seq; reflexivity).
  assert (Le : length expd = ncols X)
    by (unfold expd; rewrite !length_map, length_seq; reflexivity).
  set (term := fun oe : float * float => Sklearn.chisquare_term (fst oe) (snd oe)).
  rewrite nth_indep with (d' := term (0, 0))
    by (rewrite length_map, length_combine; lia).
  rewrite map_nth, combine_nth by lia. unfold term. simpl fst; simpl snd.
  unfold obs, expd. rewrite map_map, !nth_map_seq by lia.
  rewrite dot_zeros by (auto using zero_column).
  rewrite fsum_zeros by (auto using zero_column).
  apply chisquare_term_zero.
Qed.

(** The chi-squared score of a column of zeros is NaN. *)
Lemma chi2_zero_column X y j :
  Sklearn.chi2_accepts X y = true ->
  (j < ncols X)%nat ->
  Forall (fun row => nth j row nan = 0) X ->
  exists scores,
    Sklearn.chi2 X y = Some scores /\
    length scores = ncols X /\
    is_nan (nth j scores nan) = true.
Proof.
  intros Hok Hj Hcol. unfold Sklearn.chi2. rewrite Hok.
  eexists. split; [reflexivity|]. split.
  - rewrite length_map, length_seq. reflexivity.
  - rewrite nth_map_seq by lia. unfold column at 1. simpl map.
    rewrite !class_terms_zero_column; auto using indicator_values.
Qed.

(** An index with a NaN score comes after every index with a score that is
    a number. *)
Lemma argsort_nan_after scores i j :
  (i < length scores)%nat -> (j < length scores)%nat ->
  is_nan (nth i scores nan) = false -> is_nan (nth j scores nan) = true ->
  exists l1 l2 l3, argsort scores = (l1 ++ i :: l2 ++ j :: l3)%list.
Proof.
  intros Hi Hj Hni Hnj.
  assert (Ij : In j (argsort scores)).
  { apply (Permutation_in _ (argsort_perm scores)). apply in_seq. lia. }
  assert (Ii : In i (argsort scores)).
  { apply (Permutation_in _ (argsort_perm scores)). apply in_seq. lia. }
  destruct (in_split _ _ Ij) as (a & b & Hab).
  rewrite Hab in Ii. apply in_app_or in Ii. destruct Ii as [Ii | [Ii | Ii]].
  - destruct (in_split _ _ Ii) as (l1 & l2 & ->).
    exists l1, l2, b. rewrite Hab, <- app_assoc. reflexivity.
  - subst i. congruence.
  - exfalso. pose proof (argsort_sorted scores) as Hs. rewrite Hab in Hs.
    assert (K : score_le scores j i).
    { apply (@sorted_app_inv _ (score_le scores) (a ++ [j]) b).
      - rewrite <- app_assoc. exact Hs.
      - apply in_or_app. right. left. reflexivity.
      - exact Ii. }
    unfold score_le in K. rewrite np_le_nan_l in K by auto. discriminate.
Qed.



(** C7. On a non-negative feature matrix with a column of zeros, chi-squared
    ranking returns a ranking, but the column's score is NaN, not the minimum,
    and the column comes after every column whose score is a number: it is the
    last to be dropped, not the first. *)
Theorem zero_column_ranked_after_scored_columns X y j :
  Sklearn.chi2_accepts X y = true ->
  (j < ncols X)%nat ->
  Forall (fun row => nth j row nan = 0) X ->
  exists scores,
    Sklearn.chi2 X y = Some scores /\
    is_nan (nth j scores nan) = true /\
    forall i, (i < ncols X)%nat -> is_nan (nth i scores nan) = false ->
      (nth j scores nan <=? nth i scores nan) = false /\
      exists l1 l2 l3, argsort scores = (l1 ++ i :: l2 ++ j :: l3)%list.
Proof.
  intros Hok Hj Hcol.
  destruct (@chi2_zero_column X y j Hok Hj Hcol) as (scores & Hs & Hl & Hn).
  exists scores. split; [exact Hs|]. split; [exact Hn|].
  intros i Hi Hni. split.
  - destruct (nth j scores nan <=? nth i scores nan) eqn:E; auto.
    apply leb_not_nan in E. destruct E; congruence.
  - apply argsort_nan_after; auto; lia.
Qed.

Lemma zero_column_ranked_last :
  Sklearn.chi2 zero_column_X Sample.Y = Some [nan; 0.5; 0x1.2492492492492p-3] /\
  option_map argsort (Sklearn.chi2 zero_column_X Sample.Y) = Some [2; 1; 0]%nat /\
  exists scores,
    Sklearn.chi2 zero_column_X Sample.Y = Some scores /\
    is_nan (nth 0 scores nan) = true /\
    forall i, (i < ncols zero_column_X)%nat -> is_nan (nth i scores nan) = false ->
      (nth 0 scores nan <=? nth i scores nan) = false /\
      exists l1 l2 l3, argsort scores = (l1 ++ i :: l2 ++ 0%nat :: l3)%list.
Proof.
  split; [vm_compute; reflexivity|]. split; [vm_compute; reflexivity|].
  apply (@zero_column_ranked_after_scored_columns zero_column_X Sample.Y 0%nat).
  - vm_compute. reflexivity.
  - simpl. lia.
  - repeat constructor.
Defined.

(** *** The transform *)

(** C5, on the code: [X[1:3]] takes rows 1 and 2 of the array, not its first
    two columns. For every transform the first row comes out as it went in,
    its continuous columns included, and so do the rows from the fourth on; on
    the sample, under [notrans], rows 1 and 2 change in every column: in the
    discrete ones 1 becomes [1 + eps] and 0 becomes [eps]. *)
Theorem transform_rewrites_rows_not_columns :
  (forall t r rest, nth_error (transformed t (r :: rest)) 0 = Some r) /\
  (forall t r0 r1 r2 rest,
      length (t (map (map (fun x => x + eps)) [r1; r2])) = 2%nat ->
      skipn 3 (transformed t (r0 :: r1 :: r2 :: rest)) = rest) /\
  transformed notrans Sample.X =
    [ [5.5; 2.5; 1; 0];
      [0.5 + eps; 1.5 + eps; 1 + eps; 1 + eps];
      [2; 3; eps; 1 + eps];
      [7; 8; 1; 0] ] /\
  column Sample.X 2 = [1; 1; 0; 1] /\
  column (transformed notrans Sample.X) 2 = [1; 1 + eps; eps; 1] /\
  (1 + eps =? 1) = false /\ (eps =? 0) = false.
Proof.
  split; [reflexivity|]. split.
  { intros t r0 r1 r2 rest H. unfold transformed.
    change (firstn 1 (r0 :: r1 :: r2 :: rest)) with [r0].
    change (skipn 3 (r0 :: r1 :: r2 :: rest)) with rest.
    change (firstn 2 (skipn 1 (r0 :: r1 :: r2 :: rest))) with [r1; r2].
    remember (t (map (map (fun x => x + eps)) [r1; r2])) as B eqn:EB.
    destruct B as [|a [|b [|c l]]]; simpl in H; try discriminate. reflexivity. }
  repeat split; vm_compute; reflexivity.
Qed.

(** *** The grid search of one configuration *)

Lemma best_candidate_sound cells p s :
  Sklearn.best_candidate cells = Some (p, s) -> In (p, Some s) cells.
Proof.
  revert p s. induction cells as [|[q [x|]] cells IH]; simpl; intros p s H.
  - discriminate.
  - destruct (Sklearn.best_candidate cells) as [[p' s']|].
    + destruct (x <? s'); injection H as <- <-; auto.
    + injection H as <- <-. auto.
  - auto.
Qed.

Lemma best_candidate_some cells p s :
  In (p, Some s) cells -> exists p' s', Sklearn.best_candidate cells = Some (p', s').
Proof.
  induction cells as [|[q [x|]] cells IH]; simpl; intros H; [contradiction| |].
  - destruct (Sklearn.best_candidate cells) as [[p' s']|]; [destruct (x <? s')|]; eauto.
  - destruct H as [H|H]; [discriminate|]. auto.
Qed.

(** No candidate that was scored beats the best one: the candidates after a
    failed one were searched as well. *)
Lemma best_candidate_max cells p s :
  Forall (fun c => match snd c with Some x => is_nan x = false | None => True end) cells ->
  Sklearn.best_candidate cells = Some (p, s) ->
  forall p' s', In (p', Some s') cells -> (s' <=? s) = true.
Proof.
  intros Hall. revert p s.
  induction Hall as [|[q [x|]] cells Hx Hall IH]; simpl; intros p s H p' s' Hin.
  - contradiction.
  - simpl in Hx. destruct (Sklearn.best_candidate cells) as [[p0 s0]|] eqn:E.
    + assert (N0 : is_nan s0 = false).
      { apply best_candidate_sound in E. rewrite Forall_forall in Hall.
        apply (Hall _ E). }
      destruct (x <? s0) eqn:L; injection H as <- <-.
      * destruct Hin as [Hin|Hin]; [|eauto].
        injection Hin as <- <-. apply ltb_leb. exact L.
      * destruct Hin as [Hin|Hin].
        -- injection Hin as <- <-. apply leb_refl. exact Hx.
        -- apply leb_trans with s0; [eauto|]. apply ltb_false_leb; auto.
    + injection H as <- <-. destruct Hin as [Hin|Hin].
      * injection Hin as <- <-. apply leb_refl. exact Hx.
      * destruct (best_candidate_some _ _ _ Hin) as (? & ? & K). congruence.
  - destruct Hin as [Hin|Hin]; [discriminate|]. eauto.
Qed.

Lemma for_each_fp_write (A : Type) (g : A -> string) (l : list A) st :
  for_each l (fun x => fp_write (g x)) st =
  Ok tt {| fp := (fp st ++ map g l)%list; max_score := max_score st;
           winnerString := winnerString st; log := log st |}.
Proof.
  revert st. induction l as [|x l IH]; intros st; simpl.
  - rewrite app_nil_r. destruct st; reflexivity.
  - unfold bind. simpl. rewrite IH. simpl. rewrite <- app_assoc. reflexivity.
Qed.

(** The block after a [GS.fit] that returned: four kinds of writes, one log
    entry, one update. *)
Lemma report_and_update_eq
      (fit : estimator -> param_grid -> matrix -> labels -> option GSResult)
      (format_16f : float -> string) (Y : labels) c clf X st GS :
  fit clf (nth (n_clf c) parameterSets []) X Y = Some GS ->
  report_and_update fit format_16f Y c clf X st =
  update_best c GS
    {| fp := (fp st
              ++ [(tab ++ tab ++ tab ++ "Acc:" ++ format_16f (best_score_ GS) ++ tab)%string]
              ++ map (fun xy => (fst xy ++ ":" ++ str (snd xy) ++ " ")%string)
                     (best_params_ GS)
              ++ [nl])%list;
       max_score := max_score st;
       winnerString := winnerString st;
       log := (log st ++ [(c, GS)])%list |}.
Proof.
  intros H. unfold report_and_update, bind, call. rewrite H.
  unfold fp_write at 1. cbv beta iota.
  rewrite for_each_fp_write. cbv beta iota.
  unfold fp_write at 1. cbv beta iota.
  unfold record_entry. cbv beta iota.
  simpl fp. simpl max_score. simpl winnerString. simpl log.
  rewrite <- !app_assoc. reflexivity.
Qed.

Section GridFacts.

(** The mean cross-validated score of a candidate on the selected columns;
    [None] when the estimator's fit raises. *)
Variable cross_val_score : estimator -> matrix -> labels -> params -> option float.
Variable format_16f : float -> string.
Variable Y : labels.

Let fit (clf : estimator) (grid : param_grid) (X : matrix) (Y : labels) :=
  Sklearn.GridSearchCV_fit (cross_val_score clf X Y) grid.

(** C6, as the code has it. When a grid holds combinations the estimator
    refuses and at least one it fits, the grid search goes on past the
    failures, the configuration is reported and folded in, the best parameters
    are a combination that was fitted, never a skipped one, and no scored
    combination has a higher score; the text written for the configuration is
    its accuracy line, its best parameters and a newline: nothing about the
    skipped combinations. *)
Theorem failed_candidates_are_skipped_silently c clf X st p0 s0 :
  In p0 (Sklearn.ParameterGrid (nth (n_clf c) parameterSets [])) ->
  cross_val_score clf X Y p0 = Some s0 ->
  exists GS,
    fit clf (nth (n_clf c) parameterSets []) X Y = Some GS /\
    cross_val_score clf X Y (best_params_ GS) = Some (best_score_ GS) /\
    ~ In (best_params_ GS)
         (Sklearn.skipped (cross_val_score clf X Y) (nth (n_clf c) parameterSets [])) /\
    ((forall p s, cross_val_score clf X Y p = Some s -> is_nan s = false) ->
     forall p s, In p (Sklearn.ParameterGrid (nth (n_clf c) parameterSets [])) ->
                 cross_val_score clf X Y p = Some s -> (s <=? best_score_ GS) = true) /\
    finished (report_and_update fit format_16f Y c clf X st) = true /\
    fp (final_state (report_and_update fit format_16f Y c clf X st)) =
      (fp st ++ [(tab ++ tab ++ tab ++ "Acc:" ++ format_16f (best_score_ GS) ++ tab)%string]
             ++ map (fun xy => (fst xy ++ ":" ++ str (snd xy) ++ " ")%string)
                    (best_params_ GS)
             ++ [nl])%list /\
    log (final_state (report_and_update fit format_16f Y c clf X st)) =
      (log st ++ [(c, GS)])%list /\
    (max_score (final_state (report_and_update fit format_16f Y c clf X st)),
     winnerString (final_state (report_and_update fit format_16f Y c clf X st))) =
      fold_in (max_score st, winnerString st) (c, GS).
Proof.
  intros Hin Hcv.
  set (grid := nth (n_clf c) parameterSets []) in *.
  set (cv := cross_val_score clf X Y) in *.
  assert (Hcell : In (p0, Some s0) (Sklearn.cv_results_ cv grid)).
  { unfold Sklearn.cv_results_. apply in_map_iff. exists p0. rewrite Hcv. auto. }
  destruct (best_candidate_some _ _ _ Hcell) as (p & s & Hbest).
  assert (Hfit : fit clf grid X Y = Some {| best_score_ := s; best_params_ := p |}).
  { unfold fit, Sklearn.GridSearchCV_fit. fold cv. rewrite Hbest. reflexivity. }
  pose proof (best_candidate_sound _ Hbest) as Hsound.
  unfold Sklearn.cv_results_ in Hsound. apply in_map_iff in Hsound.
  destruct Hsound as (q & Hq & HqIn). injection Hq as -> Hs.
  exists {| best_score_ := s; best_params_ := p |}. simpl.
  split; [exact Hfit|]. split; [exact Hs|]. split.
  { unfold Sklearn.skipped. rewrite filter_In. fold cv. rewrite Hs.
    intros [_ K]. discriminate. }
  split.
  { intros Hnum p' s' Hp' Hs'.
    refine (@best_candidate_max (Sklearn.cv_results_ cv grid) p s _ Hbest p' s' _).
    - apply Forall_forall. intros [a [x|]] Ha; simpl; auto.
      unfold Sklearn.cv_results_ in Ha. apply in_map_iff in Ha.
      destruct Ha as (a' & Ha' & _). injection Ha' as -> Hx. eauto.
    - unfold Sklearn.cv_results_. apply in_map_iff. exists p'. rewrite Hs'. auto. }
  fold grid. rewrite (@report_and_update_eq fit format_16f Y c clf X st _ Hfit).
  unfold update_best, fold_in, score. simpl.
  destruct (max_score st <? s); simpl; auto.
Qed.

End GridFacts.

Lemma failed_candidates_are_skipped_silently_witness :
  exists GS,
    Sklearn.GridSearchCV_fit cv_refusing (nth 0 parameterSets []) = Some GS /\
    cv_refusing (best_params_ GS) = Some (best_score_ GS).
Proof.
  destruct (@failed_candidates_are_skipped_silently
              (fun _ _ _ => cv_refusing) Sample.show Sample.Y
              {| n_clf := 0; n_trans := 0; sel := All_features |}
              LogisticRegression Sample.X initial_state
              [("C", PNum "0.1"); ("penalty", PStr "l2"); ("solver", PStr "lbfgs")]
              0.75)
    as (GS & H1 & H2 & _).
  - vm_compute. auto 10.
  - reflexivity.
  - exists GS. auto.
Defined.

(** C6 as the specification states it fails on its last part: the report
    written for a configuration in which three combinations were refused is
    the report written when none was; the skipped combinations leave no trace
    in it. *)
Lemma skipped_candidates_leave_no_trace :
  Sklearn.skipped cv_refusing (nth 0 parameterSets []) =
    [ [("C", PNum "0.1"); ("penalty", PStr "l1"); ("solver", PStr "lbfgs")];
      [("C", PNum "1"); ("penalty", PStr "l1"); ("solver", PStr "lbfgs")];
      [("C", PNum "10"); ("penalty", PStr "l1"); ("solver", PStr "lbfgs")] ] /\
  Sklearn.skipped cv_accepting (nth 0 parameterSets []) = [] /\
  fp (final_state
        (report_and_update (fun _ grid _ _ => Sklearn.GridSearchCV_fit cv_refusing grid)
           Sample.show Sample.Y {| n_clf := 0; n_trans := 0; sel := All_features |}
           LogisticRegression Sample.X initial_state)) =
    [ tab ++ tab ++ tab ++ "Acc:0.75" ++ tab;
      "C:0.1 "; "penalty:l1 "; "solver:liblinear "; nl ] /\
  final_state
    (report_and_update (fun _ grid _ _ => Sklearn.GridSearchCV_fit cv_refusing grid)
       Sample.show Sample.Y {| n_clf := 0; n_trans := 0; sel := All_features |}
       LogisticRegression Sample.X initial_state) =
  final_state
    (report_and_update (fun _ grid _ _ => Sklearn.GridSearchCV_fit cv_accepting grid)
       Sample.show Sample.Y {| n_clf := 0; n_trans := 0; sel := All_features |}
       LogisticRegression Sample.X initial_state).
Proof.
  repeat split; vm_compute; reflexivity.
Qed.

(** *** The best score does not depend on the order of the results *)

Lemma replay_fold l st :
  exists st',
    replay l st = Ok tt st' /\
    (max_score st', winnerString st') =
      fold_left fold_in l (max_score st, winnerString st) /\
    fp st' = fp st /\ log st' = log st.
Proof.
  revert st. induction l as [|e l IH]; intros st.
  - exists st. auto.
  - unfold replay in *. simpl. unfold bind.
    unfold update_best at 1. unfold fold_in at 2. unfold score. simpl.
    destruct (max_score st <? best_score_ (snd e)).
    + destruct (IH {| fp := fp st; max_score := best_score_ (snd e);
           winnerString := descriptor (fst e) ++ str_dict (best_params_ (snd e));
           log := log st |}) as (st' & H1 & H2 & H3 & H4).
      exists st'. auto.
    + destruct (IH st) as (st' & H1 & H2 & H3 & H4).
      exists st'. auto.
Qed.

Lemma replay_best l :
  max_score (final_state (replay l initial_state)) = fst (best_after l).
Proof.
  destruct (replay_fold l initial_state) as (st & -> & H & _).
  simpl. unfold best_after.
  change (0, "") with (max_score initial_state, winnerString initial_state).
  rewrite <- H. reflexivity.
Qed.

Lemma best_after_incl l l' :
  (forall e, In e l -> In e l') ->
  (fst (best_after l) <=? fst (best_after l')) = true.
Proof.
  intros Hsub. unfold best_after.
  destruct (fold_left_attained l (0, "")) as [H | (e & Hin & H)].
  - rewrite H. apply (fold_left_grows l' (0, "")). reflexivity.
  - pose proof (fold_left_not_nan l (0, "") eq_refl) as Hn.
    rewrite H in *. simpl in *. apply fold_left_bounds; auto.
Qed.

(** X1. Two sequences of results with the same members, in any order and with
    any repetitions, leave the same best score: the score the script reports
    does not depend on the order in which the configurations are evaluated.
    (The winner text may differ, when several results share the best score.) *)
Theorem best_score_ignores_evaluation_order (l l' : list entry) :
  (forall e, In e l <-> In e l') ->
  (max_score (final_state (replay l initial_state))
     =? max_score (final_state (replay l' initial_state))) = true.
Proof.
  intros H. rewrite !replay_best. apply eqb_leb.
  split; apply best_after_incl; intros e; apply H.
Qed.

Lemma best_score_ignores_evaluation_order_witness :
  (max_score (final_state (replay [two_results_a; two_results_b] initial_state))
     =? max_score (final_state
                     (replay [two_results_b; two_results_a; two_results_b]
                             initial_state))) = true.
Proof.
  apply (@best_score_ignores_evaluation_order
           [two_results_a; two_results_b]
           [two_results_b; two_results_a; two_results_b]).
  intros e. simpl. tauto.
Defined.

(** *** The empty winner text *)

Lemma append_empty s1 s2 : s1 ++ s2 = "" -> s1 = "" /\ s2 = "".
Proof. destruct s1; simpl; [auto | discriminate]. Qed.

Lemma winner_text_not_empty e : winner_text e <> "".
Proof.
  unfold winner_text. intros H. apply append_empty in H. destruct H as [H _].
  unfold descriptor in H.
  destruct (sel (fst e)); apply append_empty in H; destruct H as [_ H];
    simpl in H; discriminate H.
Qed.

(** *** The report file *)

Lemma string_app_assoc (a b c : string) : (a ++ b) ++ c = a ++ b ++ c.
Proof. induction a as [|x a IH]; simpl; [reflexivity | rewrite IH; reflexivity]. Qed.

Lemma last_ascii_app s c d : last_ascii (s ++ String c "") d = c.
Proof. revert d. induction s as [|x s IH]; simpl; intros d; auto. Qed.

Lemma keeps_no_summary_write s :
  s <> summary_header -> keeps no_summary (fp_write s).
Proof.
  intros Hs st HI. unfold no_summary in *. simpl. intros Hin.
  apply in_app_or in Hin. destruct Hin as [Hin | [Hin | []]]; auto.
Qed.

Lemma item_not_summary (xy : string * pyval) :
  fst xy ++ ":" ++ str (snd xy) ++ " " <> summary_header.
Proof.
  intros H.
  change (fst xy ++ ":" ++ str (snd xy) ++ " ")
    with (fst xy ++ ":" ++ str (snd xy) ++ String " "%char "") in H.
  rewrite <- !string_app_assoc in H.
  apply (f_equal (fun s => last_ascii s " "%char)) in H.
  rewrite last_ascii_app in H. vm_compute in H. discriminate H.
Qed.

Ltac differ := let H := fresh in intros H; vm_compute in H; discriminate H.

Lemma keeps_no_summary_report
      (fit : estimator -> param_grid -> matrix -> labels -> option GSResult)
      (format_16f : float -> string) (Y : labels) c clf X :
  keeps no_summary (report_and_update fit format_16f Y c clf X).
Proof.
  intros st HI.
  destruct (fit clf (nth (n_clf c) parameterSets []) X Y) as [GS|] eqn:E.
  - rewrite (@report_and_update_eq fit format_16f Y c clf X st GS E).
    unfold update_best. simpl max_score.
    assert (K : ~ In summary_header
                  (fp st
                   ++ [(tab ++ tab ++ tab ++ "Acc:"
                          ++ format_16f (best_score_ GS) ++ tab)%string]
                   ++ map (fun xy => (fst xy ++ ":" ++ str (snd xy) ++ " ")%string)
                          (best_params_ GS)
                   ++ [nl])%list).
    { intros Hin. apply in_app_or in Hin. destruct Hin as [Hin|Hin]; [exact (HI Hin)|].
      apply in_app_or in Hin. destruct Hin as [[Hin|[]]|Hin].
      - revert Hin. simpl. discriminate.
      - apply in_app_or in Hin. destruct Hin as [Hin|[Hin|[]]].
        + apply in_map_iff in Hin. destruct Hin as (xy & Hxy & _).
          exact (item_not_summary _ Hxy).
        + revert Hin. differ. }
    destruct (max_score st <? best_score_ GS); exact K.
  - unfold report_and_update, bind, call. rewrite E. exact HI.
Qed.

(** *** Runs that stop early *)

Lemma stops_bind {A B} cs1 cs2 (m : M A) (f : A -> M B) :
  stops_within cs1 m -> (forall a, stops_within cs2 (f a)) ->
  stops_within (cs1 ++ cs2) (bind m f).
Proof.
  intros Hm Hf st. unfold bind. specialize (Hm st).
  destruct (m st) as [a st'|st'].
  - specialize (Hf a st'). destruct (f a st') as [b st''|st''].
    + rewrite Hf, Hm, app_assoc. reflexivity.
    + destruct Hf as (p & c & q & -> & Hl). exists (cs1 ++ p)%list, c, q.
      split; [rewrite app_assoc; reflexivity|].
      rewrite Hl, Hm, app_assoc. reflexivity.
  - destruct Hm as (p & c & q & -> & Hl). exists p, c, (q ++ cs2)%list.
    split; [rewrite <- app_assoc; reflexivity | exact Hl].
Qed.

Lemma stops_ret {A} (a : A) : stops_within [] (ret a).
Proof. intros st. simpl. rewrite app_nil_r. reflexivity. Qed.

Lemma stops_fp_write s : stops_within [] (fp_write s).
Proof. intros st. simpl. rewrite app_nil_r. reflexivity. Qed.

Lemma stops_for_each {A} (g : A -> list config) (l : list A) body :
  (forall x, stops_within (g x) (body x)) ->
  stops_within (flat_map g l) (for_each l body).
Proof.
  intros Hb. induction l as [|x l IH]; simpl.
  - apply stops_ret.
  - apply stops_bind; auto.
Qed.

Lemma stops_eq {A} cs cs' (m : M A) : cs = cs' -> stops_within cs m -> stops_within cs' m.
Proof. intros <-. auto. Qed.

Section RunFacts.

Variable mutual_info_classif : matrix -> labels -> list bool -> option (list float).
Variable chi2 : matrix -> labels -> option (list float).
Variable MinMaxScaler_fit_transform : matrix -> matrix.
Variable StandardScaler_fit_transform : matrix -> matrix.
Variable np_log : matrix -> matrix.
Variable np_log1p : matrix -> matrix.
Variable GridSearchCV_fit : estimator -> param_grid -> matrix -> labels -> option GSResult.
Variable format_16f : float -> string.
Variable str_float : float -> string.
Variable X_all : matrix.
Variable Y : labels.

Let run : result unit :=
  main mutual_info_classif chi2 MinMaxScaler_fit_transform
       StandardScaler_fit_transform np_log np_log1p GridSearchCV_fit
       format_16f str_float X_all Y.

Lemma stops_report_and_update c clf X_selected :
  stops_within [c] (report_and_update GridSearchCV_fit format_16f Y c clf X_selected).
Proof.
  intros st.
  destruct (GridSearchCV_fit clf (nth (n_clf c) parameterSets []) X_selected Y)
    as [GS|] eqn:E.
  - rewrite (@report_and_update_eq GridSearchCV_fit format_16f Y c clf X_selected st GS E).
    unfold update_best. simpl max_score.
    destruct (max_score st <? best_score_ GS); simpl; rewrite map_app; reflexivity.
  - unfold report_and_update, bind, call. rewrite E.
    exists [], c, []. split; [reflexivity | rewrite app_nil_r; reflexivity].
Qed.

Lemma stops_reduced_pass chi_inds mi_inds :
  stops_within reduced_configs
    (reduced_pass MinMaxScaler_fit_transform StandardScaler_fit_transform
       np_log np_log1p GridSearchCV_fit format_16f X_all Y chi_inds mi_inds).
Proof.
  unfold reduced_pass.
  apply stops_eq with
    (flat_map (fun nc : nat * estimator =>
                 ([] ++ flat_map (pair_configs (fst nc)) (seq 0 5) ++ [])%list)
              (enumerate classifiers)); [reflexivity|].
  apply stops_for_each. intros nc.
  apply stops_bind; [apply stops_fp_write|]. intros _.
  apply stops_bind; [|intros; apply stops_fp_write].
  apply stops_eq with (flat_map (fun j => ([] ++ pair_configs (fst nc) j)%list) (seq 0 5));
    [reflexivity|].
  apply stops_for_each. intros j.
  apply stops_bind; [apply stops_fp_write|]. intros _.
  unfold pair_configs. apply stops_for_each. intros n_feat.
  apply (stops_bind (cs1 := []) (cs2 := [_; _])); [apply stops_fp_write|]. intros _.
  apply (stops_bind (cs1 := [_]) (cs2 := [_])); [apply stops_report_and_update|]. intros _.
  apply (stops_bind (cs1 := []) (cs2 := [_])); [apply stops_fp_write|]. intros _.
  apply stops_report_and_update.
Qed.

Lemma stops_all_features_pass :
  stops_within all_features_configs
    (all_features_pass MinMaxScaler_fit_transform StandardScaler_fit_transform
       np_log np_log1p GridSearchCV_fit format_16f X_all Y).
Proof.
  unfold all_features_pass.
  apply (stops_bind (cs1 := [])); [apply stops_fp_write|]. intros _.
  apply stops_eq with
    (flat_map (fun nc : nat * estimator =>
                 ([] ++ flat_map (fun j => ([] ++ [ {| n_clf := fst nc; n_trans := j;
                                                   sel := All_features |} ])%list)
                                 (seq 0 5))%list)
              (enumerate classifiers)); [reflexivity|].
  apply stops_for_each. intros nc.
  apply stops_bind; [apply stops_fp_write|]. intros _.
  apply stops_for_each. intros j.
  apply stops_bind; [apply stops_fp_write|]. intros _.
  apply stops_report_and_update.
Qed.

Lemma stops_write_summary : stops_within [] (write_summary str_float).
Proof. intros st. simpl. rewrite app_nil_r. reflexivity. Qed.

(** X2. A run that an exception cuts short has logged the configurations before
    some configuration of the search order, in that order, and not that one:
    the entries of the report so far are those of an initial part of the
    search, and fewer than the 140 of a complete run. *)
Theorem interrupted_search_logs_a_prefix :
  finished run = false ->
  exists p c q,
    (reduced_configs ++ all_features_configs)%list = (p ++ c :: q)%list /\
    map fst (log (final_state run)) = p /\
    (length (log (final_state run)) < 140)%nat.
Proof.
  assert (G : forall p c q (l : list entry),
             (reduced_configs ++ all_features_configs)%list = (p ++ c :: q)%list ->
             map fst l = p -> (length l < 140)%nat).
  { intros p c q l H1 H2. apply (f_equal (@length _)) in H1.
    subst p. rewrite (length_app (map fst l)), length_map in H1.
    change (length (reduced_configs ++ all_features_configs)%list) with 140%nat in H1.
    simpl in H1. unfold entry in *. lia. }
  unfold run, main.
  destruct (mutual_info_classif X_all Y (disMask X_all)) as [mi_scores|].
  2:{ intros _. eexists [], _, _. split; [reflexivity|]. split; [reflexivity|].
      simpl. lia. }
  destruct (chi2 X_all Y) as [chi_scores|].
  2:{ intros _. eexists [], _, _. split; [reflexivity|]. split; [reflexivity|].
      simpl. lia. }
  assert (K : stops_within (reduced_configs ++ all_features_configs ++ [])
                (reduced_pass MinMaxScaler_fit_transform StandardScaler_fit_transform
                   np_log np_log1p GridSearchCV_fit format_16f X_all Y
                   (argsort chi_scores) (argsort mi_scores) ;;
                 all_features_pass MinMaxScaler_fit_transform
                   StandardScaler_fit_transform np_log np_log1p GridSearchCV_fit
                   format_16f X_all Y ;;
                 write_summary str_float)).
  { apply stops_bind; [apply stops_reduced_pass|]. intros _.
    apply stops_bind; [apply stops_all_features_pass|]. intros _.
    apply stops_write_summary. }
  specialize (K initial_state). rewrite app_nil_r in K.
  match goal with |- finished ?r = false -> _ => destruct r as [u st|st] end;
    [discriminate|intros _].
  destruct K as (p & c & q & H1 & H2). simpl in H2.
  exists p, c, q. split; [exact H1|]. split; [exact H2|].
  simpl. exact (G p c q _ H1 H2).
Qed.

Lemma keeps_no_summary_reduced_pass chi_inds mi_inds :
  keeps no_summary
    (reduced_pass MinMaxScaler_fit_transform StandardScaler_fit_transform
       np_log np_log1p GridSearchCV_fit format_16f X_all Y chi_inds mi_inds).
Proof.
  unfold reduced_pass. apply keeps_for_each. intros [n clf].
  apply keeps_bind.
  { apply keeps_no_summary_write. simpl fst.
    destruct n as [|[|[|[|[|n]]]]]; differ. }
  intros _.
  apply keeps_bind; [|intros; apply keeps_no_summary_write; differ].
  apply keeps_for_each. intros j.
  apply keeps_bind; [apply keeps_no_summary_write; simpl; discriminate|]. intros _.
  apply keeps_for_each. intros n_feat.
  apply keeps_bind; [apply keeps_no_summary_write; simpl; discriminate|]. intros _.
  apply keeps_bind; [apply keeps_no_summary_report|]. intros _.
  apply keeps_bind; [apply keeps_no_summary_write; simpl; discriminate|]. intros _.
  apply keeps_no_summary_report.
Qed.

Lemma keeps_no_summary_all_features_pass :
  keeps no_summary
    (all_features_pass MinMaxScaler_fit_transform StandardScaler_fit_transform
       np_log np_log1p GridSearchCV_fit format_16f X_all Y).
Proof.
  unfold all_features_pass.
  apply keeps_bind; [apply keeps_no_summary_write; differ|]. intros _.
  apply keeps_for_each. intros nc.
  apply keeps_bind; [apply keeps_no_summary_write; simpl; discriminate|]. intros _.
  apply keeps_for_each. intros j.
  apply keeps_bind; [apply keeps_no_summary_write; simpl; discriminate|]. intros _.
  apply keeps_no_summary_report.
Qed.

(** X3. The report ends with the summary exactly when the run reaches its end:
    a complete run's last three writes are the summary header, the best
    score and the winner text, and the header is written nowhere before; a
    run that an exception cuts short has not written the header at all. *)
Theorem summary_written_iff_finished :
  (finished run = true ->
   exists body,
     fp (final_state run) =
       (body ++ [summary_header;
                 ("Accuracy: " ++ str_float (max_score (final_state run)) ++ nl)%string;
                 (winnerString (final_state run) ++ nl)%string])%list /\
     ~ In summary_header body) /\
  (finished run = false -> ~ In summary_header (fp (final_state run))).
Proof.
  unfold run, main.
  destruct (mutual_info_classif X_all Y (disMask X_all)) as [mi_scores|].
  2:{ split; [discriminate | intros _ []]. }
  destruct (chi2 X_all Y) as [chi_scores|].
  2:{ split; [discriminate | intros _ []]. }
  unfold bind.
  pose proof (@keeps_no_summary_reduced_pass (argsort chi_scores) (argsort mi_scores)
                initial_state (fun H => H)) as K1.
  destruct (reduced_pass _ _ _ _ _ _ _ _ _ _ initial_state) as [u1 st1|st1];
    [|split; [discriminate | intros _; exact K1]].
  simpl in K1.
  pose proof (keeps_no_summary_all_features_pass K1) as K2.
  destruct (all_features_pass _ _ _ _ _ _ _ _ st1) as [u2 st2|st2];
    [|split; [discriminate | intros _; exact K2]].
  simpl in K2.
  split; [intros _|discriminate].
  exists (fp st2). split; [|exact K2].
  simpl. rewrite <- !app_assoc. reflexivity.
Qed.

(** X4. The winner text is still empty at the end of a run exactly when no
    logged score is above 0.0, and the best score is then still 0.0: a
    search in which every configuration scores 0 names no winner. *)
Theorem empty_winner_iff_no_positive_score :
  (winnerString (final_state run) = "" <->
   forall e, In e (log (final_state run)) -> (0 <? score e) = false) /\
  (winnerString (final_state run) = "" -> max_score (final_state run) = 0).
Proof.
  pose proof (main_best_is_fold mutual_info_classif chi2 MinMaxScaler_fit_transform
                StandardScaler_fit_transform np_log np_log1p GridSearchCV_fit
                format_16f str_float X_all Y) as Hfold.
  fold run in Hfold. unfold best_is_fold in Hfold.
  assert (Hfwd : winnerString (final_state run) = "" ->
                 best_after (log (final_state run)) = (0, "")).
  { intros Hw.
    destruct (best_after_first_max (log (final_state run)))
      as [H | (l1 & e & l2 & _ & Hb & _)]; [exact H|].
    rewrite Hb in Hfold. injection Hfold as _ Hwin.
    exfalso. apply (@winner_text_not_empty e). congruence. }
  split; [split|].
  - intros Hw e Hin. apply Hfwd in Hw.
    destruct (0 <? score e) eqn:E; [|reflexivity].
    assert (K : (score e <=? fst (best_after (log (final_state run)))) = true).
    { apply fold_left_bounds; auto. apply ltb_not_nan in E. tauto. }
    rewrite Hw in K. simpl in K. apply leb_ltb_false in K. congruence.
  - intros H. apply best_after_no_positive in H. rewrite H in Hfold.
    injection Hfold as _ Hw. exact Hw.
  - intros Hw. apply Hfwd in Hw. rewrite Hw in Hfold.
    injection Hfold as Hm _. exact Hm.
Qed.

End RunFacts.

Lemma interrupted_search_logs_a_prefix_witness :
  exists p c q,
    (reduced_configs ++ all_features_configs)%list = (p ++ c :: q)%list /\
    map fst (log (final_state
      (main Sample.mi Sample.chi notrans notrans notrans notrans
            fit_without_svm Sample.show Sample.show Sample.X Sample.Y))) = p /\
    (length (log (final_state
      (main Sample.mi Sample.chi notrans notrans notrans notrans
            fit_without_svm Sample.show Sample.show Sample.X Sample.Y))) < 140)%nat.
Proof.
  apply (@interrupted_search_logs_a_prefix Sample.mi Sample.chi notrans notrans
           notrans notrans fit_without_svm Sample.show Sample.show Sample.X Sample.Y).
  vm_compute. reflexivity.
Defined.

(** *** The discrete-feature mask and the column selection *)

(** X5. [disMask] marks columns 0 and 1 as continuous and the others as
    discrete. It has one entry per column exactly when the table has at
    least two columns: for a narrower table it still has two entries. *)
Theorem disMask_shape (X : matrix) :
  length (disMask X) = Nat.max 2 (ncols X) /\
  (length (disMask X) = ncols X <-> (2 <= ncols X)%nat) /\
  (forall j, nth_error (disMask X) j =
             if Nat.ltb j 2 then Some false
             else if Nat.ltb j (ncols X) then Some true else None).
Proof.
  unfold disMask. split; [|split].
  - rewrite length_app, repeat_length. cbn [length]. lia.
  - rewrite length_app, repeat_length. cbn [length]. lia.
  - intros j. destruct j as [|[|j]]; [reflexivity|reflexivity|].
    change (nth_error ([false; false] ++ repeat true (ncols X - 2)) (S (S j)))
      with (nth_error (repeat true (ncols X - 2)) j).
    change (Nat.ltb (S (S j)) 2) with false. cbv iota.
    destruct (Nat.ltb (S (S j)) (ncols X)) eqn:E.
    + apply Nat.ltb_lt in E. apply nth_error_repeat. lia.
    + apply Nat.ltb_ge in E. apply nth_error_None. rewrite repeat_length. lia.
Qed.

Lemma map_nth_seq_id (row : list float) :
  map (fun j => nth j row nan) (seq 0 (length row)) = row.
Proof.
  apply nth_ext with (d := nan) (d' := nan).
  - rewrite length_map, length_seq. reflexivity.
  - intros n Hn. rewrite length_map, length_seq in Hn.
    rewrite nth_map_seq; auto.
Qed.

(** X6. [X[:, inds[k:]]] for a ranking [inds = np.argsort(scores)] of the
    columns of [X]: the columns it keeps, together with the [k] first of the
    ranking that it removes, are the columns of the table, each once; a row
    keeps as many values as there are columns beyond [k], none when the table
    has at most [k] columns. *)
Theorem selection_partitions_the_columns (X : matrix) (scores : list float) (k : nat) :
  Forall (fun row => length row = length scores) X ->
  Forall2 (fun row kept =>
             Permutation
               (map (fun j => nth j row nan) (firstn k (argsort scores)) ++ kept) row /\
             length kept = (length scores - k)%nat)
          X (take_columns X (skipn k (argsort scores))).
Proof.
  intros H. unfold take_columns. induction H as [|row X Hrow _ IH]; simpl.
  - constructor.
  - constructor; [|exact IH]. split.
    + rewrite <- map_app, firstn_skipn.
      apply Permutation_trans with (map (fun j => nth j row nan) (seq 0 (length row))).
      * rewrite Hrow. apply Permutation_map. apply Permutation_sym. apply argsort_perm.
      * rewrite map_nth_seq_id. apply Permutation_refl.
    + rewrite length_map, length_skipn, argsort_length. reflexivity.
Qed.

Lemma selection_partitions_the_columns_witness :
  Forall2 (fun row kept =>
             Permutation
               (map (fun j => nth j row nan) (firstn 1%nat (argsort [3; 1; 0.5; 2])) ++ kept)
               row /\
             length kept = 3%nat)
          Sample.X (take_columns Sample.X (skipn 1%nat (argsort [3; 1; 0.5; 2]))).
Proof.
  apply (@selection_partitions_the_columns Sample.X [3; 1; 0.5; 2] 1%nat).
  repeat constructor.
Defined.


End CompareModelsFacts.

(** ** The export of the trainers *)

Module TrainersFacts.

Import Numpy Trainers.
Open Scope float_scope.

Lemma abs_max_cons (num : Type) (A : Arith num) (x : num) (v : list num) :
  exists m, abs_max (x :: v) = Some m.
Proof. simpl. eauto. Qed.

(** C10. Without the financial reference file the healthcare trainer exports
    the intercept-folded coefficients as they are, and the missing file raises
    nothing: for a fitted model the export is defined. *)
Theorem missing_reference_exports_folded_coefs
    (coefs : list (list float)) (intercept : list float) (feature_columns : list string) :
  coefs_final coefs intercept feature_columns None =
    coefs_with_intercept coefs intercept feature_columns /\
  forall row rest b bs,
    coefs = row :: rest -> intercept = b :: bs ->
    coefs_final coefs intercept feature_columns None =
      Some (map (fun w => w + (b * 1.8) / float_of_nat (length feature_columns)) row
              :: rest).
Proof.
  split.
  - unfold coefs_final. destruct (coefs_with_intercept _ _ _); reflexivity.
  - intros row rest b bs -> ->. reflexivity.
Qed.

(** C8, as the code has it. For a fitted model the class-0 row with the
    intercept folded in is the coefficient row with [(intercept * 1.8) / n]
    added to every entry; the matrix keeps its shape, so no separate additive
    term is written. The academic trainer exports this matrix, and so does
    the healthcare trainer when the financial reference file is missing; with
    the file, the healthcare trainer exports every entry of it multiplied by
    the scale factor. *)
Theorem intercept_folded_into_exported_row
    (row : list float) (rest : list (list float)) (b : float) (bs : list float)
    (feature_columns : list string) :
  let folded :=
    map (fun w => w + (b * 1.8) / float_of_nat (length feature_columns)) row in
  coefs_with_intercept (row :: rest) (b :: bs) feature_columns = Some (folded :: rest) /\
  length folded = length row /\
  academic_coefs_csv (row :: rest) (b :: bs) feature_columns = Some (folded :: rest) /\
  coefs_final (row :: rest) (b :: bs) feature_columns None = Some (folded :: rest) /\
  forall financial_coefs others sf,
    scale_factor financial_coefs folded = Some sf ->
    coefs_final (row :: rest) (b :: bs) feature_columns (Some (financial_coefs :: others)) =
      Some (map (fun w => w * sf) folded :: map (map (fun w => w * sf)) rest).
Proof.
  intros folded. split; [reflexivity|]. split; [apply length_map|].
  split; [reflexivity|]. split; [reflexivity|].
  intros financial_coefs others sf H.
  unfold coefs_final. simpl coefs_with_intercept. cbv iota. simpl hd.
  fold folded. rewrite H. reflexivity.
Qed.

(** C8 as the specification states it fails for the healthcare trainer when
    the reference file exists: the exported row is the folded row times 2
    here. *)
Lemma healthcare_export_is_not_the_folded_row :
  coefs_with_intercept [[-2.5; -0.5]] [5] ["cna_mean"; "cna_max"]%string
    = Some [[2; 4]] /\
  coefs_final [[-2.5; -0.5]] [5] ["cna_mean"; "cna_max"]%string (Some [[8; 4]])
    = Some [[4; 8]] /\
  coefs_final [[-2.5; -0.5]] [5] ["cna_mean"; "cna_max"]%string (Some [[8; 4]])
    <> coefs_with_intercept [[-2.5; -0.5]] [5] ["cna_mean"; "cna_max"]%string.
Proof.
  split; [vm_compute; reflexivity|]. split; [vm_compute; reflexivity|].
  intros H. vm_compute in H. discriminate H.
Qed.

(** *** The rescaling over the rationals *)

Lemma Q_fold_max_nonneg (v : list Q) (acc : Q) :
  (0 <= acc)%Q -> (0 <= fold_left (fun m y => Qmax m (Qabs y)) v acc)%Q.
Proof.
  revert acc. induction v as [|y v IH]; simpl; intros acc H; auto.
  apply IH. apply Qle_trans with acc; auto. apply Q.le_max_l.
Qed.

Lemma Q_abs_max_nonneg (v : list Q) (m : Q) :
  abs_max v = Some m -> (0 <= m)%Q.
Proof.
  destruct v as [|x v]; simpl; [discriminate|].
  intros H. injection H as <-. apply Q_fold_max_nonneg. apply Qabs_nonneg.
Qed.

Lemma Qmax_scale (a c r : Q) :
  (0 <= r)%Q -> (Qmax (a * r) (c * r) == Qmax a c * r)%Q.
Proof.
  intros Hr.
  destruct (Q.max_spec_le a c) as [[Hle ->]|[Hle ->]].
  - apply Q.max_r. apply Qmult_le_compat_r; auto.
  - apply Q.max_l. apply Qmult_le_compat_r; auto.
Qed.

Lemma Q_fold_max_scale (v : list Q) (r acc acc' : Q) :
  (0 <= r)%Q -> (acc' == acc * r)%Q ->
  (fold_left (fun m y => Qmax m (Qabs y)) (map (fun w => w * r) v) acc'
   == fold_left (fun m y => Qmax m (Qabs y)) v acc * r)%Q.
Proof.
  intros Hr. revert acc acc'.
  induction v as [|y v IH]; cbn [fold_left map]; intros acc acc' H; auto.
  apply IH. rewrite H, Qabs_Qmult, (Qabs_pos r Hr). apply Qmax_scale. exact Hr.
Qed.

Lemma Q_abs_max_scale (v : list Q) (m r : Q) :
  (0 <= r)%Q -> abs_max v = Some m ->
  exists m', abs_max (map (fun w => w * r)%Q v) = Some m' /\ (m' == m * r)%Q.
Proof.
  intros Hr. destruct v as [|x v]; cbn [abs_max map]; [discriminate|].
  intros H. injection H as <-. eexists. split; [reflexivity|].
  cbn [num_max num_abs exact].
  apply Q_fold_max_scale; auto.
  rewrite Qabs_Qmult, (Qabs_pos r Hr). reflexivity.
Qed.

(** C9, as the code has it. With the financial reference file present,
    every exported coefficient is the intercept-folded coefficient multiplied
    by the ratio of the largest absolute financial weight to the largest
    absolute folded class-0 weight, in binary64 arithmetic. In exact
    arithmetic, and when the folded class-0 row is not all zeros, the largest
    absolute weight of the exported class-0 row then equals the largest
    absolute financial weight. *)
Theorem healthcare_coefficients_rescaled :
  (forall (w : float) (row : list float) (rest : list (list float))
          (b : float) (bs : list float) (feature_columns : list string)
          (f : float) (financial_coefs : list float) (others : list (list float)),
      exists folded a m,
        coefs_with_intercept ((w :: row) :: rest) (b :: bs) feature_columns
          = Some (folded :: rest) /\
        abs_max (f :: financial_coefs) = Some a /\
        abs_max folded = Some m /\
        coefs_final ((w :: row) :: rest) (b :: bs) feature_columns
                    (Some ((f :: financial_coefs) :: others))
          = Some (map (map (fun x => x * (a / m))) (folded :: rest))) /\
  (forall (coefs : list (list Q)) (intercept : list Q) (feature_columns : list string)
          (financial_coefs : list Q) (others : list (list Q))
          (folded : list Q) (rest : list (list Q)) (a m : Q),
      coefs_with_intercept coefs intercept feature_columns = Some (folded :: rest) ->
      abs_max financial_coefs = Some a ->
      abs_max folded = Some m ->
      ~ (m == 0)%Q ->
      exists exported rest' m',
        coefs_final coefs intercept feature_columns (Some (financial_coefs :: others))
          = Some (exported :: rest') /\
        exported = map (fun x => x * (a / m))%Q folded /\
        abs_max exported = Some m' /\
        (m' == a)%Q).
Proof.
  split.
  - intros w row rest b bs feature_columns f financial_coefs others.
    destruct (abs_max_cons binary64 f financial_coefs) as [a Ha].
    set (ipf := (b * 1.8) / float_of_nat (length feature_columns)).
    destruct (abs_max_cons binary64 (w + ipf) (map (fun x => x + ipf) row)) as [m Hm].
    exists (map (fun x => x + ipf) (w :: row)), a, m.
    split; [reflexivity|]. split; [exact Ha|]. split; [exact Hm|].
    unfold coefs_final. simpl coefs_with_intercept. cbv iota. simpl hd.
    unfold scale_factor. rewrite Ha. fold ipf.
    change (map (fun w0 => num_add w0 ipf) row) with (map (fun x => x + ipf) row).
    change (num_add w ipf) with (w + ipf).
    rewrite Hm. reflexivity.
  - intros coefs intercept feature_columns financial_coefs others folded rest a m
           Hfold Ha Hm Hnz.
    assert (Hr : (0 <= a / m)%Q).
    { apply Q_abs_max_nonneg in Ha. apply Q_abs_max_nonneg in Hm.
      unfold Qdiv. apply Qmult_le_0_compat; auto.
      apply Qinv_le_0_compat. exact Hm. }
    destruct (Q_abs_max_scale folded Hr Hm) as (m' & Hm' & Heq).
    exists (map (fun x => x * (a / m))%Q folded),
           (map (map (fun x => x * (a / m))%Q) rest), m'.
    split.
    { unfold coefs_final. rewrite Hfold. simpl hd. unfold scale_factor.
      rewrite Ha, Hm. reflexivity. }
    split; [reflexivity|]. split; [exact Hm'|].
    rewrite Heq. rewrite Qmult_div_r; auto. reflexivity.
Qed.

Lemma healthcare_coefficients_rescaled_witness :
  exists exported rest' m',
    coefs_final [[(1 # 2); (-3 # 1)]]%Q [(5 # 1)]%Q ["cna_mean"; "cna_max"]%string
                (Some [[(2 # 1); (-7 # 1)]]%Q)
      = Some (exported :: rest') /\
    abs_max exported = Some m' /\
    (m' == 7 # 1)%Q.
Proof.
  destruct (coefs_with_intercept [[(1 # 2); (-3 # 1)]]%Q [(5 # 1)]%Q
              ["cna_mean"; "cna_max"]%string) as [[|folded rest]|] eqn:Hfold;
    try discriminate Hfold.
  destruct (abs_max folded) as [m|] eqn:Hm;
    [|injection Hfold as <- _; discriminate Hm].
  destruct (proj2 healthcare_coefficients_rescaled
              [[(1 # 2); (-3 # 1)]]%Q [(5 # 1)]%Q ["cna_mean"; "cna_max"]%string
              [(2 # 1); (-7 # 1)]%Q [] folded rest (7 # 1)%Q m
              Hfold eq_refl Hm)
    as (exported & rest' & m' & H1 & H2 & H3 & H4).
  - injection Hfold as <- _. injection Hm as <-. intros H. vm_compute in H.
    discriminate H.
  - exists exported, rest', m'. auto.
Defined.

(** C9 as the specification states it fails in binary64 arithmetic: the
    largest absolute folded weight is 49 and the largest absolute financial
    weight is 1; the exported row's largest absolute weight is
    [49 * (1 / 49)], which is below 1. And a folded row of zeros makes the
    ratio infinite and every exported weight NaN. *)
Lemma rescaled_maximum_differs_from_reference :
  coefs_with_intercept coefs_49 intercept_49 healthcare_columns
    = Some [[49; -7; 0.5; 3; -0.75; 1.25; 2; -1; 0.25; 4]] /\
  abs_max (hd [] financial_1) = Some 1 /\
  (exists exported,
     coefs_final coefs_49 intercept_49 healthcare_columns (Some financial_1)
       = Some [exported] /\
     abs_max exported = Some (49 * (1 / 49)) /\
     (49 * (1 / 49) =? 1) = false /\
     (49 * (1 / 49) <? 1) = true) /\
  coefs_final [[0; 0]] [0] ["cna_mean"; "cna_max"]%string (Some [[1; 0.5]])
    = Some [[nan; nan]].
Proof.
  split; [vm_compute; reflexivity|]. split; [vm_compute; reflexivity|].
  split; [|vm_compute; reflexivity].
  eexists. split; [vm_compute; reflexivity|].
  repeat split; vm_compute; reflexivity.
Qed.

End TrainersFacts.

(** ** Signs of products and quotients *)

Module FloatSignFacts.

Import FloatOrder FloatOrderFacts FloatSign Numpy.

Lemma binary_round_aux_sign prec emax sx mx ex lx :
  sf_sign (binary_round_aux prec emax sx mx ex lx) = None \/
  sf_sign (binary_round_aux prec emax sx mx ex lx) = Some sx.
Proof.
  unfold binary_round_aux.
  destruct (shr_fexp prec emax mx ex lx) as [mrs' e'].
  destruct (shr_fexp prec emax _ e' loc_Exact) as [mrs'' e''].
  destruct (shr_m mrs''); simpl; auto.
  destruct (e'' <=? emax - prec)%Z; simpl; auto.
Qed.

(** A product that is not NaN has the signs of its factors combined, and
    is zero when the first factor is. *)
Lemma SFmul_sign prec emax x y :
  sf_sign (SFmul prec emax x y) = None \/
  exists sx sy,
    sf_sign x = Some sx /\ sf_sign y = Some sy /\
    sf_sign (SFmul prec emax x y) = Some (xorb sx sy) /\
    (sf_is_zero x = true -> sf_is_zero (SFmul prec emax x y) = true).
Proof.
  destruct x as [sx|sx| |sx mx ex], y as [sy|sy| |sy my ey]; simpl;
    try (left; reflexivity);
    try (right; exists sx, sy; repeat split; auto; discriminate).
  destruct (binary_round_aux_sign prec emax (xorb sx sy) (Z.pos (mx * my))
              (ex + ey) loc_Exact) as [H|H]; auto.
  right. exists sx, sy. repeat split; auto. discriminate.
Qed.

Lemma SFdiv_sign prec emax x y :
  sf_sign (SFdiv prec emax x y) = None \/
  exists sx sy,
    sf_sign x = Some sx /\ sf_sign y = Some sy /\
    sf_sign (SFdiv prec emax x y) = Some (xorb sx sy).
Proof.
  destruct x as [sx|sx| |sx mx ex], y as [sy|sy| |sy my ey]; simpl;
    try (left; reflexivity);
    try (right; exists sx, sy; repeat split; reflexivity).
  destruct (SFdiv_core_binary prec emax (Z.pos mx) ex (Z.pos my) ey) as [[mz ez] lz].
  destruct (binary_round_aux_sign prec emax (xorb sx sy) mz ez lz) as [H|H]; auto.
  right. exists sx, sy. repeat split; auto.
Qed.

Lemma SFabs_nonneg x : sf_nonneg_or_nan (SFabs x).
Proof. destruct x; simpl; discriminate. Qed.

Open Scope float_scope.

(** [0 < x] and [x < 0] on values, through the sign. *)
Lemma positive_spec x :
  (0 <? x) = true <->
  sf_sign (Prim2SF x) = Some false /\ sf_is_zero (Prim2SF x) = false.
Proof.
  rewrite ltb_key, !is_nan_spec.
  change (Prim2SF 0) with (S754_zero false). unfold key_lt.
  destruct (Prim2SF x) as [s|s| |s m e]; try destruct s; simpl;
    (split; [intros (H1 & H2 & H3) | intros (H1 & H2)]);
    try discriminate; try lia; repeat split; auto; lia.
Qed.

Lemma negative_spec x :
  (x <? 0) = true <->
  sf_sign (Prim2SF x) = Some true /\ sf_is_zero (Prim2SF x) = false.
Proof.
  rewrite ltb_key, !is_nan_spec.
  change (Prim2SF 0) with (S754_zero false). unfold key_lt.
  destruct (Prim2SF x) as [s|s| |s m e]; try destruct s; simpl;
    (split; [intros (H1 & H2 & H3) | intros (H1 & H2)]);
    try discriminate; try lia; repeat split; auto; lia.
Qed.

(** Multiplying by a factor whose sign bit is not set keeps strict signs:
    a positive product has a positive first factor, a negative product a
    negative one. *)
Lemma mul_keeps_sign w sf :
  sf_nonneg_or_nan (Prim2SF sf) ->
  ((0 <? w * sf) = true -> (0 <? w) = true) /\
  ((w * sf <? 0) = true -> (w <? 0) = true).
Proof.
  intros Hsf. rewrite !positive_spec, !negative_spec, FloatAxioms.mul_spec.
  unfold SF64mul.
  destruct (SFmul_sign prec emax (Prim2SF w) (Prim2SF sf))
    as [H | (sx & sy & Hx & Hy & Hm & Hz)].
  - rewrite H. split; intros [K _]; discriminate.
  - rewrite Hm, Hx. unfold sf_nonneg_or_nan in Hsf. rewrite Hy in Hsf.
    destruct sy; [congruence|]. rewrite xorb_false_r.
    split; intros [K1 K2]; (split; [exact K1|]);
      destruct (sf_is_zero (Prim2SF w)); auto; rewrite Hz in K2; auto.
Qed.

Lemma abs_nonneg x : sf_nonneg_or_nan (Prim2SF (abs x)).
Proof. rewrite FloatAxioms.abs_spec. apply SFabs_nonneg. Qed.

Lemma np_maximum_nonneg a b :
  sf_nonneg_or_nan (Prim2SF a) -> sf_nonneg_or_nan (Prim2SF b) ->
  sf_nonneg_or_nan (Prim2SF (np_maximum a b)).
Proof.
  intros Ha Hb. unfold np_maximum.
  destruct (is_nan a); auto. destruct (is_nan b); auto. destruct (a <? b); auto.
Qed.

Lemma div_nonneg a b :
  sf_nonneg_or_nan (Prim2SF a) -> sf_nonneg_or_nan (Prim2SF b) ->
  sf_nonneg_or_nan (Prim2SF (a / b)).
Proof.
  unfold sf_nonneg_or_nan. intros Ha Hb. rewrite FloatAxioms.div_spec. unfold SF64div.
  destruct (SFdiv_sign prec emax (Prim2SF a) (Prim2SF b))
    as [H | (sx & sy & Hx & Hy & Hd)].
  - rewrite H. discriminate.
  - rewrite Hd. rewrite Hx in Ha. rewrite Hy in Hb.
    destruct sx, sy; simpl; congruence.
Qed.

End FloatSignFacts.

(** ** The export: signs and failures *)

Module ExportFacts.

Import FloatOrder FloatOrderFacts FloatSign FloatSignFacts Numpy Trainers ExportReport.
Open Scope float_scope.

Lemma fold_max_abs_nonneg (v : list float) (acc : float) :
  sf_nonneg_or_nan (Prim2SF acc) ->
  sf_nonneg_or_nan (Prim2SF (fold_left (fun m y => np_maximum m (abs y)) v acc)).
Proof.
  revert acc. induction v as [|y v IH]; simpl; intros acc H; auto.
  apply IH. apply np_maximum_nonneg; auto. apply abs_nonneg.
Qed.

Lemma abs_max_nonneg (v : list float) (m : float) :
  abs_max v = Some m -> sf_nonneg_or_nan (Prim2SF m).
Proof.
  destruct v as [|x v]; simpl; [discriminate|]. intros H. injection H as <-.
  apply fold_max_abs_nonneg. apply abs_nonneg.
Qed.

Lemma scale_factor_nonneg (financial_coefs row0 : list float) (sf : float) :
  scale_factor financial_coefs row0 = Some sf -> sf_nonneg_or_nan (Prim2SF sf).
Proof.
  unfold scale_factor.
  destruct (abs_max financial_coefs) as [a|] eqn:Ha; [|discriminate].
  destruct (abs_max row0) as [b|] eqn:Hb; [|discriminate].
  intros H. injection H as <-.
  apply div_nonneg; eapply abs_max_nonneg; eauto.
Qed.

Lemma Forall2_map_same (A B : Type) (R : A -> B -> Prop) (f : A -> B) (l : list A) :
  (forall x, R x (f x)) -> Forall2 R l (map f l).
Proof. intros H. induction l; simpl; constructor; auto. Qed.

(** X7. The rescaling of the healthcare trainer never flips a weight: an
    exported weight above zero comes from a folded weight above zero, and
    one below zero from one below zero, in binary64 arithmetic and whatever
    the reference file holds. (The converse fails: a product can underflow to
    zero, or be NaN.) *)
Theorem rescaling_keeps_signs
    (coefs : list (list float)) (intercept : list float) (feature_columns : list string)
    (financial_file folded exported : list (list float)) :
  coefs_with_intercept coefs intercept feature_columns = Some folded ->
  coefs_final coefs intercept feature_columns (Some financial_file) = Some exported ->
  Forall2 (Forall2 (fun w w' =>
                      ((0 <? w') = true -> (0 <? w) = true) /\
                      ((w' <? 0) = true -> (w <? 0) = true)))
          folded exported.
Proof.
  intros Hfold. unfold coefs_final. rewrite Hfold.
  destruct financial_file as [|financial_coefs others]; [discriminate|].
  destruct (scale_factor financial_coefs (hd [] folded)) as [sf|] eqn:Hsf; [|discriminate].
  intros H. injection H as <-.
  apply scale_factor_nonneg in Hsf.
  apply Forall2_map_same. intros row.
  apply Forall2_map_same. intros w.
  apply (@mul_keeps_sign w sf Hsf).
Qed.

Lemma rescaling_keeps_signs_witness :
  exists folded exported,
    coefs_with_intercept coefs_49 intercept_49 healthcare_columns = Some folded /\
    coefs_final coefs_49 intercept_49 healthcare_columns (Some financial_1)
      = Some exported /\
    Forall2 (Forall2 (fun w w' =>
                        ((0 <? w') = true -> (0 <? w) = true) /\
                        ((w' <? 0) = true -> (w <? 0) = true)))
            folded exported.
Proof.
  eexists. eexists.
  split; [vm_compute; reflexivity|].
  split; [vm_compute; reflexivity|].
  apply (@rescaling_keeps_signs coefs_49 intercept_49 healthcare_columns financial_1);
    vm_compute; reflexivity.
Defined.

(** X8. The exports raise in these cases only. The academic trainer: the
    model has no coefficient row, no intercept or no feature. The healthcare
    trainer: the same cases, whether the reference file exists or not, and
    besides a reference file that exists and has no row or an empty first
    row. A missing reference file never makes the export raise; where the
    export does not raise it writes the matrix [academic_coefs_csv],
    respectively [coefs_final], gives. *)
Theorem export_raises_iff
    (num : Type) (A : Arith num)
    (coefs : list (list num)) (intercept : list num) (feature_columns : list string)
    (financial_file : option (list (list num))) :
  (academic_export coefs intercept feature_columns = None <->
   coefs = [] \/ intercept = [] \/ hd [] coefs = []) /\
  (healthcare_export coefs intercept feature_columns financial_file = None <->
   coefs = [] \/ intercept = [] \/ hd [] coefs = [] \/
   (exists rows, financial_file = Some rows /\ (rows = [] \/ hd [] rows = []))) /\
  (healthcare_export coefs intercept feature_columns None = None <->
   academic_export coefs intercept feature_columns = None) /\
  (forall out, academic_export coefs intercept feature_columns = Some out ->
               academic_coefs_csv coefs intercept feature_columns = Some out) /\
  (forall out,
      healthcare_export coefs intercept feature_columns financial_file = Some out ->
      coefs_final coefs intercept feature_columns financial_file = Some out).
Proof.
  unfold academic_export, healthcare_export, academic_coefs_csv, coefs_final,
    print_adjusted_first_coefficient, coefs_with_intercept.
  destruct intercept as [|b bs].
  { repeat split; auto; try tauto; try discriminate. }
  destruct coefs as [|row rest].
  { repeat split; auto; try tauto; try discriminate. }
  destruct row as [|w ws].
  { cbn [hd map]. repeat split; auto; try tauto; try discriminate. }
  cbn [hd map].
  split.
  { split; [discriminate|]. intros [H|[H|H]]; discriminate. }
  split.
  { destruct financial_file as [rows|].
    2:{ split; [discriminate|].
        intros [H|[H|[H|(rows & H & _)]]]; discriminate. }
    destruct rows as [|financial_coefs others].
    { split; auto. intros _. right. right. right. exists []. auto. }
    unfold scale_factor.
    destruct financial_coefs as [|f fs].
    { split; auto. intros _. right. right. right.
      eexists. split; [reflexivity|]. auto. }
    simpl. split; [discriminate|].
    intros [H|[H|[H|(rows & H & K)]]]; try discriminate.
    injection H as <-. destruct K as [K|K]; discriminate K. }
  split; [split; discriminate|].
  split; intros out H; exact H.
Qed.

(** *** A class-0 row of zeros *)

Lemma eqb_zero_spec x : (x =? 0) = true <-> sf_is_zero (Prim2SF x) = true.
Proof.
  rewrite eqb_leb, !leb_key, !is_nan_spec.
  change (Prim2SF 0) with (S754_zero false). unfold key_le.
  destruct (Prim2SF x) as [s|s| |s m e]; try destruct s; simpl;
    (split; [intros ((H1 & H2 & H3) & (H4 & H5 & H6)) | intros H]);
    try discriminate; try lia; repeat split; auto; lia.
Qed.

Lemma zero_of_spec x : Prim2SF x = S754_zero false -> x = 0.
Proof.
  intros H. rewrite <- (FloatAxioms.SF2Prim_Prim2SF x), H. reflexivity.
Qed.

Lemma abs_zero w : (w =? 0) = true -> abs w = 0.
Proof.
  rewrite eqb_zero_spec. intros H. apply zero_of_spec.
  rewrite FloatAxioms.abs_spec. destruct (Prim2SF w); try discriminate. reflexivity.
Qed.

Lemma abs_max_zeros (w : float) (row : list float) :
  Forall (fun w => (w =? 0) = true) (w :: row) -> abs_max (w :: row) = Some 0.
Proof.
  intros H. inversion H as [|? ? Hw Hrow]; subst. clear H. simpl. f_equal.
  change (num_abs w) with (abs w). rewrite (abs_zero Hw).
  induction Hrow as [|v row Hv _ IH]; [reflexivity|].
  simpl. change (num_abs v) with (abs v). rewrite (abs_zero Hv).
  change (np_maximum 0 0) with 0. exact IH.
Qed.

(** A quotient by zero is an infinity or NaN, and zero times it is NaN. *)
Lemma zero_times_quotient_by_zero (w a : float) :
  (w =? 0) = true -> is_nan (w * (a / 0)) = true.
Proof.
  rewrite eqb_zero_spec, is_nan_spec, FloatAxioms.mul_spec, FloatAxioms.div_spec.
  change (Prim2SF 0) with (S754_zero false). unfold SF64mul, SF64div.
  destruct (Prim2SF w) as [sw| | |]; try discriminate. intros _.
  destruct (Prim2SF a); reflexivity.
Qed.

(** X9. When the folded class-0 row of the model is all zeros, the healthcare
    trainer divides by zero: with the reference file present, every weight
    it exports for class 0 is NaN. *)
Theorem all_zero_row_exports_nan
    (coefs : list (list float)) (intercept : list float) (feature_columns : list string)
    (financial_file : list (list float)) (row0 : list float)
    (rest exported : list (list float)) :
  coefs_with_intercept coefs intercept feature_columns = Some (row0 :: rest) ->
  Forall (fun w => (w =? 0) = true) row0 ->
  coefs_final coefs intercept feature_columns (Some financial_file) = Some exported ->
  length (hd [] exported) = length row0 /\
  Forall (fun w => is_nan w = true) (hd [] exported).
Proof.
  intros Hfold Hzero. unfold coefs_final. rewrite Hfold.
  destruct financial_file as [|financial_coefs others]; [discriminate|].
  unfold scale_factor. simpl hd.
  destruct (abs_max financial_coefs) as [a|]; [|discriminate].
  destruct row0 as [|w row]; [discriminate|].
  rewrite (abs_max_zeros Hzero).
  intros H. injection H as <-.
  cbn [hd]. change (w * (a / 0) :: map (fun w => w * (a / 0)) row)
    with (map (fun w => w * (a / 0)) (w :: row)).
  split; [apply length_map|].
  apply Forall_forall. intros x Hin. apply in_map_iff in Hin.
  destruct Hin as (v & <- & Hv). rewrite Forall_forall in Hzero.
  apply (@zero_times_quotient_by_zero v a). apply Hzero. exact Hv.
Qed.

Lemma all_zero_row_exports_nan_witness :
  exists exported,
    coefs_final [[-9; -9]] [10] ["cna_mean"; "cna_max"]%string (Some [[0.5; -1]])
      = Some exported /\
    length (hd [] exported) = 2%nat /\
    Forall (fun w => is_nan w = true) (hd [] exported).
Proof.
  eexists.
  assert (H : coefs_final [[-9; -9]] [10] ["cna_mean"; "cna_max"]%string
                (Some [[0.5; -1]]) = Some _) by (vm_compute; reflexivity).
  split; [exact H|].
  apply (@all_zero_row_exports_nan [[-9; -9]] [10] ["cna_mean"; "cna_max"]%string
           [[0.5; -1]] [0; 0] [] _).
  - vm_compute. reflexivity.
  - repeat constructor.
  - exact H.
Defined.

End ExportFacts.

(** ** Reading the table *)

Module DataPreparationFacts.

Import FloatOrder FloatOrderFacts Numpy DataPreparation.

Section FrameFacts.

Variable value : Type.
Variable na : value.
Variable astype_int : list value -> option (list Z).
Variable label : string.

Lemma index_of_middle (c : string) (pre post : list string) :
  ~ In c pre -> index_of c (pre ++ c :: post) = Some (length pre).
Proof.
  induction pre as [|x pre IH]; simpl; intros H.
  - rewrite String.eqb_refl. reflexivity.
  - destruct (String.eqb_spec x c) as [->|_]; [exfalso; auto|].
    rewrite IH by auto. reflexivity.
Qed.

Lemma index_of_none (c : string) (cols : list string) :
  ~ In c cols -> index_of c cols = None.
Proof.
  induction cols as [|x cols IH]; simpl; intros H; [reflexivity|].
  destruct (String.eqb_spec x c) as [->|_]; [exfalso; auto|].
  rewrite IH by auto. reflexivity.
Qed.

Lemma skipn_nth_cons (r : list value) (p : nat) :
  (p < length r)%nat -> skipn p r = nth p r na :: skipn (S p) r.
Proof.
  revert p. induction r as [|x r IH]; simpl; intros p H; [lia|].
  destruct p as [|p]; [reflexivity|]. apply IH. lia.
Qed.

Lemma map_nth_window (r : list value) (n p : nat) :
  (p + n <= length r)%nat ->
  map (fun k => nth k r na) (seq p n) = firstn n (skipn p r).
Proof.
  revert p. induction n as [|n IH]; simpl; intros p H; [reflexivity|].
  rewrite (@skipn_nth_cons r p) by lia. simpl. rewrite IH by lia. reflexivity.
Qed.

(** Looking up the names of a stretch of the columns gives that stretch
    of the row. *)
Lemma select_window (l pre post : list string) (r : list value) :
  NoDup (pre ++ l ++ post) ->
  map (fun col => match index_of col (pre ++ l ++ post) with
                  | Some i => nth i r na
                  | None => na
                  end) l
  = map (fun k => nth k r na) (seq (length pre) (length l)).
Proof.
  revert pre. induction l as [|c l IH]; intros pre Hnd; [reflexivity|].
  change (pre ++ (c :: l) ++ post)%list with (pre ++ c :: l ++ post)%list in *.
  cbn [map length seq]. f_equal.
  - rewrite index_of_middle; [reflexivity|].
    intros Hin. apply NoDup_remove_2 in Hnd. apply Hnd. apply in_or_app. auto.
  - replace (pre ++ c :: l ++ post)%list with ((pre ++ [c]) ++ l ++ post)%list
      by (rewrite <- app_assoc; reflexivity).
    rewrite IH.
    + rewrite length_app. cbn [length].
      replace (length pre + 1)%nat with (S (length pre)) by lia.
      reflexivity.
    + rewrite <- app_assoc. exact Hnd.
Qed.

Lemma filter_other (c : string) (l : list string) :
  ~ In c l -> filter (fun col => negb (String.eqb col c)) l = l.
Proof.
  induction l as [|x l IH]; simpl; intros H; [reflexivity|].
  destruct (String.eqb_spec x c) as [->|_]; [exfalso; auto|].
  simpl. rewrite IH by auto. reflexivity.
Qed.

Lemma existsb_label (cols : list string) :
  existsb (String.eqb label) cols = true <-> In label cols.
Proof.
  rewrite existsb_exists. split.
  - intros (x & Hin & Heq). apply String.eqb_eq in Heq. subst. exact Hin.
  - intros Hin. exists label. split; [exact Hin | apply String.eqb_refl].
Qed.

(** The split of a table whose label column stands between the columns
    [l1] and [l2]. *)
Lemma split_named (l1 l2 : list string) (rows : list (list value)) :
  NoDup (l1 ++ label :: l2) ->
  Forall (fun row => length row = length (l1 ++ label :: l2)) rows ->
  split_features_label na astype_int label {| columns := l1 ++ label :: l2; data := rows |}
  = match astype_int (map (fun row => nth (length l1) row na) rows) with
    | Some y =>
        Some (l1 ++ l2,
              map (fun row => firstn (length l1) row ++ skipn (S (length l1)) row) rows,
              y)
    | None => None
    end.
Proof.
  intros Hnd Hrows. unfold split_features_label. cbn [columns data].
  assert (Hin : existsb (String.eqb label) (l1 ++ label :: l2) = true).
  { apply existsb_label. apply in_or_app. right. left. reflexivity. }
  rewrite Hin.
  pose proof (NoDup_remove_2 _ _ _ Hnd) as Hnot.
  assert (Hf : filter (fun col => negb (String.eqb col label)) (l1 ++ label :: l2)
               = (l1 ++ l2)%list).
  { rewrite filter_app. simpl. rewrite String.eqb_refl. simpl.
    rewrite !filter_other; auto; intros H; apply Hnot; apply in_or_app; auto. }
  rewrite Hf. unfold get_columns, get_column. cbn [columns data].
  assert (Hall : forallb (fun col => existsb (String.eqb col) (l1 ++ label :: l2))
                         (l1 ++ l2) = true).
  { apply forallb_forall. intros c Hc. apply existsb_exists. exists c.
    split; [|apply String.eqb_refl].
    apply in_app_or in Hc. apply in_or_app. destruct Hc; [left|right; right]; auto. }
  rewrite Hall. rewrite index_of_middle.
  2:{ intros H. apply Hnot. apply in_or_app. auto. }
  assert (HX : map (fun row =>
                      map (fun col => match index_of col (l1 ++ label :: l2) with
                                      | Some i => nth i row na
                                      | None => na
                                      end) (l1 ++ l2)) rows
               = map (fun row => firstn (length l1) row ++ skipn (S (length l1)) row) rows).
  { apply map_ext_in. intros row Hrow.
    rewrite Forall_forall in Hrows. specialize (Hrows row Hrow).
    rewrite length_app in Hrows. simpl in Hrows.
    rewrite map_app. f_equal.
    - pose proof (@select_window l1 [] (label :: l2) row Hnd) as E1.
      cbn [app length] in E1. rewrite E1.
      rewrite map_nth_window by (simpl; lia). reflexivity.
    - replace (l1 ++ label :: l2)%list with ((l1 ++ [label]) ++ l2 ++ [])%list
        by (rewrite app_nil_r, <- app_assoc; reflexivity).
      rewrite select_window.
      2:{ rewrite app_nil_r, <- app_assoc. exact Hnd. }
      rewrite length_app. simpl length.
      replace (length l1 + 1)%nat with (S (length l1)) by lia.
      rewrite map_nth_window by lia.
      apply firstn_all2. rewrite length_skipn. lia. }
  rewrite HX. reflexivity.
Qed.

Lemma last_nth (r : list value) : last r na = nth (length r - 1) r na.
Proof.
  induction r as [|x r IH]; [reflexivity|].
  destruct r as [|x' r]; [reflexivity|].
  change (last (x :: x' :: r) na) with (last (x' :: r) na). rewrite IH.
  simpl. rewrite Nat.sub_0_r. reflexivity.
Qed.

(** The split is defined at the label's position [i]: the position of the
    column named [label], or the last position when no column has the name. *)
Lemma split_at (df : DataFrame value) fc X y (i : nat) :
  well_formed df ->
  split_features_label na astype_int label df = Some (fc, X, y) ->
  nth_error (columns df) i = Some label \/
  (~ In label (columns df) /\ S i = length (columns df)) ->
  fc = (firstn i (columns df) ++ skipn (S i) (columns df))%list /\
  X = map (fun row => firstn i row ++ skipn (S i) row)%list (data df) /\
  astype_int (map (fun row => nth i row na) (data df)) = Some y.
Proof.
  destruct df as [cols rows]. unfold well_formed. cbn [columns data].
  intros [Hnd Hrows] Hsplit [Hi | [Hnot Hi]].
  - pose proof (firstn_skipn_middle _ _ Hi) as Hcols.
    assert (Hlen : length (firstn i cols) = i).
    { apply firstn_length_le. apply Nat.lt_le_incl. apply nth_error_Some. congruence. }
    rewrite <- Hcols in Hsplit, Hnd, Hrows.
    rewrite (split_named _ _ Hnd Hrows) in Hsplit. rewrite Hlen in Hsplit.
    destruct (astype_int (map (fun row => nth i row na) rows)) as [y'|];
      [|discriminate].
    injection Hsplit as <- <- <-. auto.
  - unfold split_features_label in Hsplit. cbn [columns data] in Hsplit.
    assert (Hex : existsb (String.eqb label) cols = false).
    { destruct (existsb (String.eqb label) cols) eqn:E; [|reflexivity].
      apply existsb_label in E. contradiction. }
    rewrite Hex in Hsplit. destruct cols as [|c cols]; [discriminate|].
    cbv iota in Hsplit. set (cols' := c :: cols) in *. clearbody cols'.
    assert (Hy : map (fun row => last row na) rows = map (fun row => nth i row na) rows).
    { apply map_ext_in. intros row Hrow. rewrite last_nth.
      rewrite Forall_forall in Hrows. rewrite (Hrows row Hrow), <- Hi.
      simpl. rewrite Nat.sub_0_r. reflexivity. }
    rewrite Hy in Hsplit.
    destruct (astype_int (map (fun row => nth i row na) rows)) as [y'|];
      [|discriminate].
    injection Hsplit as <- <- <-. repeat split.
    + rewrite removelast_firstn_len, <- Hi. simpl Nat.pred.
      rewrite skipn_all2 by lia. rewrite app_nil_r. reflexivity.
    + apply map_ext_in. intros row Hrow.
      rewrite Forall_forall in Hrows. specialize (Hrows row Hrow).
      rewrite removelast_firstn_len, Hrows, <- Hi. simpl Nat.pred.
      rewrite skipn_all2 by lia. rewrite app_nil_r. reflexivity.
Qed.

(** X10. The trainers take exactly one column out of the table as the label:
    the one named [label], wherever it stands, and the last one when no
    column has that name. The features are the other columns in the order of
    the file, [X] holds their cells row by row, [y] is the label column
    converted to integers, and the label's name is not among the feature
    names. *)
Theorem split_takes_one_column_out (df : DataFrame value) fc X y :
  well_formed df ->
  split_features_label na astype_int label df = Some (fc, X, y) ->
  exists i,
    (i < length (columns df))%nat /\
    (In label (columns df) -> nth_error (columns df) i = Some label) /\
    (~ In label (columns df) -> S i = length (columns df)) /\
    fc = (firstn i (columns df) ++ skipn (S i) (columns df))%list /\
    X = map (fun row => firstn i row ++ skipn (S i) row)%list (data df) /\
    astype_int (map (fun row => nth i row na) (data df)) = Some y /\
    ~ In label fc.
Proof.
  intros Hwf Hsplit.
  assert (Hpos : exists i,
             (i < length (columns df))%nat /\
             (nth_error (columns df) i = Some label \/
              (~ In label (columns df) /\ S i = length (columns df)))).
  { destruct (in_dec string_dec label (columns df)) as [Hin|Hnot].
    - apply In_nth_error in Hin. destruct Hin as [i Hi]. exists i. split; auto.
      apply nth_error_Some. congruence.
    - unfold split_features_label in Hsplit.
      destruct (existsb (String.eqb label) (columns df)) eqn:E.
      { apply existsb_label in E. contradiction. }
      destruct (columns df) as [|c cols] eqn:Hc; [discriminate|].
      exists (length cols). simpl. split; [lia|]. right. split; auto. }
  destruct Hpos as (i & Hlt & Hi). exists i.
  destruct (@split_at df fc X y i Hwf Hsplit Hi) as (Hfc & HX & Hy).
  destruct Hwf as [Hnd _].
  split; [exact Hlt|]. split; [|split; [|split; [|split; [|split]]]]; auto.
  - intros Hin. destruct Hi as [Hi|[Hnot _]]; [exact Hi | contradiction].
  - intros Hnot. destruct Hi as [Hi|[_ Hi]]; [|exact Hi].
    exfalso. apply Hnot. eapply nth_error_In. exact Hi.
  - rewrite Hfc. destruct Hi as [Hi|[Hnot _]].
    + pose proof (firstn_skipn_middle _ _ Hi) as Hcols.
      rewrite <- Hcols in Hnd. apply NoDup_remove_2 in Hnd. exact Hnd.
    + intros Hin. apply Hnot. apply in_app_or in Hin.
      destruct Hin as [Hin|Hin].
      * rewrite <- (firstn_skipn i (columns df)). apply in_or_app. auto.
      * rewrite <- (firstn_skipn (S i) (columns df)). apply in_or_app. auto.
Qed.

(** X11. The financial trainer's [Financial_Data_NoHeader.csv] is
    [df.iloc[:, :-1]], the table without its last column. It is the feature
    matrix [X] when the label is the last column. When the column named
    [label] stands elsewhere, the file still holds it: its column at the
    label's position converts to the labels [y]. *)
Theorem no_header_file_holds_a_label_that_is_not_last
    (df : DataFrame value) fc X y (i : nat) :
  well_formed df ->
  split_features_label na astype_int label df = Some (fc, X, y) ->
  nth_error (columns df) i = Some label ->
  (S i = length (columns df) -> original_no_header df = X) /\
  ((S i < length (columns df))%nat ->
   astype_int (map (fun row => nth i row na) (original_no_header df)) = Some y).
Proof.
  intros Hwf Hsplit Hi.
  destruct (@split_at df fc X y i Hwf Hsplit (or_introl Hi)) as (_ & HX & Hy).
  destruct Hwf as [_ Hrows]. rewrite Forall_forall in Hrows.
  unfold original_no_header. split; intros Hlast.
  - rewrite HX. apply map_ext_in. intros row Hrow.
    rewrite removelast_firstn_len, (Hrows row Hrow), <- Hlast. simpl Nat.pred.
    rewrite skipn_all2 by (rewrite (Hrows row Hrow); lia).
    rewrite app_nil_r. reflexivity.
  - rewrite map_map. rewrite <- Hy. f_equal. apply map_ext_in. intros row Hrow.
    rewrite removelast_firstn_len, nth_firstn, (Hrows row Hrow).
    destruct (Nat.ltb_spec i (Nat.pred (length (columns df)))); [reflexivity|lia].
Qed.

End FrameFacts.

Lemma split_takes_one_column_out_witness :
  exists i,
    (i < 3)%nat /\
    split_features_label 0%Z (fun l => Some l) "is_fraud" label_in_the_middle
      = Some (["amount"; "hour"]%string, [ [10; 23]; [2500; 3] ]%Z, [0; 1]%Z) /\
    nth_error (columns label_in_the_middle) i = Some "is_fraud"%string.
Proof.
  destruct (@split_takes_one_column_out Z 0%Z (fun l => Some l) "is_fraud"
              label_in_the_middle ["amount"; "hour"]%string
              [ [10; 23]; [2500; 3] ]%Z [0; 1]%Z)
    as (i & Hlt & Hin & _).
  - split; [repeat constructor; simpl; intuition discriminate | repeat constructor].
  - reflexivity.
  - exists i. split; [exact Hlt|]. split; [reflexivity|].
    apply Hin. simpl. auto.
Defined.

Lemma no_header_file_holds_a_label_that_is_not_last_witness :
  Some (map (fun row => nth 1 row 0%Z) (original_no_header label_in_the_middle))
  = Some [0; 1]%Z.
Proof.
  apply (@no_header_file_holds_a_label_that_is_not_last Z 0%Z (fun l => Some l)
           "is_fraud" label_in_the_middle ["amount"; "hour"]%string
           [ [10; 23]; [2500; 3] ]%Z [0; 1]%Z 1%nat).
  - split; [repeat constructor; simpl; intuition discriminate | repeat constructor].
  - reflexivity.
  - reflexivity.
  - simpl. lia.
Defined.

(** *** The range check *)

Open Scope float_scope.

Lemma leb_nan_r c x : is_nan x = true -> (c <=? x) = false.
Proof.
  intros H. destruct (c <=? x) eqn:E; [|reflexivity].
  apply leb_not_nan in E. destruct E. congruence.
Qed.

Lemma leb_nan_l c x : is_nan x = true -> (x <=? c) = false.
Proof.
  intros H. destruct (x <=? c) eqn:E; [|reflexivity].
  apply leb_not_nan in E. destruct E. congruence.
Qed.

Lemma leb_np_minimum c a b :
  (c <=? np_minimum a b) = (c <=? a) && (c <=? b).
Proof.
  unfold np_minimum.
  destruct (is_nan a) eqn:Ha.
  { rewrite (@leb_nan_r c _ Ha). reflexivity. }
  destruct (is_nan b) eqn:Hb.
  { rewrite (@leb_nan_r c _ Hb). rewrite andb_false_r. reflexivity. }
  destruct (b <? a) eqn:E.
  - destruct (c <=? b) eqn:Hcb; [|rewrite andb_false_r; reflexivity].
    rewrite (leb_trans Hcb (ltb_leb E)). reflexivity.
  - destruct (c <=? a) eqn:Hca; [|reflexivity].
    rewrite (leb_trans Hca (ltb_false_leb Hb Ha E)). reflexivity.
Qed.

Lemma np_maximum_leb c a b :
  (np_maximum a b <=? c) = (a <=? c) && (b <=? c).
Proof.
  unfold np_maximum.
  destruct (is_nan a) eqn:Ha.
  { rewrite (@leb_nan_l c _ Ha). reflexivity. }
  destruct (is_nan b) eqn:Hb.
  { rewrite (@leb_nan_l c _ Hb). rewrite andb_false_r. reflexivity. }
  destruct (a <? b) eqn:E.
  - destruct (b <=? c) eqn:Hbc; [|rewrite andb_false_r; reflexivity].
    rewrite (leb_trans (ltb_leb E) Hbc). reflexivity.
  - destruct (a <=? c) eqn:Hac; [|reflexivity].
    rewrite (leb_trans (ltb_false_leb Ha Hb E) Hac). reflexivity.
Qed.

Lemma leb_fold_minimum c col x :
  (c <=? fold_left np_minimum col x) = (c <=? x) && forallb (fun v => c <=? v) col.
Proof.
  revert x. induction col as [|v col IH]; simpl; intros x.
  - rewrite andb_true_r. reflexivity.
  - rewrite IH, leb_np_minimum, andb_assoc. reflexivity.
Qed.

Lemma fold_maximum_leb c col x :
  (fold_left np_maximum col x <=? c) = (x <=? c) && forallb (fun v => v <=? c) col.
Proof.
  revert x. induction col as [|v col IH]; simpl; intros x.
  - rewrite andb_true_r. reflexivity.
  - rewrite IH, np_maximum_leb, andb_assoc. reflexivity.
Qed.

Lemma forallb_andb (A : Type) (f g : A -> bool) (l : list A) :
  forallb (fun x => f x && g x) l = forallb f l && forallb g l.
Proof.
  induction l as [|x l IH]; simpl; [reflexivity|]. rewrite IH.
  destruct (f x), (g x), (forallb f l), (forallb g l); reflexivity.
Qed.

(** X12. The range check prints "OK" for a normalized column exactly when every
    value of the column lies between 0 and 1, bounds included; one value
    outside, or one NaN, makes it "ERROR". An empty column raises. *)
Theorem status_checks_every_value (col : list float) :
  status col =
    match col with
    | [] => None
    | _ :: _ =>
        Some (if forallb (fun v => (0 <=? v) && (v <=? 1)) col
              then "OK"%string else "ERROR"%string)
    end.
Proof.
  destruct col as [|x col]; [reflexivity|].
  unfold status, np_min, np_max.
  rewrite leb_fold_minimum, fold_maximum_leb, forallb_andb. simpl forallb.
  destruct (0 <=? x), (x <=? 1), (forallb (fun v => 0 <=? v) col),
    (forallb (fun v => v <=? 1) col); reflexivity.
Qed.

End DataPreparationFacts.

(** ** The data generators *)

Module GeneratorsFacts.

Import FloatOrder FloatOrderFacts Numpy Generators.
Open Scope float_scope.

Lemma combine_app (A B : Type) (l1 l2 : list A) (m1 m2 : list B) :
  length l1 = length m1 ->
  combine (l1 ++ l2) (m1 ++ m2) = (combine l1 m1 ++ combine l2 m2)%list.
Proof.
  revert m1. induction l1 as [|x l1 IH]; intros [|y m1] H; simpl in *;
    try discriminate; [reflexivity|].
  rewrite IH by lia. reflexivity.
Qed.

Lemma combine_map_repeat (A B C : Type) (f : A -> B) (c : C) (s : list A) :
  combine (map f s) (repeat c (length s)) = map (fun i => (f i, c)) s.
Proof. induction s as [|x s IH]; simpl; [reflexivity|]. rewrite IH. reflexivity. Qed.

Lemma combine_map_repeat_seq (B C : Type) (f : nat -> B) (c : C) (n : nat) :
  combine (map f (seq 0 n)) (repeat c n) = map (fun i => (f i, c)) (seq 0 n).
Proof.
  pose proof (combine_map_repeat f c (seq 0 n)) as H.
  rewrite length_seq in H. exact H.
Qed.

Lemma combine_map_map (A B C : Type) (f : A -> B) (g : A -> C) (s : list A) :
  combine (map f s) (map g s) = map (fun i => (f i, g i)) s.
Proof. induction s as [|x s IH]; simpl; [reflexivity|]. rewrite IH. reflexivity. Qed.

Lemma map_nth_combine (A B : Type) (l : list A) (m : list B) (a : A) (b : B) :
  length l = length m ->
  map (fun i => (nth i l a, nth i m b)) (seq 0 (length l)) = combine l m.
Proof.
  intros H. apply nth_ext with (d := (a, b)) (d' := (a, b)).
  - rewrite length_map, length_seq, length_combine. lia.
  - intros n Hn. rewrite length_map, length_seq in Hn.
    rewrite (nth_indep _ (a, b) (nth 0 l a, nth 0 m b))
      by (rewrite length_map, length_seq; exact Hn).
    rewrite (map_nth (fun i => (nth i l a, nth i m b))), seq_nth by exact Hn.
    rewrite combine_nth by exact H. reflexivity.
Qed.

Lemma map_snd_combine (A B : Type) (l : list A) (m : list B) :
  length l = length m -> map snd (combine l m) = m.
Proof.
  revert m. induction l as [|x l IH]; intros [|y m] H; simpl in *;
    try discriminate; [reflexivity|].
  rewrite IH by lia. reflexivity.
Qed.

Lemma map_const_seq (C : Type) (c : C) (n : nat) :
  map (fun _ => c) (seq 0 n) = repeat c n.
Proof. rewrite map_const, length_seq. reflexivity. Qed.

Section GenerateFacts.

Variable draws : Type.
Variable first_row second_row : draws -> list float.

(** The rows and the labels of the two loops, reordered by the same
    indices, are a rearrangement of the labelled rows. *)
Lemma shuffled_labelled_rows
    (n_first n_second : Z) (first_draws second_draws : nat -> draws)
    (indices : list nat) :
  Permutation indices
    (seq 0 (length
       (map (fun i => first_row (first_draws i)) (seq 0 (Z.to_nat n_first))
        ++ map (fun i => second_row (second_draws i)) (seq 0 (Z.to_nat n_second))))) ->
  Permutation
    (combine
       (map (fun i =>
               nth i (map (fun i => first_row (first_draws i)) (seq 0 (Z.to_nat n_first))
                      ++ map (fun i => second_row (second_draws i))
                             (seq 0 (Z.to_nat n_second))) []) indices)
       (map (fun i =>
               nth i (repeat 0%Z (Z.to_nat n_first) ++ repeat 1%Z (Z.to_nat n_second)) 0%Z)
            indices))
    (labelled_rows first_row second_row n_first n_second first_draws second_draws).
Proof.
  set (a := Z.to_nat n_first). set (b := Z.to_nat n_second).
  set (F := (map (fun i => first_row (first_draws i)) (seq 0 a)
             ++ map (fun i => second_row (second_draws i)) (seq 0 b))%list).
  set (L := (repeat 0%Z a ++ repeat 1%Z b)%list).
  intros Hperm.
  assert (HFL : length F = length L).
  { unfold F, L. rewrite !length_app, !length_map, !length_seq, !repeat_length.
    reflexivity. }
  rewrite combine_map_map.
  apply Permutation_trans with
    (map (fun i => (nth i F [], nth i L 0%Z)) (seq 0 (length F))).
  { apply Permutation_map. exact Hperm. }
  rewrite map_nth_combine by exact HFL.
  unfold F, L, labelled_rows. fold a b.
  rewrite combine_app by (rewrite length_map, length_seq, repeat_length; reflexivity).
  rewrite !combine_map_repeat_seq. apply Permutation_refl.
Qed.

(** X14. The generators pair every row with its own label through the shuffle:
    rows and labels are reordered by the same indices, so the generated
    table is a rearrangement of the rows of the first loop, labelled 0, and
    those of the second loop, labelled 1. *)
Theorem shuffle_keeps_rows_with_their_labels
    (n_samples : Z) (ratio : float) (first_draws second_draws : nat -> draws)
    (permutation : nat -> list nat) (X : matrix) (y : list Z) :
  (forall n, Permutation (permutation n) (seq 0 n)) ->
  generate first_row second_row n_samples ratio first_draws second_draws permutation
    = Some (X, y) ->
  exists n_second,
    py_int (float_of_Z n_samples * ratio) = Some n_second /\
    length X = length y /\
    Permutation (combine X y)
      (labelled_rows first_row second_row (n_samples - n_second) n_second
                     first_draws second_draws).
Proof.
  intros Hperm. unfold generate.
  destruct (is_infinity (float_of_Z n_samples)); [discriminate|].
  destruct (py_int (float_of_Z n_samples * ratio)) as [n_second|]; [|discriminate].
  intros H. injection H as <- <-. exists n_second.
  split; [reflexivity|].
  split; [rewrite !length_map; reflexivity|].
  apply shuffled_labelled_rows. apply Hperm.
Qed.

(** X15. The generators return [n_samples] rows exactly when the number of rows
    of the second class, [int(n_samples * ratio)], lies between 0 and
    [n_samples]. A ratio above 1 or below 0 makes one loop run more often
    than [n_samples] and the other not at all. *)
Theorem row_count_is_n_samples_iff_ratio_in_range
    (n_samples : Z) (ratio : float) (first_draws second_draws : nat -> draws)
    (permutation : nat -> list nat) (X : matrix) (y : list Z) (n_second : Z) :
  (forall n, length (permutation n) = n) ->
  (0 <= n_samples)%Z ->
  py_int (float_of_Z n_samples * ratio) = Some n_second ->
  generate first_row second_row n_samples ratio first_draws second_draws permutation
    = Some (X, y) ->
  length X = (Z.to_nat (n_samples - n_second) + Z.to_nat n_second)%nat /\
  length y = length X /\
  (Z.of_nat (length X) = n_samples <-> (0 <= n_second <= n_samples)%Z).
Proof.
  intros Hperm Hn Hint. unfold generate. rewrite Hint.
  destruct (is_infinity (float_of_Z n_samples)); [discriminate|].
  intros H. injection H as <- <-.
  rewrite !length_map, Hperm, length_app, !length_map, !length_seq.
  split; [reflexivity|]. split; [reflexivity|]. lia.
Qed.

(** The sizes of the two classes in the generated data. *)
Lemma generate_counts
    (n_samples : Z) (ratio : float) (first_draws second_draws : nat -> draws)
    (permutation : nat -> list nat) (X : matrix) (y : list Z) (n_second : Z) :
  (forall n, Permutation (permutation n) (seq 0 n)) ->
  py_int (float_of_Z n_samples * ratio) = Some n_second ->
  generate first_row second_row n_samples ratio first_draws second_draws permutation
    = Some (X, y) ->
  length X = (Z.to_nat (n_samples - n_second) + Z.to_nat n_second)%nat /\
  length y = (Z.to_nat (n_samples - n_second) + Z.to_nat n_second)%nat /\
  count_occ Z.eq_dec y 0%Z = Z.to_nat (n_samples - n_second) /\
  count_occ Z.eq_dec y 1%Z = Z.to_nat n_second.
Proof.
  intros Hperm Hint. unfold generate. rewrite Hint.
  destruct (is_infinity (float_of_Z n_samples)); [discriminate|].
  intros H. injection H as <- <-.
  pose proof (shuffled_labelled_rows (n_samples - n_second) n_second
                first_draws second_draws (Hperm _)) as HP.
  apply (Permutation_map snd) in HP.
  rewrite map_snd_combine in HP by (rewrite !length_map; reflexivity).
  unfold labelled_rows in HP.
  rewrite map_app, !map_map in HP. cbn [snd] in HP. rewrite !map_const_seq in HP.
  pose proof (proj1 (Permutation_count_occ Z.eq_dec _ _) HP) as Hc.
  rewrite !Hc, !count_occ_app.
  rewrite (count_occ_repeat_neq Z.eq_dec (x := 1%Z) (y := 0%Z)) by discriminate.
  rewrite (count_occ_repeat_eq Z.eq_dec (x := 1%Z) (y := 1%Z)) by reflexivity.
  rewrite (count_occ_repeat_eq Z.eq_dec (x := 0%Z) (y := 0%Z)) by reflexivity.
  rewrite (count_occ_repeat_neq Z.eq_dec (x := 0%Z) (y := 1%Z)) by discriminate.
  rewrite (length_map (fun i => nth i _ 0%Z)), (length_map (fun i => nth i _ [])).
  rewrite (Permutation_length (Hperm _)), length_seq.
  rewrite length_app, !length_map, !length_seq.
  repeat split; lia.
Qed.

End GenerateFacts.

(** *** Clamped features *)

Lemma Forall2_combine (A B : Type) (P : A -> B -> Prop) (l : list A) (m : list B) :
  length l = length m ->
  (forall p, In p (combine l m) -> P (fst p) (snd p)) ->
  Forall2 P l m.
Proof.
  revert m. induction l as [|x l IH]; intros [|y m] Hlen Hall; simpl in Hlen;
    try discriminate; constructor.
  - apply (Hall (x, y)). left. reflexivity.
  - apply IH; [lia|]. intros p Hin. apply Hall. right. exact Hin.
Qed.

Lemma clamp_range (lo hi x : float) :
  (lo <=? hi) = true ->
  (lo <=? py_max lo (py_min x hi)) = true /\ (py_max lo (py_min x hi) <=? hi) = true.
Proof.
  intros Hlh. destruct (leb_not_nan Hlh) as [Hlo Hhi].
  unfold py_max, py_min.
  destruct (hi <? x) eqn:E1.
  - destruct (lo <? hi) eqn:E2.
    + split; [exact Hlh | apply leb_refl; exact Hhi].
    + split; [apply leb_refl; exact Hlo | exact Hlh].
  - destruct (lo <? x) eqn:E2.
    + split; [apply ltb_leb; exact E2|].
      apply ltb_false_leb; auto. apply ltb_not_nan in E2. tauto.
    + split; [apply leb_refl; exact Hlo | exact Hlh].
Qed.

Lemma passing_midterm_clamped_up (d : student) :
  (midterm d <=? 0.6) = true -> nth 3 (passing_row d) nan = 0.6.
Proof.
  intros H. cbn [nth passing_row]. unfold py_max, py_min.
  assert (H1 : (1 <? midterm d) = false).
  { apply leb_ltb_false. apply (leb_trans H). reflexivity. }
  rewrite H1, (leb_ltb_false H). reflexivity.
Qed.

Lemma at_risk_midterm_clamped_down (d : student) :
  (0.6 <=? midterm d) = true -> (nth 3 (at_risk_row d) nan =? 0.6) = true.
Proof.
  intros H. cbn [nth at_risk_row]. unfold py_max, py_min.
  destruct (0.6 <? midterm d) eqn:E; [reflexivity|].
  assert (H0 : (0 <? midterm d) = true).
  { destruct (0 <? midterm d) eqn:E0; [reflexivity|]. exfalso.
    assert (K : (midterm d <=? 0) = true).
    { apply ltb_false_leb; [reflexivity | apply leb_not_nan in H; tauto | exact E0]. }
    pose proof (leb_trans H K) as K'. vm_compute in K'. discriminate K'. }
  rewrite H0. apply eqb_leb. split; [|exact H].
  apply ltb_false_leb; [reflexivity | apply leb_not_nan in H; tauto | exact E].
Qed.

(** X16. In the academic data the two classes lie on opposite sides of the
    midterm score 0.6, whatever the random draws are: every row labelled 0
    has a midterm score of at least 0.6 and every row labelled 1 one of at
    most 0.6, so a score above 0.6 means label 0 and a score below 0.6 means
    label 1. The score does not separate the classes: both clamps share the
    bound 0.6, and a passing draw of at most 0.6 and an at-risk draw of at
    least 0.6 both give a row with the score 0.6. Every row has ten features,
    every label is 0 or 1, and the attendance, assignment, midterm and
    participation scores of every row lie between 0 and 1. *)
Theorem midterm_orders_the_classes_around_0_6
    (n_samples : Z) (at_risk_ratio : float) (first_draws second_draws : nat -> student)
    (permutation : nat -> list nat) (X : matrix) (y : list Z) :
  (forall n, Permutation (permutation n) (seq 0 n)) ->
  generate_academic_data n_samples at_risk_ratio first_draws second_draws permutation
    = Some (X, y) ->
  Forall2 (fun row label =>
             length row = 10%nat /\
             (label = 0%Z \/ label = 1%Z) /\
             (label = 0%Z -> (0.6 <=? nth 3 row nan) = true) /\
             (label = 1%Z -> (nth 3 row nan <=? 0.6) = true) /\
             ((0.6 <? nth 3 row nan) = true -> label = 0%Z) /\
             ((nth 3 row nan <? 0.6) = true -> label = 1%Z) /\
             (forall j, (1 <= j <= 4)%nat ->
                        (0 <=? nth j row nan) = true /\ (nth j row nan <=? 1) = true))
          X y /\
  (forall d, (midterm d <=? 0.6) = true -> nth 3 (passing_row d) nan = 0.6) /\
  (forall d, (0.6 <=? midterm d) = true ->
             (nth 3 (at_risk_row d) nan =? 0.6) = true).
Proof.
  intros Hperm. unfold generate_academic_data, generate.
  destruct (is_infinity (float_of_Z n_samples)); [discriminate|].
  destruct (py_int (float_of_Z n_samples * at_risk_ratio)) as [n_second|];
    [|discriminate].
  intros H. injection H as <- <-.
  split; [|split; [exact passing_midterm_clamped_up
                  | exact at_risk_midterm_clamped_down]].
  apply Forall2_combine; [rewrite !length_map; reflexivity|].
  intros p Hin.
  apply (Permutation_in _ (shuffled_labelled_rows passing_row at_risk_row _ _ _ _
                             (Hperm _))) in Hin.
  unfold labelled_rows in Hin. apply in_app_or in Hin.
  destruct Hin as [Hin|Hin]; apply in_map_iff in Hin;
    destruct Hin as (i & <- & _); cbn [fst snd].
  - set (d := first_draws i).
    assert (Hm : (0.6 <=? nth 3 (passing_row d) nan) = true).
    { apply (@clamp_range 0.6 1 (midterm d)). reflexivity. }
    split; [reflexivity|]. split; [auto|].
    split; [intros _; exact Hm|].
    split; [discriminate|].
    split; [reflexivity|].
    split; [intros K; apply leb_ltb_false in Hm; congruence|].
    intros j Hj.
    assert (R : forall lo x, (0 <=? lo) = true -> (lo <=? 1) = true ->
                  (0 <=? py_max lo (py_min x 1)) = true /\
                  (py_max lo (py_min x 1) <=? 1) = true).
    { intros lo x H0 H1. destruct (@clamp_range lo 1 x H1) as [Ha Hb].
      split; [exact (leb_trans H0 Ha) | exact Hb]. }
    destruct j as [|[|[|[|[|j]]]]]; try lia; cbn [nth passing_row];
      apply R; reflexivity.
  - set (d := second_draws i).
    assert (Hm : (nth 3 (at_risk_row d) nan <=? 0.6) = true).
    { apply (@clamp_range 0 0.6 (midterm d)). reflexivity. }
    split; [reflexivity|]. split; [auto|].
    split; [discriminate|].
    split; [intros _; exact Hm|].
    split; [intros K; apply leb_ltb_false in Hm; congruence|].
    split; [reflexivity|].
    intros j Hj.
    assert (R : forall hi x, (0 <=? hi) = true -> (hi <=? 1) = true ->
                  (0 <=? py_max 0 (py_min x hi)) = true /\
                  (py_max 0 (py_min x hi) <=? 1) = true).
    { intros hi x H0 H1. destruct (@clamp_range 0 hi x H0) as [Ha Hb].
      split; [exact Ha | exact (leb_trans Hb H1)]. }
    destruct j as [|[|[|[|[|j]]]]]; try lia; cbn [nth at_risk_row];
      apply R; reflexivity.
Qed.

Lemma identity_is_a_permutation (n : nat) : Permutation (seq 0 n) (seq 0 n).
Proof. apply Permutation_refl. Qed.

Lemma shuffle_keeps_rows_with_their_labels_witness :
  exists X y n_second,
    generate_academic_data 10 0.2 (fun _ => a_student 0.75) (fun _ => a_student 0.25)
                           (fun n => seq 0 n) = Some (X, y) /\
    py_int (float_of_Z 10 * 0.2) = Some n_second /\
    length X = length y /\
    Permutation (combine X y)
      (labelled_rows passing_row at_risk_row (10 - n_second) n_second
                     (fun _ => a_student 0.75) (fun _ => a_student 0.25)).
Proof.
  eexists. eexists.
  assert (H : generate_academic_data 10 0.2 (fun _ => a_student 0.75)
                (fun _ => a_student 0.25) (fun n => seq 0 n) = Some (_, _))
    by (vm_compute; reflexivity).
  destruct (@shuffle_keeps_rows_with_their_labels student passing_row at_risk_row
              10 0.2 (fun _ => a_student 0.75) (fun _ => a_student 0.25)
              (fun n => seq 0 n) _ _ identity_is_a_permutation H)
    as (n_second & H1 & H2 & H3).
  exists n_second. split; [exact H|]. split; [exact H1|]. split; [exact H2|exact H3].
Defined.

Lemma row_count_is_n_samples_iff_ratio_in_range_witness :
  exists X y,
    generate_academic_data 10 0.2 (fun _ => a_student 0.75) (fun _ => a_student 0.25)
                           (fun n => seq 0 n) = Some (X, y) /\
    length X = (Z.to_nat (10 - 2) + Z.to_nat 2)%nat /\
    length y = length X /\
    (Z.of_nat (length X) = 10%Z <-> (0 <= 2 <= 10)%Z).
Proof.
  eexists. eexists.
  assert (H : generate_academic_data 10 0.2 (fun _ => a_student 0.75)
                (fun _ => a_student 0.25) (fun n => seq 0 n) = Some (_, _))
    by (vm_compute; reflexivity).
  split; [exact H|].
  apply (@row_count_is_n_samples_iff_ratio_in_range student passing_row at_risk_row
           10 0.2 (fun _ => a_student 0.75) (fun _ => a_student 0.25)
           (fun n => seq 0 n) _ _ 2%Z).
  - intros n. apply length_seq.
  - lia.
  - vm_compute. reflexivity.
  - exact H.
Defined.

Lemma midterm_orders_the_classes_around_0_6_witness :
  exists X y,
    generate_academic_data 10 0.2 (fun _ => a_student 0.5) (fun _ => a_student 0.9)
                           (fun n => seq 0 n) = Some (X, y) /\
    Forall2 (fun row label =>
               length row = 10%nat /\
               (label = 0%Z \/ label = 1%Z) /\
               (label = 0%Z -> (0.6 <=? nth 3 row nan) = true) /\
               (label = 1%Z -> (nth 3 row nan <=? 0.6) = true) /\
               ((0.6 <? nth 3 row nan) = true -> label = 0%Z) /\
               ((nth 3 row nan <? 0.6) = true -> label = 1%Z) /\
               (forall j, (1 <= j <= 4)%nat ->
                          (0 <=? nth j row nan) = true /\ (nth j row nan <=? 1) = true))
            X y /\
    map (fun row => nth 3 row nan) X = repeat 0.6 10 /\
    y = (repeat 0 8 ++ repeat 1 2)%Z.
Proof.
  eexists. eexists.
  assert (H : generate_academic_data 10 0.2 (fun _ => a_student 0.5)
                (fun _ => a_student 0.9) (fun n => seq 0 n) = Some (_, _))
    by (vm_compute; reflexivity).
  split; [exact H|].
  split; [|split; vm_compute; reflexivity].
  exact (proj1 (@midterm_orders_the_classes_around_0_6 10 0.2
                  (fun _ => a_student 0.5) (fun _ => a_student 0.9)
                  (fun n => seq 0 n) _ _ identity_is_a_permutation H)).
Defined.

End GeneratorsFacts.

(** ** The training data of the first academic trainer *)

Module AcademicTrainerFacts.

Import Numpy Generators GeneratorsFacts AcademicTrainer.
Open Scope float_scope.

(** X17. When one of the two data files is missing, the trainer does not read
    the other: it generates the data and writes both files, replacing the
    one that exists. The generated data has 3000 rows, 600 of them labelled
    at risk and 2400 labelled passing: [int(3000 * 0.2)] is 600 in binary64
    arithmetic. *)
Theorem missing_file_regenerates_both
    (fs : files) (first_draws second_draws : nat -> student)
    (permutation : nat -> list nat) :
  academic_features fs = None \/ academic_labels fs = None ->
  (forall n, Permutation (permutation n) (seq 0 n)) ->
  exists X y,
    load_or_generate fs first_draws second_draws permutation
      = Some (X, y, {| academic_features := Some X; academic_labels := Some y |}) /\
    generate_academic_data 3000 0.2 first_draws second_draws permutation = Some (X, y) /\
    length X = 3000%nat /\ length y = 3000%nat /\
    count_occ Z.eq_dec y 1%Z = 600%nat /\ count_occ Z.eq_dec y 0%Z = 2400%nat.
Proof.
  intros Hmiss Hperm.
  assert (Hint : py_int (float_of_Z 3000 * 0.2) = Some 600%Z) by (vm_compute; reflexivity).
  assert (Hfin : is_infinity (float_of_Z 3000) = false) by (vm_compute; reflexivity).
  destruct (generate_academic_data 3000 0.2 first_draws second_draws permutation)
    as [[X y]|] eqn:Hgen.
  2:{ unfold generate_academic_data, generate in Hgen. rewrite Hfin, Hint in Hgen.
      discriminate. }
  exists X, y.
  split.
  { unfold load_or_generate. rewrite Hgen.
    destruct fs as [[f|] [l|]]; cbn [academic_features academic_labels] in *;
      try reflexivity.
    destruct Hmiss; discriminate. }
  split; [reflexivity|].
  destruct (@generate_counts student passing_row at_risk_row 3000 0.2
              first_draws second_draws permutation X y 600%Z Hperm Hint Hgen)
    as (H1 & H2 & H3 & H4).
  rewrite H1, H2, H3, H4. repeat split; reflexivity.
Qed.

Lemma missing_file_regenerates_both_witness :
  exists X y,
    load_or_generate {| academic_features := Some [[0.5]]; academic_labels := None |}
                     (fun _ => a_student 0.75) (fun _ => a_student 0.25)
                     (fun n => seq 0 n)
      = Some (X, y, {| academic_features := Some X; academic_labels := Some y |}) /\
    generate_academic_data 3000 0.2 (fun _ => a_student 0.75) (fun _ => a_student 0.25)
                           (fun n => seq 0 n) = Some (X, y) /\
    length X = 3000%nat /\ length y = 3000%nat /\
    count_occ Z.eq_dec y 1%Z = 600%nat /\ count_occ Z.eq_dec y 0%Z = 2400%nat.
Proof.
  apply (@missing_file_regenerates_both
           {| academic_features := Some [[0.5]]; academic_labels := None |}
           (fun _ => a_student 0.75) (fun _ => a_student 0.25) (fun n => seq 0 n)).
  - right. reflexivity.
  - exact identity_is_a_permutation.
Defined.

End AcademicTrainerFacts.

(** ** The score of the exported weights, in exact arithmetic *)

Module ScoringFacts.

Import Trainers TrainersFacts Scoring.
Open Scope Q_scope.

Lemma weighted_sum_shift (row features : list Q) (c : Q) :
  length features = length row ->
  weighted_sum (map (fun w => w + c) row) features
  == weighted_sum row features + c * total features.
Proof.
  unfold weighted_sum, total. revert features.
  induction row as [|w row IH]; intros [|x features] H; simpl in *;
    try discriminate; [ring|].
  rewrite IH by lia. ring.
Qed.

Lemma weighted_sum_scale (row features : list Q) (c : Q) :
  weighted_sum (map (fun w => w * c) row) features == c * weighted_sum row features.
Proof.
  unfold weighted_sum. revert features.
  induction row as [|w row IH]; intros [|x features]; simpl; try ring.
  rewrite IH. ring.
Qed.

(** X18. What the folding of the intercept does to a score, in exact
    arithmetic: the weighted sum of a feature vector under the exported
    class-0 row is the model's weighted sum plus 1.8 times the intercept times
    the mean of the features. It is the model's score, intercept included,
    exactly when the intercept is zero or the mean of the features is 5/9. *)
Theorem folded_score_adds_intercept_times_mean
    (row : list Q) (rest : list (list Q)) (b : Q) (bs : list Q)
    (feature_columns : list string) (features : list Q) :
  length feature_columns = length row ->
  length features = length row ->
  (0 < length row)%nat ->
  exists folded,
    academic_coefs_csv (row :: rest) (b :: bs) feature_columns = Some (folded :: rest) /\
    weighted_sum folded features
    == weighted_sum row features
       + (18 # 10) * b * (total features / inject_Z (Z.of_nat (length row))) /\
    (weighted_sum folded features == weighted_sum row features + b <->
     b == 0 \/ total features / inject_Z (Z.of_nat (length row)) == 5 # 9).
Proof.
  intros Hcols Hlen Hpos.
  set (n := inject_Z (Z.of_nat (length row))).
  assert (Hn : ~ n == 0).
  { unfold n. intros H. apply (Qeq_bool_neq 0 (inject_Z (Z.of_nat (length row)))).
    - unfold Qeq_bool, inject_Z. simpl. destruct (length row); [lia|reflexivity].
    - symmetry. exact H. }
  eexists. split; [reflexivity|].
  cbn [num_add exact intercept_per_feature num_div num_mul num_of_nat num_1_8].
  unfold intercept_per_feature.
  cbn [num_add exact num_div num_mul num_of_nat num_1_8].
  rewrite Hcols. fold n.
  assert (E : weighted_sum (map (fun w => w + b * (18 # 10) / n) row) features
              == weighted_sum row features + (18 # 10) * b * (total features / n)).
  { rewrite weighted_sum_shift by exact Hlen. field. exact Hn. }
  split; [exact E|].
  rewrite E. split.
  - intros H.
    assert (K : b * ((18 # 10) * (total features / n) - 1) == 0).
    { setoid_replace (b * ((18 # 10) * (total features / n) - 1))
        with (weighted_sum row features + (18 # 10) * b * (total features / n)
              - (weighted_sum row features + b)) by ring.
      rewrite H. ring. }
    apply Qmult_integral in K. destruct K as [K|K]; [left; exact K|right].
    assert (Q9 : total features / n
                 == ((18 # 10) * (total features / n) - 1) * (10 # 18) + (10 # 18))
      by ring.
    rewrite K in Q9. rewrite Q9. reflexivity.
  - intros [H|H]; rewrite H; ring.
Qed.

Lemma folded_score_adds_intercept_times_mean_witness :
  exists folded,
    academic_coefs_csv [[1 # 2; -3 # 1]] [5 # 1] ["a"; "b"]%string = Some (folded :: []) /\
    weighted_sum folded [1 # 3; 1 # 4]
    == weighted_sum [1 # 2; -3 # 1] [1 # 3; 1 # 4]
       + (18 # 10) * (5 # 1) * (total [1 # 3; 1 # 4] / inject_Z (Z.of_nat 2)).
Proof.
  destruct (@folded_score_adds_intercept_times_mean [1 # 2; -3 # 1] [] (5 # 1) []
              ["a"; "b"]%string [1 # 3; 1 # 4] eq_refl eq_refl (le_n_S 0 1 (le_0_n 1)))
    as (folded & H1 & H2 & _).
  exists folded. split; [exact H1 | exact H2].
Defined.

(** X19. The rescaling of the healthcare trainer multiplies the score of
    every feature vector by the same factor, in exact arithmetic. When
    neither the reference row nor the folded class-0 row is all zeros the
    factor is positive, so no score changes its side of zero: the class
    read off the sign of the score is the one before the rescaling. *)
Theorem rescaling_keeps_the_side_of_every_score
    (coefs : list (list Q)) (intercept : list Q) (feature_columns : list string)
    (financial_coefs : list Q) (others : list (list Q))
    (folded exported : list Q) (rest rest' : list (list Q)) (a m : Q) :
  coefs_with_intercept coefs intercept feature_columns = Some (folded :: rest) ->
  coefs_final coefs intercept feature_columns (Some (financial_coefs :: others))
    = Some (exported :: rest') ->
  abs_max financial_coefs = Some a ->
  abs_max folded = Some m ->
  ~ a == 0 -> ~ m == 0 ->
  0 < a / m /\
  forall features,
    weighted_sum exported features == (a / m) * weighted_sum folded features /\
    (0 < weighted_sum exported features <-> 0 < weighted_sum folded features) /\
    (weighted_sum exported features < 0 <-> weighted_sum folded features < 0).
Proof.
  intros Hfold Hfinal Ha Hm Hna Hnm.
  assert (Hpos : 0 < a / m).
  { pose proof (Q_abs_max_nonneg _ Ha) as Ha0. pose proof (Q_abs_max_nonneg _ Hm) as Hm0.
    assert (Hap : 0 < a).
    { apply Qle_lt_or_eq in Ha0. destruct Ha0 as [H|H]; [exact H|].
      exfalso. apply Hna. symmetry. exact H. }
    assert (Hmp : 0 < m).
    { apply Qle_lt_or_eq in Hm0. destruct Hm0 as [H|H]; [exact H|].
      exfalso. apply Hnm. symmetry. exact H. }
    unfold Qdiv. apply Qmult_lt_0_compat; [exact Hap|].
    apply Qinv_lt_0_compat. exact Hmp. }
  split; [exact Hpos|].
  unfold coefs_final in Hfinal. rewrite Hfold in Hfinal. simpl hd in Hfinal.
  unfold scale_factor in Hfinal. rewrite Ha, Hm in Hfinal.
  injection Hfinal as <- _.
  intros features.
  assert (E : weighted_sum (map (fun w => num_mul w (num_div a m)) folded) features
              == (a / m) * weighted_sum folded features).
  { apply weighted_sum_scale. }
  split; [exact E|]. rewrite E.
  split; split; intros H.
  - apply (Qmult_lt_l _ _ (a / m) Hpos). rewrite Qmult_0_r. exact H.
  - rewrite <- (Qmult_0_r (a / m)). apply Qmult_lt_l; assumption.
  - apply (Qmult_lt_l _ _ (a / m) Hpos). rewrite Qmult_0_r. exact H.
  - rewrite <- (Qmult_0_r (a / m)). apply Qmult_lt_l; assumption.
Qed.

Lemma rescaling_keeps_the_side_of_every_score_witness :
  exists folded exported rest rest',
    coefs_with_intercept [[(1 # 2); (-3 # 1)]] [(5 # 1)] ["cna_mean"; "cna_max"]%string
      = Some (folded :: rest) /\
    coefs_final [[(1 # 2); (-3 # 1)]] [(5 # 1)] ["cna_mean"; "cna_max"]%string
                (Some [[(2 # 1); (-7 # 1)]])
      = Some (exported :: rest') /\
    (0 < weighted_sum exported [1 # 3; 1 # 4]
     <-> 0 < weighted_sum folded [1 # 3; 1 # 4]).
Proof.
  destruct (coefs_with_intercept [[(1 # 2); (-3 # 1)]] [(5 # 1)]
              ["cna_mean"; "cna_max"]%string) as [[|folded rest]|] eqn:Hfold;
    try discriminate Hfold.
  destruct (coefs_final [[(1 # 2); (-3 # 1)]] [(5 # 1)] ["cna_mean"; "cna_max"]%string
              (Some [[(2 # 1); (-7 # 1)]])) as [[|exported rest']|] eqn:Hfinal;
    try (unfold coefs_final in Hfinal; rewrite Hfold in Hfinal;
         injection Hfold as <- _; discriminate Hfinal).
  destruct (abs_max folded) as [m|] eqn:Hm;
    [|injection Hfold as <- _; discriminate Hm].
  destruct (@rescaling_keeps_the_side_of_every_score
              [[(1 # 2); (-3 # 1)]] [(5 # 1)] ["cna_mean"; "cna_max"]%string
              [(2 # 1); (-7 # 1)] [] folded exported rest rest' (7 # 1) m
              Hfold Hfinal eq_refl Hm)
    as (_ & H).
  - intros H. vm_compute in H. discriminate H.
  - injection Hfold as <- _. injection Hm as <-. intros H. vm_compute in H.
    discriminate H.
  - exists folded, exported, rest, rest'.
    split; [reflexivity|]. split; [reflexivity|].
    exact (proj1 (proj2 (H [1 # 3; 1 # 4]))).
Defined.

End ScoringFacts.
